(** * ActiveJS core: Units, persistence, Selection paths and the AsyncSystem

    A shallow embedding of the reactive storage Units of ActiveJS
    ([UnitBase] and its flavours), of the persistence helpers, of the path
    check of [Selection] and of the relationships of [AsyncSystemBase],
    followed by the properties established about them. *)

From Stdlib Require Import ZArith QArith Qcanon Bool Lia.
From stdpp Require Import base option numbers list strings gmap.

Set Warnings "-register-all".
Set Warnings "-notation-overridden".
Set Warnings "-ambiguous-paths".
Set Warnings "-clear-no-such-hyp".

(** ** JavaScript values *)

Module Js.

(** A JavaScript number.  Finite numbers are canonical rationals, so that
  two finite numbers are the same number exactly when they are equal;
  the sign of zero is not represented. *)
Inductive JsNum : Type :=
| NaN
| PosInf
| NegInf
| Fin (q : Qc).

(** A JSON document, the result of [JSON.stringify] / input of [JSON.parse]. *)
Inductive Json : Type :=
| JNull
| JBool (b : bool)
| JNum (q : Qc)
| JStr (s : string)
| JArr (items : list Json)
| JObj (props : list (string * Json)).

(** Values.  Objects carry the reference that [===] compares.  Properties of
  a dictionary are listed in enumeration order.  [VDict] and [VInstance]
  are the objects whose [toString] tag is [[object Object]]: a [VDict]
  inherits the constructor [Object] (an object literal, an object made by
  [JSON.parse]), a [VInstance] does not (an instance of a user class, an
  object without a prototype).  [VExotic] is any other non-plain object
  (a [Date], a [Map], ...), characterised by what [JSON.stringify] makes
  of it.  [VFunction] is a function of the program, never the built-in
  [Object]. *)
Inductive Value : Type :=
| VUndefined
| VNull
| VBool (b : bool)
| VNum (n : JsNum)
| VString (s : string)
| VArray (ref : nat) (items : list Value)
| VDict (ref : nat) (props : list (string * Value))
| VInstance (ref : nat) (props : list (string * Value))
| VExotic (ref : nat) (json : option Json)
| VFunction (ref : nat).

Inductive JsType : Type :=
| TUndefined | TObject | TBoolean | TNumber | TString | TFunction.

Definition typeof (v : Value) : JsType :=
match v with
| VUndefined => TUndefined
| VBool _ => TBoolean
| VNum _ => TNumber
| VString _ => TString
| VFunction _ => TFunction
| VNull | VArray _ _ | VDict _ _ | VInstance _ _ | VExotic _ _ => TObject
end.

Definition is_string (v : Value) : bool :=
match v with VString _ => true | _ => false end.

Definition is_number (v : Value) : bool :=
match v with VNum _ => true | _ => false end.

Definition is_boolean (v : Value) : bool :=
match v with VBool _ => true | _ => false end.

Definition is_undefined (v : Value) : bool :=
match v with VUndefined => true | _ => false end.

(** [a === b] on numbers: [NaN] is equal to nothing. *)
Definition num_eqb (a b : JsNum) : bool :=
match a, b with
| PosInf, PosInf => true
| NegInf, NegInf => true
| Fin p, Fin q => bool_decide (p = q)
| _, _ => false
end.

(** [a === b]. *)
Definition strict_eq (a b : Value) : bool :=
match a, b with
| VUndefined, VUndefined => true
| VNull, VNull => true
| VBool x, VBool y => eqb x y
| VNum x, VNum y => num_eqb x y
| VString x, VString y => bool_decide (x = y)
| VArray r _, VArray r' _ => Nat.eqb r r'
| VDict r _, VDict r' _ => Nat.eqb r r'
| VInstance r _, VInstance r' _ => Nat.eqb r r'
| VExotic r _, VExotic r' _ => Nat.eqb r r'
| VFunction r, VFunction r' => Nat.eqb r r'
| _, _ => false
end.

(** Truthiness, as used by [!x] and [if (x)]. *)
Definition truthy (v : Value) : bool :=
match v with
| VUndefined | VNull => false
| VBool b => b
| VNum NaN => false
| VNum (Fin q) => negb (bool_decide (q = 0%Qc))
| VNum _ => true
| VString s => negb (bool_decide (s = ""%string))
| _ => true
end.

(** [o == null]. *)
Definition is_nil (v : Value) : bool :=
match v with VUndefined | VNull => true | _ => false end.

(** utils/funcs: [isNumber(n)] is [typeof n === 'number' && !isNaN(n)]. *)
Definition isNumber (v : Value) : bool :=
match v with
| VNum NaN => false
| VNum _ => true
| _ => false
end.

(** utils/funcs: [isDict(o)], the [toString] tag is [[object Object]]. *)
Definition isDict (v : Value) : bool :=
match v with
| VDict _ _ | VInstance _ _ => true
| _ => false
end.

Definition isArray (v : Value) : bool :=
match v with VArray _ _ => true | _ => false end.

(** utils/funcs: [isValidKey]. *)
Definition isValidKey (v : Value) : bool := is_string v || is_number v.

(** [Object.keys(o)] of an object value. *)
Definition objectKeysOf (v : Value) : list string :=
match v with
| VDict _ props | VInstance _ props => props.*1
| VArray _ items => (λ _, ""%string) <$> items
| _ => []
end.

(** utils/funcs: [deepCopy].  Arrays and objects with the [Object] tag are
  rebuilt as new arrays and new plain objects; everything else is returned
  as it is.  The second component is the next unused reference.  The
  assignment [newO[k] = ...] defines the property [k] of the new object
  for every key but [__proto__]: there it sets the prototype of the new
  object instead, so that the copy has no property of that name (the
  prototype of an object is not part of a value: what is proved about
  copies is stated for values without a property of that name). *)
Fixpoint deepCopy (o : Value) (next : nat) : Value * nat :=
match o with
| VArray _ items =>
    let fix go (l : list Value) (n : nat) : list Value * nat :=
      match l with
      | [] => ([], n)
      | v :: l' =>
          let '(v', n1) := deepCopy v n in
          let '(l'', n2) := go l' n1 in
          (v' :: l'', n2)
      end in
    let '(items', n') := go items next in
    (VArray n' items', S n')
| VDict _ props | VInstance _ props =>
    let fix go (l : list (string * Value)) (n : nat)
        : list (string * Value) * nat :=
      match l with
      | [] => ([], n)
      | (k, v) :: l' =>
          let '(v', n1) := deepCopy v n in
          let '(l'', n2) := go l' n1 in
          (if bool_decide (k = "__proto__"%string) then l'' else (k, v') :: l'',
           n2)
      end in
    let '(props', n') := go props next in
    (VDict n' props', S n')
| _ => (o, next)
end.

(** [o.constructor === Object] for an object that inherits the constructor
  [Object]: it holds unless the object has a property [constructor] of its
  own, whose value is then some other value. *)
Definition constructorIsObject (props : list (string * Value)) : bool :=
  negb (existsb (λ kv, bool_decide (kv.1 = "constructor"%string)) props).

(** utils/funcs: [isSerializable]; [None] when serializable, otherwise the
  first offending value. *)
Fixpoint isSerializable (o : Value) : option Value :=
match o with
| VUndefined | VNull | VString _ | VBool _ | VNum _ => None
| VArray _ items =>
    (fix find (l : list Value) : option Value :=
       match l with
       | [] => None
       | v :: l' =>
           match isSerializable v with
           | Some bad => Some bad
           | None => find l'
           end
       end) items
| VDict _ props =>
    if constructorIsObject props then
      (fix find (l : list (string * Value)) : option Value :=
         match l with
         | [] => None
         | (_, v) :: l' =>
             match isSerializable v with
             | Some bad => Some bad
             | None => find l'
             end
         end) props
    else Some o
| VInstance _ _ | VExotic _ _ | VFunction _ => Some o
end.

(** [JSON.stringify(v)]: [None] stands for the result [undefined].
  Non-finite numbers become [null]; inside an array [undefined] and
  functions become [null]; inside an object such properties are left
  out. *)
Fixpoint stringify (v : Value) : option Json :=
match v with
| VUndefined | VFunction _ => None
| VNull => Some JNull
| VBool b => Some (JBool b)
| VNum (Fin q) => Some (JNum q)
| VNum _ => Some JNull
| VString s => Some (JStr s)
| VArray _ items =>
    Some (JArr ((fix go (l : list Value) : list Json :=
                   match l with
                   | [] => []
                   | x :: l' => default JNull (stringify x) :: go l'
                   end) items))
| VDict _ props | VInstance _ props =>
    Some (JObj ((fix go (l : list (string * Value)) : list (string * Json) :=
                   match l with
                   | [] => []
                   | (k, x) :: l' =>
                       match stringify x with
                       | Some j => (k, j) :: go l'
                       | None => go l'
                       end
                   end) props))
| VExotic _ json => json
end.

(** [JSON.parse] of a document: every array and object is a new one. *)
Fixpoint parse (j : Json) (next : nat) : Value * nat :=
match j with
| JNull => (VNull, next)
| JBool b => (VBool b, next)
| JNum q => (VNum (Fin q), next)
| JStr s => (VString s, next)
| JArr items =>
    let fix go (l : list Json) (n : nat) : list Value * nat :=
      match l with
      | [] => ([], n)
      | x :: l' =>
          let '(v, n1) := parse x n in
          let '(vs, n2) := go l' n1 in
          (v :: vs, n2)
      end in
    let '(vs, n') := go items next in
    (VArray n' vs, S n')
| JObj props =>
    let fix go (l : list (string * Json)) (n : nat)
        : list (string * Value) * nat :=
      match l with
      | [] => ([], n)
      | (k, x) :: l' =>
          let '(v, n1) := parse x n in
          let '(vs, n2) := go l' n1 in
          ((k, v) :: vs, n2)
      end in
    let '(vs, n') := go props next in
    (VDict n' vs, S n')
end.

(** [o.value] for an own property lookup on a parsed document. *)
Definition getProp (k : string) (o : Value) : Value :=
match o with
| VDict _ props | VInstance _ props =>
    default VUndefined
      ((λ r, r.2.2) <$> list_find (λ kv, bool_decide (kv.1 = k)) props)
| _ => VUndefined
end.

End Js.
Export Js.

(** ** Effects: state, exceptions and bounded re-entrancy *)

(** The [TypeError]s thrown by the library, named after their message. *)
Inductive JsError : Type :=
| InvalidId
| DuplicateId
| IdRequiredForPersistence
| NonSerializableValue (bad : Value)
| ExpectedNonPrimitiveUnit
| ExpectedAtLeastOneKey
| ExpectedNumbersAndStrings (key : Value).

(** The outcome of running a piece of code: it returns, it throws, or the
    budget of nested subscriber calls is used up. *)
Inductive Outcome (S A : Type) : Type :=
| Done (a : A) (s : S)
| Thrown (e : JsError) (s : S)
| OutOfFuel.
Arguments Done {S A} a s.
Arguments Thrown {S A} e s.
Arguments OutOfFuel {S A}.

Definition M (S A : Type) : Type := S → Outcome S A.

Definition ret {S A} (a : A) : M S A := λ s, Done a s.

Definition bind {S A B} (m : M S A) (f : A → M S B) : M S B :=
  λ s, match m s with
       | Done a s' => f a s'
       | Thrown e s' => Thrown e s'
       | OutOfFuel => OutOfFuel
       end.

Definition throw {S A} (e : JsError) : M S A := λ s, Thrown e s.
Definition gets {S A} (f : S → A) : M S A := λ s, Done (f s) s.
Definition modify {S} (f : S → S) : M S unit := λ s, Done tt (f s).
Definition when {S} (b : bool) (m : M S unit) : M S unit :=
  if b then m else ret tt.

Notation "'let*' x ':=' m 'in' k" := (bind m (λ x, k))
  (at level 10, x name, m at level 100, k at level 200).
Notation "m ';;' k" := (bind m (λ _, k))
  (at level 100, k at level 200, right associativity).

(** ** The global configuration and the storages *)

Module Env.
Record t : Type := {
checkUniqueId : option bool;
checkImmutability : option bool;
checkSerializability : option bool;
}.
End Env.
Abbreviation EnvironmentConfig := Env.t.

(** What a [Storage] holds under a key: the text of a JSON document, or a
    text that [JSON.parse] refuses. *)
Inductive StorageItem : Type :=
| JsonText (doc : Json)
| RawText (text : string).

(** Everything outside the Units: the allocator of object references, the
    static fields of [Configuration], the registry of unique ids, and the
    content of every [Storage] object. *)
Record World : Type := {
  next_ref : nat;
  _isDevMode : bool;
  _ENVIRONMENT : EnvironmentConfig;
  UniqueIdsAndLocationIdMap : gmap string string;
  Configuration_storage : nat;
  storages : gmap nat (gmap string StorageItem);
}.

Definition with_next_ref (n : nat) (w : World) : World :=
  {| next_ref := n; _isDevMode := _isDevMode w; _ENVIRONMENT := _ENVIRONMENT w;
     UniqueIdsAndLocationIdMap := UniqueIdsAndLocationIdMap w;
     Configuration_storage := Configuration_storage w; storages := storages w |}.

Definition with_UniqueIds (m : gmap string string) (w : World) : World :=
  {| next_ref := next_ref w; _isDevMode := _isDevMode w;
     _ENVIRONMENT := _ENVIRONMENT w; UniqueIdsAndLocationIdMap := m;
     Configuration_storage := Configuration_storage w; storages := storages w |}.

Definition with_storages (st : gmap nat (gmap string StorageItem)) (w : World)
    : World :=
  {| next_ref := next_ref w; _isDevMode := _isDevMode w;
     _ENVIRONMENT := _ENVIRONMENT w;
     UniqueIdsAndLocationIdMap := UniqueIdsAndLocationIdMap w;
     Configuration_storage := Configuration_storage w; storages := st |}.

(** [Configuration.ENVIRONMENT]: empty outside dev mode. *)
Definition ENVIRONMENT (w : World) : EnvironmentConfig :=
  if _isDevMode w then _ENVIRONMENT w
  else {| Env.checkUniqueId := None; Env.checkImmutability := None;
          Env.checkSerializability := None |}.

(** persistence: [KeyPrefix]. *)
Definition KeyPrefix : string := "_AJS_UNIT_"%string.

Definition storageContent (st : nat) (w : World) : gmap string StorageItem :=
  default ∅ (storages w !! st).

Definition getItem (st : nat) (k : string) (w : World) : option StorageItem :=
  storageContent st w !! k.

Definition setItem (st : nat) (k : string) (x : StorageItem) (w : World) : World :=
  with_storages (<[st := <[k := x]> (storageContent st w)]> (storages w)) w.

Definition removeItem (st : nat) (k : string) (w : World) : World :=
  with_storages (<[st := delete k (storageContent st w)]> (storages w)) w.

(** ** Units *)

Inductive Flavor : Type :=
| BoolUnit | NumUnit | StringUnit | ListUnit | DictUnit | GenericUnit.

Record DispatchOptions : Type := {
  bypassDebounce : option bool;
  force : option bool;
  cacheReplace : option bool;
}.

Record ClearCacheOptions : Type := {
  leaveFirst : option bool;
  leaveLast : option bool;
}.

Inductive DispatchFailReason : Type :=
| FROZEN_UNIT
| INVALID_VALUE
| CUSTOM_DISPATCH_CHECK
| DISTINCT_CHECK.

Inductive UnitEvent : Type :=
| EventUnitDispatch (value : Value) (options : option DispatchOptions)
| EventUnitDispatchFail (value : Value) (reason : DispatchFailReason)
    (options : option DispatchOptions)
| EventUnitJump (steps : Z) (newCacheIndex : nat)
| EventUnitClearCache (options : option ClearCacheOptions)
| EventUnitClearValue
| EventUnitClear (options : option ClearCacheOptions)
| EventUnitResetValue
| EventUnitReset (options : option ClearCacheOptions)
| EventUnitFreeze
| EventUnitUnfreeze
| EventUnitUnmute
| EventUnitClearPersistedValue.

(** The options of a Unit, after the global and the per-flavour defaults
    have been merged into those given at instantiation.  [None] is an
    option left [undefined].  The debounce options are not part of the
    embedding: a debounced [dispatch] runs [dispatchActual] from a timer. *)
Module Cfg.
Record t : Type := {
id : option string;
replay : option bool;
cacheSize : option JsNum;
initialValue : Value;
immutable : option bool;
persistent : option bool;
storage : option nat;
distinctDispatchCheck : option bool;
customDispatchCheck : option (Value → Value → Value);
}.
End Cfg.

(** The fields of a [UnitBase] (and of [Base]).  [eventsSubject] is [None]
    until [events$] is first read; afterwards it lists the events passed to
    its [next], latest first. *)
Record Unit : Type := {
  flavor : Flavor;
  config : Cfg.t;
  cacheSize : JsNum;
  _isFrozen : bool;
  _isMuted : bool;
  emitOnUnmute : bool;
  _cachedValues : list Value;
  _cacheIndex : nat;
  _initialValue : Value;
  _value : Value;
  _emitCount : nat;
  emittedValue : Value;
  eventsSubject : option (list UnitEvent);
}.

Definition with_isFrozen (b : bool) (u : Unit) : Unit :=
  {| flavor := flavor u; config := config u; cacheSize := cacheSize u;
     _isFrozen := b; _isMuted := _isMuted u; emitOnUnmute := emitOnUnmute u;
     _cachedValues := _cachedValues u; _cacheIndex := _cacheIndex u;
     _initialValue := _initialValue u; _value := _value u;
     _emitCount := _emitCount u; emittedValue := emittedValue u;
     eventsSubject := eventsSubject u |}.

Definition with_isMuted (b : bool) (u : Unit) : Unit :=
  {| flavor := flavor u; config := config u; cacheSize := cacheSize u;
     _isFrozen := _isFrozen u; _isMuted := b; emitOnUnmute := emitOnUnmute u;
     _cachedValues := _cachedValues u; _cacheIndex := _cacheIndex u;
     _initialValue := _initialValue u; _value := _value u;
     _emitCount := _emitCount u; emittedValue := emittedValue u;
     eventsSubject := eventsSubject u |}.

Definition with_emitOnUnmute (b : bool) (u : Unit) : Unit :=
  {| flavor := flavor u; config := config u; cacheSize := cacheSize u;
     _isFrozen := _isFrozen u; _isMuted := _isMuted u; emitOnUnmute := b;
     _cachedValues := _cachedValues u; _cacheIndex := _cacheIndex u;
     _initialValue := _initialValue u; _value := _value u;
     _emitCount := _emitCount u; emittedValue := emittedValue u;
     eventsSubject := eventsSubject u |}.

Definition with_cache (l : list Value) (i : nat) (u : Unit) : Unit :=
  {| flavor := flavor u; config := config u; cacheSize := cacheSize u;
     _isFrozen := _isFrozen u; _isMuted := _isMuted u;
     emitOnUnmute := emitOnUnmute u;
     _cachedValues := l; _cacheIndex := i;
     _initialValue := _initialValue u; _value := _value u;
     _emitCount := _emitCount u; emittedValue := emittedValue u;
     eventsSubject := eventsSubject u |}.

Definition with_initialValue (v : Value) (u : Unit) : Unit :=
  {| flavor := flavor u; config := config u; cacheSize := cacheSize u;
     _isFrozen := _isFrozen u; _isMuted := _isMuted u;
     emitOnUnmute := emitOnUnmute u;
     _cachedValues := _cachedValues u; _cacheIndex := _cacheIndex u;
     _initialValue := v; _value := _value u;
     _emitCount := _emitCount u; emittedValue := emittedValue u;
     eventsSubject := eventsSubject u |}.

Definition with_value (v : Value) (u : Unit) : Unit :=
  {| flavor := flavor u; config := config u; cacheSize := cacheSize u;
     _isFrozen := _isFrozen u; _isMuted := _isMuted u;
     emitOnUnmute := emitOnUnmute u;
     _cachedValues := _cachedValues u; _cacheIndex := _cacheIndex u;
     _initialValue := _initialValue u; _value := v;
     _emitCount := _emitCount u; emittedValue := emittedValue u;
     eventsSubject := eventsSubject u |}.

Definition with_emitted (n : nat) (v : Value) (u : Unit) : Unit :=
  {| flavor := flavor u; config := config u; cacheSize := cacheSize u;
     _isFrozen := _isFrozen u; _isMuted := _isMuted u;
     emitOnUnmute := emitOnUnmute u;
     _cachedValues := _cachedValues u; _cacheIndex := _cacheIndex u;
     _initialValue := _initialValue u; _value := _value u;
     _emitCount := n; emittedValue := v;
     eventsSubject := eventsSubject u |}.

Definition with_eventsSubject (e : option (list UnitEvent)) (u : Unit) : Unit :=
  {| flavor := flavor u; config := config u; cacheSize := cacheSize u;
     _isFrozen := _isFrozen u; _isMuted := _isMuted u;
     emitOnUnmute := emitOnUnmute u;
     _cachedValues := _cachedValues u; _cacheIndex := _cacheIndex u;
     _initialValue := _initialValue u; _value := _value u;
     _emitCount := _emitCount u; emittedValue := emittedValue u;
     eventsSubject := e |}.

(** [x === true] for an optional flag. *)
Definition is_true (o : option bool) : bool :=
  match o with Some true => true | _ => false end.

(** [x === false] for an optional flag. *)
Definition is_false (o : option bool) : bool :=
  match o with Some false => true | _ => false end.

(** [isValidValue], per flavour. *)
Definition isValidValue (f : Flavor) (v : Value) : bool :=
  match f with
  | BoolUnit => is_boolean v
  | NumUnit => isNumber v
  | StringUnit => is_string v
  | ListUnit => isArray v
  | DictUnit => isDict v
  | GenericUnit => true
  end.

(** [unit instanceof NonPrimitiveUnitBase]. *)
Definition isNonPrimitiveUnit (f : Flavor) : bool :=
  match f with
  | ListUnit | DictUnit | GenericUnit => true
  | BoolUnit | NumUnit | StringUnit => false
  end.

(** [n > c] for a count [n] and a number [c]. *)
Definition count_gt (n : nat) (c : JsNum) : bool :=
  match c with
  | NaN | PosInf => false
  | NegInf => true
  | Fin q => negb (Qle_bool (Qc_of_Z (Z.of_nat n)) q)
  end.

(** [Math.max(1, c)]. *)
Definition max1 (c : JsNum) : JsNum :=
  match c with
  | NaN => NaN
  | PosInf => PosInf
  | NegInf => Fin 1
  | Fin q => if Qle_bool 1%Qc q then Fin q else Fin 1
  end.

(** [arr[i] = v]: writing past the end extends the array. *)
Definition array_set (i : nat) (v : Value) (l : list Value) : list Value :=
  if decide (i < List.length l) then <[i := v]> l
  else l ++ replicate (i - List.length l) VUndefined ++ [v].

(** [arr[i]]. *)
Definition array_get (i : nat) (l : list Value) : Value :=
  default VUndefined (l !! i).

(** [arr.splice(start, deleteCount)]. *)
Definition splice (start deleteCount : nat) (l : list Value) : list Value :=
  take start l ++ drop (start + deleteCount) l.

(** The argument of [dispatch]: a value, or a function that produces the
    value from the current one ([Direct] stands for an argument that is not
    a function). *)
Inductive Proposal : Type :=
| Direct (value : Value)
| Producer (valueProducer : Value → Value).

(** ** UnitBase

    The methods of [Base] and [UnitBase], for a Unit that lives in a state
    [S] (read with [getU], written with [setU]) next to the [World], and
    whose [future$] observers are run by [subscriber]. *)

Record Host (S : Type) : Type := {
  host_getU : S → Unit;
  host_setU : Unit → S → S;
  host_getW : S → World;
  host_setW : World → S → S;
  host_subscriber : Value → M S unit;
}.
Arguments host_getU {S} _ _.
Arguments host_setU {S} _ _ _.
Arguments host_getW {S} _ _.
Arguments host_setW {S} _ _ _.
Arguments host_subscriber {S} _ _ _.

(** checks/common: [checkSerializability]. *)
Definition checkSerializability {S} (o : Value) : M S unit :=
  match isSerializable o with
  | Some bad => throw (NonSerializableValue bad)
  | None => ret tt
  end.

(** persistence: the key under which [save], [retrieve] and [remove] work;
    the key of a Unit without an id reads [undefined]. *)
Definition keyOf (id : option string) : string :=
  (KeyPrefix +:+ default "undefined" id)%string.

(** The [storage] parameter, [Configuration.storage] by default. *)
Definition storageOf (st : option nat) (w : World) : nat :=
  default (Configuration_storage w) st.

Section UnitBase.
Context {S : Type}.
Variable h : Host S.
Local Abbreviation getU := (host_getU h).
Local Abbreviation setU := (host_setU h).
Local Abbreviation getW := (host_getW h).
Local Abbreviation setW := (host_setW h).
Local Abbreviation subscriber := (host_subscriber h).

Definition this : M S Unit := gets getU.

Definition update (f : Unit → Unit) : M S unit :=
  modify (λ s, setU (f (getU s)) s).

(** A new object reference. *)
Definition alloc : M S nat :=
  λ s, Done (next_ref (getW s))
            (setW (with_next_ref (Datatypes.S (next_ref (getW s))) (getW s)) s).

Definition deepCopyM (o : Value) : M S Value :=
  λ s, let '(v, n) := deepCopy o (next_ref (getW s)) in
       Done v (setW (with_next_ref n (getW s)) s).

(** [eventsSubject.next(e)] behind [this.eventsSubject && !this.isMuted]. *)
Definition fire (e : UnitEvent) : M S unit :=
  let* u := this in
  match eventsSubject u with
  | Some log =>
      if _isMuted u then ret tt
      else update (with_eventsSubject (Some (e :: log)))
  | None => ret tt
  end.

(** The getter of [events$], which creates [eventsSubject] on first use. *)
Definition events : M S unit :=
  let* u := this in
  match eventsSubject u with
  | Some _ => ret tt
  | None => update (with_eventsSubject (Some []))
  end.

Definition defaultValue : M S Value :=
  let* u := this in
  match flavor u with
  | BoolUnit => ret (VBool false)
  | NumUnit => ret (VNum (Fin 0))
  | StringUnit => ret (VString ""%string)
  | ListUnit => let* r := alloc in ret (VArray r [])
  | DictUnit => let* r := alloc in ret (VDict r [])
  | GenericUnit => ret VUndefined
  end.

Definition applyFallbackValue (v : Value) : M S Value :=
  if is_undefined v then defaultValue else ret v.

Definition rawValue : M S Value :=
  let* u := this in applyFallbackValue (_value u).

Definition initialValueRaw : M S Value :=
  let* u := this in applyFallbackValue (_initialValue u).

Definition deepCopyMaybe (o : Value) : M S Value :=
  let* u := this in
  if is_true (Cfg.immutable (config u)) then deepCopyM o else ret o.

(** [value()]: the primitive flavours return [rawValue()] itself. *)
Definition value : M S Value :=
  let* u := this in
  match flavor u with
  | BoolUnit | NumUnit | StringUnit => rawValue
  | ListUnit | DictUnit | GenericUnit =>
      let* v := rawValue in deepCopyMaybe v
  end.

(** [isEmpty]: the list and dictionary flavours look at the length. *)
Definition isEmpty : M S bool :=
  let* u := this in
  match flavor u with
  | ListUnit =>
      let* v := rawValue in
      ret (match v with VArray _ l => bool_decide (List.length l = 0) | _ => false end)
  | DictUnit =>
      let* v := rawValue in
      if is_nil v then ret true
      else let* v' := rawValue in
           ret (bool_decide (List.length (objectKeysOf v') = 0))
  | BoolUnit | NumUnit | StringUnit | GenericUnit =>
      let* v := rawValue in
      let* d := defaultValue in
      ret (strict_eq v d)
  end.

(** [Base.emit(value = this.value())]. *)
Definition emit (arg : option Value) : M S unit :=
  let* v := match arg with Some v => ret v | None => value end in
  update (λ u, with_emitted (Datatypes.S (_emitCount u)) v u);;
  subscriber v.

Definition checkSerializabilityMaybe (o : Value) : M S unit :=
  let* w := gets getW in
  if is_true (Env.checkSerializability (ENVIRONMENT w))
  then checkSerializability o else ret tt.

(** persistence: [save], [retrieve] and [remove]. *)
Definition save (key : option string) (v : Value) (st : option nat) : M S unit :=
  let jsonString :=
    match stringify v with
    | Some j => JObj [("value"%string, j)]
    | None => JObj []
    end in
  modify (λ s, setW (setItem (storageOf st (getW s)) (keyOf key)
                       (JsonText jsonString) (getW s)) s).

Definition retrieve (key : option string) (st : option nat) : M S Value :=
  let* w := gets getW in
  match getItem (storageOf st w) (keyOf key) w with
  | None => ret VNull
  | Some (RawText _) => ret VNull
  | Some (JsonText doc) =>
      λ s, let '(v, n) := parse doc (next_ref (getW s)) in
           Done v (setW (with_next_ref n (getW s)) s)
  end.

Definition remove (key : option string) (st : option nat) : M S unit :=
  modify (λ s, setW (removeItem (storageOf st (getW s)) (keyOf key) (getW s)) s).

Definition updateValueInPersistentStorage : M S unit :=
  let* u := this in
  if is_true (Cfg.persistent (config u)) then
    let* v := rawValue in
    save (Cfg.id (config u)) v (Cfg.storage (config u))
  else ret tt.

Definition updateCache (v : Value) (cacheReplace : option bool) : M S unit :=
  update (λ u,
    let cached := _cachedValues u in
    let idx := _cacheIndex u in
    if is_true cacheReplace then
      with_cache (array_set idx v cached) idx u
    else if bool_decide (List.length cached = 0)
            || bool_decide (idx = List.length cached - 1) then
      let pushed := cached ++ [v] in
      let kept := if count_gt (List.length pushed) (cacheSize u)
                  then drop 1 pushed else pushed in
      with_cache kept (List.length kept - 1) u
    else
      with_cache (take (idx + 1) cached ++ [v]) (Datatypes.S idx) u).

(** [updateValueAndCache]; the deep freeze under [checkImmutability]
    changes no value. *)
Definition updateValueAndCache (v : Value) (options : option DispatchOptions)
    (skipCache : bool) : M S unit :=
  let cacheReplace := options ≫= cacheReplace in
  when (negb skipCache) (updateCache v cacheReplace);;
  update (with_value v);;
  let* u := this in
  (if _isMuted u then update (with_emitOnUnmute true)
   else update (with_emitOnUnmute false);; emit None);;
  updateValueInPersistentStorage.

Definition distinctCheck (v : Value) : M S bool :=
  let* u := this in
  if negb (is_true (Cfg.distinctDispatchCheck (config u))) then ret true
  else let* cur := rawValue in ret (negb (strict_eq v cur)).

(** [UnitBase.wouldDispatch]. *)
Definition UnitBase_wouldDispatch (v : Value) (force : option bool) : M S bool :=
  let* u := this in
  if _isFrozen u then ret false
  else if is_true force then ret true
  else
    match Cfg.customDispatchCheck (config u) with
    | Some check =>
        let* cur := rawValue in
        if negb (truthy (check cur v)) then ret false else distinctCheck v
    | None => distinctCheck v
    end.

(** [wouldDispatch], as overridden by every flavour but the generic one:
    [this.isValidValue(value) && super.wouldDispatch(value, force)]. *)
Definition wouldDispatch (v : Value) (force : option bool) : M S bool :=
  let* u := this in
  match flavor u with
  | GenericUnit => UnitBase_wouldDispatch v force
  | f => if isValidValue f v then UnitBase_wouldDispatch v force else ret false
  end.

Definition failReason (v : Value) : M S DispatchFailReason :=
  let* u := this in
  if _isFrozen u then ret FROZEN_UNIT
  else if isValidValue (flavor u) v then
    let* distinct := distinctCheck v in
    ret (if distinct then CUSTOM_DISPATCH_CHECK else DISTINCT_CHECK)
  else ret INVALID_VALUE.

(** The value proposed by the argument of [dispatch]:
    [typeof valueOrProducer === 'function' ? valueOrProducer(this.value())
     : valueOrProducer]. *)
Definition resolve (valueOrProducer : Proposal) : M S Value :=
  match valueOrProducer with
  | Producer f => let* cur := value in ret (f cur)
  | Direct v => ret v
  end.

Definition dispatchActual (valueOrProducer : Proposal)
    (options : option DispatchOptions) : M S bool :=
  let force := options ≫= force in
  let* v := resolve valueOrProducer in
  checkSerializabilityMaybe v;;
  let* ok := wouldDispatch v force in
  if ok then
    let* copy := deepCopyMaybe v in
    updateValueAndCache copy options false;;
    fire (EventUnitDispatch v options);;
    ret true
  else
    let* u := this in
    match eventsSubject u with
    | Some _ =>
        if _isMuted u then ret false
        else let* reason := failReason v in
             fire (EventUnitDispatchFail v reason options);;
             ret false
    | None => ret false
    end.

(** [dispatch] with [bypassDebounce], or of a Unit without debounce. *)
Definition dispatch (valueOrProducer : Proposal)
    (options : option DispatchOptions) : M S bool :=
  dispatchActual valueOrProducer options.

(** [jump(steps)] for a whole number of steps, on a Unit whose index is a
    whole number.  The source takes every number but [NaN]; a step that is
    not whole leaves an index that is not whole and is computed in floating
    point, which the embedding does not cover. *)
Definition jump (steps : Z) : M S bool :=
  let* u := this in
  if _isFrozen u then ret false
  else
    let newIndex := (Z.of_nat (_cacheIndex u) + steps)%Z in
    if bool_decide (newIndex < 0)%Z
       || bool_decide (newIndex = Z.of_nat (_cacheIndex u))
       || bool_decide (newIndex > Z.of_nat (List.length (_cachedValues u)) - 1)%Z
    then ret false
    else
      update (with_cache (_cachedValues u) (Z.to_nat newIndex));;
      updateValueAndCache (array_get (Z.to_nat newIndex) (_cachedValues u))
        None true;;
      fire (EventUnitJump steps (Z.to_nat newIndex));;
      ret true.

Definition goBack : M S bool := jump (-1).
Definition goForward : M S bool := jump 1.

Definition jumpToStart : M S bool :=
  let* u := this in jump (- Z.of_nat (_cacheIndex u)).

Definition jumpToEnd : M S bool :=
  let* u := this in
  jump (Z.of_nat (List.length (_cachedValues u)) - 1 - Z.of_nat (_cacheIndex u)).

Definition clearCache (options : option ClearCacheOptions) : M S bool :=
  let leaveFirst := is_true (options ≫= leaveFirst) in
  let leaveLast := is_true (options ≫= leaveLast) in
  let* u := this in
  let count := List.length (_cachedValues u) in
  if _isFrozen u
     || bool_decide (count = 0)
     || (bool_decide (count = 1) && (leaveFirst || leaveLast))
     || (bool_decide (count = 2) && leaveFirst && leaveLast)
  then ret false
  else
    let start := if leaveFirst then 1 else 0 in
    let deleteCount := count - start - (if leaveLast then 1 else 0) in
    let cached := splice start deleteCount (_cachedValues u) in
    update (with_cache cached (List.length cached - 1));;
    fire (EventUnitClearCache options);;
    ret true.

Definition clearValue : M S bool :=
  let* u := this in
  if _isFrozen u then ret false
  else if bool_decide (_emitCount u = 0) then ret false
  else
    let* empty := isEmpty in
    if empty then ret false
    else
      let* d := defaultValue in
      updateValueAndCache d None false;;
      fire EventUnitClearValue;;
      ret true.

Definition resetValue : M S bool :=
  let* u := this in
  if _isFrozen u then ret false
  else
    let* cur := rawValue in
    let* init := initialValueRaw in
    if strict_eq cur init then ret false
    else
      let* init' := initialValueRaw in
      updateValueAndCache init' None false;;
      fire EventUnitResetValue;;
      ret true.

Definition freeze : M S unit :=
  let* u := this in
  if _isFrozen u then ret tt
  else update (with_isFrozen true);; fire EventUnitFreeze.

Definition unfreeze : M S unit :=
  let* u := this in
  if negb (_isFrozen u) then ret tt
  else update (with_isFrozen false);; fire EventUnitUnfreeze.

Definition mute : M S unit := update (with_isMuted true).

Definition unmute : M S unit :=
  let* u := this in
  if negb (_isMuted u) then ret tt
  else
    update (with_isMuted false);;
    when (emitOnUnmute u) (emit None;; update (with_emitOnUnmute false));;
    let* u' := this in
    match eventsSubject u' with
    | Some log => update (with_eventsSubject (Some (EventUnitUnmute :: log)))
    | None => ret tt
    end.

Definition clear (options : option ClearCacheOptions) : M S unit :=
  unfreeze;;
  let* _ := clearValue in
  let* _ := clearCache options in
  fire (EventUnitClear options).

Definition reset (options : option ClearCacheOptions) : M S unit :=
  let options :=
    match options with
    | Some o => o
    | None => {| leaveFirst := None; leaveLast := Some true |}
    end in
  unfreeze;;
  let* _ := resetValue in
  let* _ := clearCache (Some options) in
  fire (EventUnitReset (Some options)).

Definition shouldDispatchInitialValue (initialValue : Value) : M S bool :=
  let* u := this in
  ret (negb (is_undefined initialValue) && isValidValue (flavor u) initialValue).

Definition dispatchInitialValue (initialValue : Value) : M S unit :=
  let* should := shouldDispatchInitialValue initialValue in
  if should then
    update (with_initialValue initialValue);;
    let* v := initialValueRaw in
    updateValueAndCache v None false
  else
    let* d := defaultValue in
    updateValueAndCache d None false.

Definition restoreValueFromPersistentStorage (initialValue : Value) : M S unit :=
  let* u := this in
  let* savedState := retrieve (Cfg.id (config u)) (Cfg.storage (config u)) in
  if truthy savedState then
    dispatchInitialValue (getProp "value"%string savedState)
  else
    checkSerializabilityMaybe initialValue;;
    let* copy := deepCopyMaybe initialValue in
    dispatchInitialValue copy.

End UnitBase.

(** ** Construction *)

(** utils/funcs: [isValidId] of a string, [!!id.trim().length].  Characters
    are bytes; the white space trimmed is the ASCII one. *)
Definition isWhiteSpace (c : Ascii.ascii) : bool :=
  let n := Ascii.nat_of_ascii c in
  bool_decide (9 ≤ n ≤ 13) || bool_decide (n = 32).

Definition isValidId (id : string) : bool :=
  negb (forallb isWhiteSpace (String.list_ascii_of_string id)).

(** The field initialisers of [Base] and [UnitBase], with [cacheSize] as the
    constructor computes it: [isNumber(cacheSize) ? Math.max(1, cacheSize) : 2]. *)
Definition blank (f : Flavor) (cfg : Cfg.t) : Unit :=
  {| flavor := f; config := cfg;
     cacheSize := match Cfg.cacheSize cfg with
                  | Some c => if isNumber (VNum c) then max1 c else Fin 2
                  | None => Fin 2
                  end;
     _isFrozen := false; _isMuted := false; emitOnUnmute := false;
     _cachedValues := []; _cacheIndex := 0;
     _initialValue := VUndefined; _value := VUndefined;
     _emitCount := 0; emittedValue := VUndefined;
     eventsSubject := None |}.

Section Constructors.
Context {S : Type}.
Variable h : Host S.

(** The constructor of [Base]; [locationId] is the result of
    [getLocationId(this)], a digest of the call site. *)
Definition Base_constructor (cfg : Cfg.t) (locationId : string) : M S unit :=
  match Cfg.id cfg with
  | Some id =>
      if negb (isValidId id) then throw InvalidId
      else
        let* w := gets (host_getW h) in
        if is_true (Env.checkUniqueId (ENVIRONMENT w)) then
          match UniqueIdsAndLocationIdMap w !! id with
          | Some known =>
              if negb (bool_decide (known = locationId)) then throw DuplicateId
              else modify (λ s, host_setW h (with_UniqueIds
                     (<[id := locationId]> (UniqueIdsAndLocationIdMap w)) w) s)
          | None =>
              modify (λ s, host_setW h (with_UniqueIds
                     (<[id := locationId]> (UniqueIdsAndLocationIdMap w)) w) s)
          end
        else ret tt
  | None =>
      if is_true (Cfg.persistent cfg) then throw IdRequiredForPersistence
      else ret tt
  end.

(** The constructor of [UnitBase], run on the [blank] Unit. *)
Definition UnitBase_constructor (cfg : Cfg.t) (locationId : string) : M S unit :=
  Base_constructor cfg locationId;;
  if is_true (Cfg.persistent cfg) then
    restoreValueFromPersistentStorage h (Cfg.initialValue cfg)
  else
    checkSerializabilityMaybe h (Cfg.initialValue cfg);;
    let* copy := deepCopyMaybe h (Cfg.initialValue cfg) in
    dispatchInitialValue h copy.
End Constructors.

(** ** A Unit on its own, without observers *)

Module Solo.
Record t : Type := { u : Unit; w : World }.

Definition host : Host t :=
  {| host_getU := u;
     host_setU := λ x s, {| u := x; w := w s |};
     host_getW := w;
     host_setW := λ x s, {| u := u s; w := x |};
     host_subscriber := λ _, ret tt |}.

(** [new XUnit(config)] in a given world. *)
Definition construct (f : Flavor) (cfg : Cfg.t) (locationId : string)
    (world : World) : Outcome t unit :=
  UnitBase_constructor host cfg locationId {| u := blank f cfg; w := world |}.
End Solo.

(** ** Selection *)

(** The predicate [checkPath] looks for:
    [typeof key !== 'string' && typeof key !== 'number']. *)
Definition isInvalidKey (key : Value) : bool :=
  negb (is_string key) && negb (is_number key).

(** checks/common: [checkPath]. *)
Definition checkPath {S} (path : list Value) : M S unit :=
  if bool_decide (List.length path = 0) then throw ExpectedAtLeastOneKey
  else
    match list_find isInvalidKey path with
    | Some (_, invalidKey) => throw (ExpectedNumbersAndStrings invalidKey)
    | None => ret tt
    end.

Record Selection : Type := {
  sel_unit : Flavor;
  sel_path : list Value;
}.

(** [new Selection(unit, path)]; of the Unit only the class matters here. *)
Definition Selection_constructor {S} (unit : Flavor) (path : list Value)
    : M S Selection :=
  if negb (isNonPrimitiveUnit unit) then throw ExpectedNonPrimitiveUnit
  else checkPath path;; ret {| sel_unit := unit; sel_path := path |}.

(** [NonPrimitiveUnitBase.select(...path)]. *)
Definition select {S} (unit : Flavor) (path : list Value) : M S Selection :=
  checkPath path;; Selection_constructor unit path.

(** ** AsyncSystemBase *)

Module AsyncCfg.
Record t : Type := {
clearErrorOnData : option bool;
clearErrorOnQuery : option bool;
clearDataOnQuery : option bool;
clearDataOnError : option bool;
clearQueryOnData : option bool;
clearQueryOnError : option bool;
autoUpdatePendingValue : option bool;
freezeQueryWhilePending : option bool;
}.
End AsyncCfg.

Inductive Role : Type := Query | Data | Error | Pending.

(** An [AsyncSystemBase] with its four member Units (four distinct objects),
    its own [Base] fields, and the world around it. *)
Record AsyncSystem : Type := {
  queryUnit : Unit;
  dataUnit : Unit;
  errorUnit : Unit;
  pendingUnit : Unit;
  sys_config : AsyncCfg.t;
  relationshipsAutoPaused : bool;
  relationshipsManuallyPaused : bool;
  unitsEmitCountsBeforePausing : list nat;
  sys_emitCount : nat;
  sys_emittedValue : Value;
  sys_world : World;
}.

Definition getMember (r : Role) (s : AsyncSystem) : Unit :=
  match r with
  | Query => queryUnit s
  | Data => dataUnit s
  | Error => errorUnit s
  | Pending => pendingUnit s
  end.

Definition setMember (r : Role) (x : Unit) (s : AsyncSystem) : AsyncSystem :=
  {| queryUnit := match r with Query => x | _ => queryUnit s end;
     dataUnit := match r with Data => x | _ => dataUnit s end;
     errorUnit := match r with Error => x | _ => errorUnit s end;
     pendingUnit := match r with Pending => x | _ => pendingUnit s end;
     sys_config := sys_config s;
     relationshipsAutoPaused := relationshipsAutoPaused s;
     relationshipsManuallyPaused := relationshipsManuallyPaused s;
     unitsEmitCountsBeforePausing := unitsEmitCountsBeforePausing s;
     sys_emitCount := sys_emitCount s;
     sys_emittedValue := sys_emittedValue s;
     sys_world := sys_world s |}.

Definition with_world (w : World) (s : AsyncSystem) : AsyncSystem :=
  {| queryUnit := queryUnit s; dataUnit := dataUnit s;
     errorUnit := errorUnit s; pendingUnit := pendingUnit s;
     sys_config := sys_config s;
     relationshipsAutoPaused := relationshipsAutoPaused s;
     relationshipsManuallyPaused := relationshipsManuallyPaused s;
     unitsEmitCountsBeforePausing := unitsEmitCountsBeforePausing s;
     sys_emitCount := sys_emitCount s;
     sys_emittedValue := sys_emittedValue s;
     sys_world := w |}.

Definition with_autoPaused (b : bool) (s : AsyncSystem) : AsyncSystem :=
  {| queryUnit := queryUnit s; dataUnit := dataUnit s;
     errorUnit := errorUnit s; pendingUnit := pendingUnit s;
     sys_config := sys_config s;
     relationshipsAutoPaused := b;
     relationshipsManuallyPaused := relationshipsManuallyPaused s;
     unitsEmitCountsBeforePausing := unitsEmitCountsBeforePausing s;
     sys_emitCount := sys_emitCount s;
     sys_emittedValue := sys_emittedValue s;
     sys_world := sys_world s |}.

Definition with_manuallyPaused (b : bool) (counts : list nat) (s : AsyncSystem)
    : AsyncSystem :=
  {| queryUnit := queryUnit s; dataUnit := dataUnit s;
     errorUnit := errorUnit s; pendingUnit := pendingUnit s;
     sys_config := sys_config s;
     relationshipsAutoPaused := relationshipsAutoPaused s;
     relationshipsManuallyPaused := b;
     unitsEmitCountsBeforePausing := counts;
     sys_emitCount := sys_emitCount s;
     sys_emittedValue := sys_emittedValue s;
     sys_world := sys_world s |}.

Definition with_sys_emitted (n : nat) (v : Value) (s : AsyncSystem) : AsyncSystem :=
  {| queryUnit := queryUnit s; dataUnit := dataUnit s;
     errorUnit := errorUnit s; pendingUnit := pendingUnit s;
     sys_config := sys_config s;
     relationshipsAutoPaused := relationshipsAutoPaused s;
     relationshipsManuallyPaused := relationshipsManuallyPaused s;
     unitsEmitCountsBeforePausing := unitsEmitCountsBeforePausing s;
     sys_emitCount := n;
     sys_emittedValue := v;
     sys_world := sys_world s |}.

Definition relationshipsWorking (s : AsyncSystem) : bool :=
  negb (relationshipsAutoPaused s) && negb (relationshipsManuallyPaused s).

Definition unitsEmitCounts (s : AsyncSystem) : list nat :=
  [_emitCount (queryUnit s); _emitCount (dataUnit s);
   _emitCount (errorUnit s); _emitCount (pendingUnit s)].

(** [combinedEmittedValues()] builds a new object. *)
Definition combinedEmittedValues : M AsyncSystem Value :=
  λ s, let w := sys_world s in
       Done (VDict (next_ref w)
               [("query"%string, emittedValue (queryUnit s));
                ("data"%string, emittedValue (dataUnit s));
                ("error"%string, emittedValue (errorUnit s));
                ("pending"%string, emittedValue (pendingUnit s))])
            (with_world (with_next_ref (S (next_ref w)) w) s).

(** [AsyncSystemBase.emit(value = this.combinedEmittedValues())]; the
    observers of the system itself are not part of the embedding. *)
Definition AsyncSystem_emit : M AsyncSystem unit :=
  let* v := combinedEmittedValues in
  modify (λ s, with_sys_emitted (S (sys_emitCount s)) v s).

Definition bypassDebounceOnly : DispatchOptions :=
  {| bypassDebounce := Some true; force := None; cacheReplace := None |}.

(** The methods of the system that act on its members.  A push inside one of
    them runs the observers of the Unit pushed to: [observers r] stands for
    the observers of the member [r]. *)
Section Relationships.
Variable observers : Role → Value → M AsyncSystem unit.

(** A member Unit with its observers. *)
Definition member_with (r : Role) : Host AsyncSystem :=
  {| host_getU := getMember r; host_setU := setMember r;
     host_getW := sys_world; host_setW := with_world;
     host_subscriber := observers r |}.

Definition autoUpdatePendingValue (isPending : bool) : M AsyncSystem unit :=
  let* s := gets id in
  if negb (is_false (AsyncCfg.autoUpdatePendingValue (sys_config s))) then
    let* _ := dispatch (member_with Pending) (Direct (VBool isPending))
                (Some bypassDebounceOnly) in ret tt
  else ret tt.

Definition clearValueOf (r : Role) : M AsyncSystem unit :=
  let* _ := clearValue (member_with r) in ret tt.

Definition executeQueryUnitRelationship : M AsyncSystem unit :=
  modify (with_autoPaused true);;
  autoUpdatePendingValue true;;
  let* s := gets id in
  when (is_true (AsyncCfg.clearDataOnQuery (sys_config s))) (clearValueOf Data);;
  when (is_true (AsyncCfg.clearErrorOnQuery (sys_config s))) (clearValueOf Error);;
  modify (with_autoPaused false);;
  AsyncSystem_emit.

Definition executeDataUnitRelationship : M AsyncSystem unit :=
  modify (with_autoPaused true);;
  autoUpdatePendingValue false;;
  let* s := gets id in
  when (negb (is_true (AsyncCfg.clearErrorOnQuery (sys_config s)))
        && negb (is_false (AsyncCfg.clearErrorOnData (sys_config s))))
       (clearValueOf Error);;
  when (is_true (AsyncCfg.clearQueryOnData (sys_config s))) (clearValueOf Query);;
  modify (with_autoPaused false);;
  AsyncSystem_emit.

Definition executeErrorUnitRelationship : M AsyncSystem unit :=
  modify (with_autoPaused true);;
  autoUpdatePendingValue false;;
  let* s := gets id in
  when (negb (is_true (AsyncCfg.clearDataOnQuery (sys_config s)))
        && is_true (AsyncCfg.clearDataOnError (sys_config s)))
       (clearValueOf Data);;
  when (is_true (AsyncCfg.clearQueryOnError (sys_config s))) (clearValueOf Query);;
  modify (with_autoPaused false);;
  AsyncSystem_emit.

Definition toggleQueryUnitFreezeMaybe (isPending : Value) : M AsyncSystem unit :=
  let* s := gets id in
  if is_true (AsyncCfg.freezeQueryWhilePending (sys_config s)) then
    if truthy isPending then freeze (member_with Query)
    else unfreeze (member_with Query)
  else ret tt.

(** The observers that [createRelationshipsAmongMemberUnits] attaches to the
    [future$] of the member [r]. *)
Definition relationship (r : Role) (pushed : Value) : M AsyncSystem unit :=
  match r with
  | Query =>
      let* s := gets id in
      when (relationshipsWorking s) executeQueryUnitRelationship
  | Data =>
      let* s := gets id in
      when (relationshipsWorking s) executeDataUnitRelationship
  | Error =>
      let* s := gets id in
      when (relationshipsWorking s) executeErrorUnitRelationship
  | Pending =>
      let* s := gets id in
      when (negb (relationshipsManuallyPaused s))
           (toggleQueryUnitFreezeMaybe pushed);;
      let* s' := gets id in
      when (relationshipsWorking s') AsyncSystem_emit
  end.
End Relationships.

(** The observers of a member: a push inside an observer runs the observers
    of the Unit pushed to, and so on; [fuel] bounds that nesting. *)
Fixpoint subscription (fuel : nat) (r : Role) (pushed : Value)
    : M AsyncSystem unit :=
  match fuel with
  | O => λ _, OutOfFuel
  | S fuel' => relationship (subscription fuel') r pushed
  end.

(** A member Unit as the caller of the system sees it. *)
Definition member (fuel : nat) (r : Role) : Host AsyncSystem :=
  member_with (subscription fuel) r.

Definition pauseRelationships : M AsyncSystem unit :=
  let* s := gets id in
  if relationshipsManuallyPaused s then ret tt
  else modify (λ s, with_manuallyPaused true (unitsEmitCounts s) s).

Definition resumeRelationships : M AsyncSystem unit :=
  let* s := gets id in
  if negb (relationshipsManuallyPaused s) then ret tt
  else
    modify (λ s, with_manuallyPaused false (unitsEmitCountsBeforePausing s) s);;
    let* s' := gets id in
    when (negb (bool_decide (unitsEmitCountsBeforePausing s' = unitsEmitCounts s')))
         AsyncSystem_emit.

(** [new AsyncSystemBase(queryUnit, dataUnit, errorUnit, pendingUnit, config)]
    from four constructed Units: the fields are initialised and the system
    emits once before the relationships are created. *)
Definition AsyncSystemBase_constructor (q d e p : Unit) (cfg : AsyncCfg.t)
    (w : World) : Outcome AsyncSystem unit :=
  AsyncSystem_emit
    {| queryUnit := q; dataUnit := d; errorUnit := e; pendingUnit := p;
       sys_config := cfg;
       relationshipsAutoPaused := false; relationshipsManuallyPaused := false;
       unitsEmitCountsBeforePausing := [];
       sys_emitCount := 0; sys_emittedValue := VUndefined;
       sys_world := w |}.

(** * Derived notions used in the statements *)

(** The laws a host of a Unit obeys: the Unit and the world are two
    independent parts of the state. *)
Class Lawful {S : Type} (h : Host S) : Prop := {
  getU_setU x s : host_getU h (host_setU h x s) = x;
  getU_setW x s : host_getU h (host_setW h x s) = host_getU h s;
  getW_setU x s : host_getW h (host_setU h x s) = host_getW h s;
  getW_setW x s : host_getW h (host_setW h x s) = x;
  setW_getW s : host_setW h (host_getW h s) s = s;
  setU_getU s : host_setU h (host_getU h s) s = s;
  setW_setW x y s : host_setW h x (host_setW h y s) = host_setW h x s;
  setU_setU x y s : host_setU h x (host_setU h y s) = host_setU h x s;
  setW_setU x y s : host_setW h x (host_setU h y s) = host_setU h y (host_setW h x s);
}.

Definition is_generic (f : Flavor) : bool :=
  match f with GenericUnit => true | _ => false end.

(** Only a generic Unit ever holds [undefined]. *)
Definition defined_for (f : Flavor) (v : Value) : bool :=
  negb (is_undefined v) || is_generic f.

(** The constructor has installed a value: [rawValue()] is [_value]. *)
Definition installed (u : Unit) : bool := defined_for (flavor u) (_value u).

(** The cache and the index after [updateCache(value, cacheReplace)]. *)
Definition cacheAfter (v : Value) (cacheReplace : option bool) (u : Unit)
    : list Value * nat :=
  let cached := _cachedValues u in
  let idx := _cacheIndex u in
  if is_true cacheReplace then (array_set idx v cached, idx)
  else if bool_decide (List.length cached = 0)
          || bool_decide (idx = List.length cached - 1) then
    let pushed := cached ++ [v] in
    let kept := if count_gt (List.length pushed) (cacheSize u)
                then drop 1 pushed else pushed in
    (kept, List.length kept - 1)
  else (take (idx + 1) cached ++ [v], S idx).

(** The cache and the index once [updateValueAndCache] has stored the value. *)
Definition cacheStored (v : Value) (options : option DispatchOptions)
    (skipCache : bool) (u : Unit) : list Value * nat :=
  if skipCache then (_cachedValues u, _cacheIndex u)
  else cacheAfter v (options ≫= cacheReplace) u.

(** The Unit once [updateValueAndCache] has stored the value. *)
Definition stored (v : Value) (options : option DispatchOptions) (skipCache : bool)
    (u : Unit) : Unit :=
  with_value v
    (with_cache (cacheStored v options skipCache u).1
                (cacheStored v options skipCache u).2 u).

(** What [value()] returns, and the world after the copy it may make. *)
Definition copyOut (u : Unit) (w : World) : Value * World :=
  if isNonPrimitiveUnit (flavor u) && is_true (Cfg.immutable (config u)) then
    let '(c, n) := deepCopy (_value u) (next_ref w) in (c, with_next_ref n w)
  else (_value u, w).

(** What [deepCopyMaybe(o)] returns, and the world after it. *)
Definition copied (u : Unit) (o : Value) (w : World) : Value * World :=
  if is_true (Cfg.immutable (config u)) then
    let '(c, n) := deepCopy o (next_ref w) in (c, with_next_ref n w)
  else (o, w).

(** The world after [updateValueInPersistentStorage()]. *)
Definition persisted (u : Unit) (w : World) : World :=
  if is_true (Cfg.persistent (config u)) then
    setItem (storageOf (Cfg.storage (config u)) w) (keyOf (Cfg.id (config u)))
      (JsonText (match stringify (_value u) with
                 | Some j => JObj [("value"%string, j)]
                 | None => JObj []
                 end)) w
  else w.

(** The Unit after an event has been offered to [eventsSubject]. *)
Definition fired (e : UnitEvent) (u : Unit) : Unit :=
  with_eventsSubject
    (match eventsSubject u with
     | Some log => Some (if _isMuted u then log else e :: log)
     | None => None
     end) u.

Definition custom_ok (u : Unit) (v : Value) : bool :=
  match Cfg.customDispatchCheck (config u) with
  | Some check => truthy (check (_value u) v)
  | None => true
  end.

Definition distinct_ok (u : Unit) (v : Value) : bool :=
  negb (is_true (Cfg.distinctDispatchCheck (config u)))
  || negb (strict_eq v (_value u)).

(** The admission rule of the specification in one formula: not frozen, of
    the right type, and either forced or let through by the custom check and
    by the distinct check. *)
Definition admits (u : Unit) (v : Value) (force : option bool) : bool :=
  negb (_isFrozen u) && isValidValue (flavor u) v &&
  (is_true force || (custom_ok u v && distinct_ok u v)).

(** The reason [dispatchActual] reports for a rejected value. *)
Definition reasonOf (u : Unit) (v : Value) : DispatchFailReason :=
  if _isFrozen u then FROZEN_UNIT
  else if isValidValue (flavor u) v then
    if distinct_ok u v then CUSTOM_DISPATCH_CHECK else DISTINCT_CHECK
  else INVALID_VALUE.

(** The value proposed by the argument of [dispatch], and the world after it
    has been computed. *)
Definition proposed (p : Proposal) (u : Unit) (w : World) : Value * World :=
  match p with
  | Direct v => (v, w)
  | Producer f => (f (copyOut u w).1, (copyOut u w).2)
  end.

(** [checkSerializabilityMaybe(v)] returns. *)
Definition serializabilityChecked (w : World) (v : Value) : bool :=
  negb (is_true (Env.checkSerializability (ENVIRONMENT w)))
  || bool_decide (isSerializable v = None).

(** The rest of [dispatchActual], once the value is known and the
    serializability check has passed. *)
Definition admit_or_reject {S} (h : Host S) (v : Value)
    (options : option DispatchOptions) : M S bool :=
  let* ok := wouldDispatch h v (options ≫= force) in
  if ok then
    let* copy := deepCopyMaybe h v in
    updateValueAndCache h copy options false;;
    fire h (EventUnitDispatch v options);;
    ret true
  else
    let* u := this h in
    match eventsSubject u with
    | Some _ =>
        if _isMuted u then ret false
        else let* reason := failReason h v in
             fire h (EventUnitDispatchFail v reason options);;
             ret false
    | None => ret false
    end.

(** [defaultValue()] of a flavour, given the next unused reference. *)
Definition defaultOf (f : Flavor) (r : nat) : Value :=
  match f with
  | BoolUnit => VBool false
  | NumUnit => VNum (Fin 0)
  | StringUnit => VString ""%string
  | ListUnit => VArray r []
  | DictUnit => VDict r []
  | GenericUnit => VUndefined
  end.

Definition allocated (f : Flavor) (w : World) : World :=
  match f with
  | ListUnit | DictUnit => with_next_ref (S (next_ref w)) w
  | _ => w
  end.

(** [isEmpty] of a Unit with an installed value. *)
Definition emptyOf (u : Unit) : bool :=
  match flavor u with
  | ListUnit =>
      match _value u with
      | VArray _ l => bool_decide (List.length l = 0)
      | _ => false
      end
  | DictUnit =>
      is_nil (_value u) || bool_decide (List.length (objectKeysOf (_value u)) = 0)
  | f => strict_eq (_value u) (defaultOf f 0)
  end.

(** [initialValueRaw()], given the next unused reference. *)
Definition initialOf (u : Unit) (r : nat) : Value :=
  if is_undefined (_initialValue u) then defaultOf (flavor u) r
  else _initialValue u.

Definition initialAllocated (u : Unit) (w : World) : World :=
  if is_undefined (_initialValue u) then allocated (flavor u) w else w.

Definition jumpRefused (u : Unit) (steps : Z) : bool :=
  _isFrozen u
  || bool_decide (Z.of_nat (_cacheIndex u) + steps < 0)%Z
  || bool_decide (Z.of_nat (_cacheIndex u) + steps = Z.of_nat (_cacheIndex u))%Z
  || bool_decide (Z.of_nat (_cacheIndex u) + steps
                  > Z.of_nat (List.length (_cachedValues u)) - 1)%Z.

Definition clearCacheRefused (u : Unit) (options : option ClearCacheOptions) : bool :=
  let count := List.length (_cachedValues u) in
  _isFrozen u
  || bool_decide (count = 0)
  || (bool_decide (count = 1)
      && (is_true (options ≫= leaveFirst) || is_true (options ≫= leaveLast)))
  || (bool_decide (count = 2) && is_true (options ≫= leaveFirst)
      && is_true (options ≫= leaveLast)).

Definition cacheCleared (options : option ClearCacheOptions) (u : Unit) : Unit :=
  let count := List.length (_cachedValues u) in
  let start := if is_true (options ≫= leaveFirst) then 1 else 0 in
  let deleteCount := count - start - (if is_true (options ≫= leaveLast) then 1 else 0) in
  let cached := splice start deleteCount (_cachedValues u) in
  with_cache cached (List.length cached - 1) u.


(** ** A lone Unit after its methods have run *)

(** The state of a lone Unit after [emit()]. *)
Definition pushing (s : Solo.t) : Solo.t :=
  let c := copyOut (Solo.u s) (Solo.w s) in
  {| Solo.u := with_emitted (S (_emitCount (Solo.u s))) c.1 (Solo.u s);
     Solo.w := c.2 |}.

(** The state of a lone Unit after [updateValueAndCache]: the value is
    stored, pushed unless the Unit is muted, and persisted. *)
Definition installing (v : Value) (options : option DispatchOptions)
    (skipCache : bool) (s : Solo.t) : Solo.t :=
  let u0 := Solo.u s in
  let muted := _isMuted u0 in
  let u1 := with_emitOnUnmute muted (stored v options skipCache u0) in
  let c := copyOut u1 (Solo.w s) in
  let u2 := with_emitted (if muted then _emitCount u0 else S (_emitCount u0))
                         (if muted then emittedValue u0 else c.1) u1 in
  {| Solo.u := u2; Solo.w := persisted u2 (if muted then Solo.w s else c.2) |}.

(** The state of a lone Unit after an accepted dispatch of [v]. *)
Definition dispatched (v : Value) (options : option DispatchOptions) (s : Solo.t)
    : Solo.t :=
  let c := copied (Solo.u s) v (Solo.w s) in
  let s2 := installing c.1 options false {| Solo.u := Solo.u s; Solo.w := c.2 |} in
  {| Solo.u := fired (EventUnitDispatch v options) (Solo.u s2); Solo.w := Solo.w s2 |}.

(** The state of a lone Unit after a rejected dispatch of [v]. *)
Definition rejected (v : Value) (options : option DispatchOptions) (s : Solo.t)
    : Solo.t :=
  {| Solo.u := fired (EventUnitDispatchFail v (reasonOf (Solo.u s) v) options) (Solo.u s);
     Solo.w := Solo.w s |}.


(** The state of a lone Unit after a jump that is not refused. *)
Definition jumped (steps : Z) (s : Solo.t) : Solo.t :=
  let u0 := Solo.u s in
  let i := Z.to_nat (Z.of_nat (_cacheIndex u0) + steps) in
  let s1 := installing (array_get i (_cachedValues u0)) None true
              {| Solo.u := with_cache (_cachedValues u0) i u0; Solo.w := Solo.w s |} in
  {| Solo.u := fired (EventUnitJump steps i) (Solo.u s1); Solo.w := Solo.w s1 |}.

(** The state of a lone Unit after [clearValue()] has cleared the value. *)
Definition valueCleared (s : Solo.t) : Solo.t :=
  let u0 := Solo.u s in
  let s1 := installing (defaultOf (flavor u0) (next_ref (Solo.w s))) None false
              {| Solo.u := u0; Solo.w := allocated (flavor u0) (Solo.w s) |} in
  {| Solo.u := fired EventUnitClearValue (Solo.u s1); Solo.w := Solo.w s1 |}.

(** The state of a lone Unit after [resetValue()] has reset the value. *)
Definition valueReset (s : Solo.t) : Solo.t :=
  let u0 := Solo.u s in
  let w1 := initialAllocated u0 (Solo.w s) in
  let s1 := installing (initialOf u0 (next_ref w1)) None false
              {| Solo.u := u0; Solo.w := initialAllocated u0 w1 |} in
  {| Solo.u := fired EventUnitResetValue (Solo.u s1); Solo.w := Solo.w s1 |}.

(** The state of a lone Unit after [clearCache(options)] has cleared. *)
Definition cacheClearedState (options : option ClearCacheOptions) (s : Solo.t)
    : Solo.t :=
  {| Solo.u := fired (EventUnitClearCache options) (cacheCleared options (Solo.u s));
     Solo.w := Solo.w s |}.

(** The invariant of a constructed Unit that the statements rely on: the
    value and every cached value are defined for the flavour, and the cache
    index points into the cache (or is 0 when the cache is empty). *)
Definition wf (u : Unit) : bool :=
  installed u
  && forallb (defined_for (flavor u)) (_cachedValues u)
  && bool_decide (_cacheIndex u ≤ List.length (_cachedValues u) - 1).

(** [history[historyIndex]] is the current value. *)
Definition history_at_current (u : Unit) : Prop :=
  _cachedValues u !! _cacheIndex u = Some (_value u).

(** [len(history) ≤ capacity]. *)
Definition within_capacity (u : Unit) : Prop :=
  count_gt (List.length (_cachedValues u)) (cacheSize u) = false.

(** [capacity ≥ 1]. *)
Definition capacity_positive (u : Unit) : Prop :=
  count_gt 1 (cacheSize u) = false.

(** The admission rule as the specification words it. *)
Definition accepted_by_rule (x : Unit) (v : Value) (force : option bool) : Prop :=
  _isFrozen x = false ∧
  isValidValue (flavor x) v = true ∧
  (force = Some true ∨
   ((∀ check, Cfg.customDispatchCheck (config x) = Some check →
              truthy (check (_value x) v) = true) ∧
    (Cfg.distinctDispatchCheck (config x) ≠ Some true ∨
     strict_eq v (_value x) = false))).


(** ** Sample worlds and Units *)

Definition noEnvironment : EnvironmentConfig :=
  {| Env.checkUniqueId := None; Env.checkImmutability := None;
     Env.checkSerializability := None |}.

Definition emptyWorld : World :=
  {| next_ref := 0; _isDevMode := true; _ENVIRONMENT := noEnvironment;
     UniqueIdsAndLocationIdMap := ∅; Configuration_storage := 0;
     storages := ∅ |}.

(** The options of a Unit that is given nothing but an initial value. *)
Definition configOf (initialValue : Value) : Cfg.t :=
  {| Cfg.id := None; Cfg.replay := None; Cfg.cacheSize := None;
     Cfg.initialValue := initialValue; Cfg.immutable := None;
     Cfg.persistent := None; Cfg.storage := None;
     Cfg.distinctDispatchCheck := None; Cfg.customDispatchCheck := None |}.

Definition with_checks (distinct : option bool)
    (custom : option (Value → Value → Value)) (cfg : Cfg.t) : Cfg.t :=
  {| Cfg.id := Cfg.id cfg; Cfg.replay := Cfg.replay cfg;
     Cfg.cacheSize := Cfg.cacheSize cfg; Cfg.initialValue := Cfg.initialValue cfg;
     Cfg.immutable := Cfg.immutable cfg; Cfg.persistent := Cfg.persistent cfg;
     Cfg.storage := Cfg.storage cfg;
     Cfg.distinctDispatchCheck := distinct; Cfg.customDispatchCheck := custom |}.

Definition with_cacheSize (c : option JsNum) (cfg : Cfg.t) : Cfg.t :=
  {| Cfg.id := Cfg.id cfg; Cfg.replay := Cfg.replay cfg;
     Cfg.cacheSize := c; Cfg.initialValue := Cfg.initialValue cfg;
     Cfg.immutable := Cfg.immutable cfg; Cfg.persistent := Cfg.persistent cfg;
     Cfg.storage := Cfg.storage cfg;
     Cfg.distinctDispatchCheck := Cfg.distinctDispatchCheck cfg;
     Cfg.customDispatchCheck := Cfg.customDispatchCheck cfg |}.

Definition with_persistence (id : option string) (cfg : Cfg.t) : Cfg.t :=
  {| Cfg.id := id; Cfg.replay := Cfg.replay cfg;
     Cfg.cacheSize := Cfg.cacheSize cfg; Cfg.initialValue := Cfg.initialValue cfg;
     Cfg.immutable := Cfg.immutable cfg; Cfg.persistent := Some true;
     Cfg.storage := Cfg.storage cfg;
     Cfg.distinctDispatchCheck := Cfg.distinctDispatchCheck cfg;
     Cfg.customDispatchCheck := Cfg.customDispatchCheck cfg |}.

(** The state in which a run ends (the given state if it does not return). *)
Definition finalState {S A} (o : Outcome S A) (otherwise : S) : S :=
  match o with
  | Done _ s => s
  | Thrown _ s => s
  | OutOfFuel => otherwise
  end.

Definition num (z : Z) : Value := VNum (Fin (Qc_of_Z z)).

Definition blankState (f : Flavor) (cfg : Cfg.t) : Solo.t :=
  {| Solo.u := blank f cfg; Solo.w := emptyWorld |}.

(** [new NumUnit({initialValue: 5})]. *)
Definition numUnit5 : Solo.t :=
  finalState (Solo.construct NumUnit (configOf (num 5)) "a" emptyWorld)
             (blankState NumUnit (configOf (num 5))).

(** The same Unit after [events$] has been read. *)
Definition numUnit5_observed : Solo.t :=
  finalState (events Solo.host numUnit5) numUnit5.

(** The same Unit after [freeze()]. *)
Definition numUnit5_frozen : Solo.t :=
  finalState (freeze Solo.host numUnit5) numUnit5.

Definition rejectAll : Value → Value → Value := λ _ _, VBool false.

(** [new NumUnit({initialValue: 5, distinctDispatchCheck: true,
    customDispatchCheck: () => false})], with [events$] read. *)
Definition guardedCfg : Cfg.t :=
  with_checks (Some true) (Some rejectAll) (configOf (num 5)).

Definition guardedUnit : Solo.t :=
  finalState (events Solo.host
                (finalState (Solo.construct NumUnit guardedCfg "a" emptyWorld)
                            (blankState NumUnit guardedCfg)))
             (blankState NumUnit guardedCfg).

Definition forced : option DispatchOptions :=
  Some {| bypassDebounce := None; force := Some true; cacheReplace := None |}.

(** [numUnit5] after [dispatch(7)] and [freeze()]. *)
Definition numUnit7_frozen : Solo.t :=
  let s1 := finalState (dispatch Solo.host (Direct (num 7)) None numUnit5) numUnit5 in
  finalState (freeze Solo.host s1) s1.

(** [guardedUnit] after [dispatch(7, {force: true})]. *)
Definition guardedUnit7 : Solo.t :=
  finalState (dispatch Solo.host (Direct (num 7)) forced guardedUnit) guardedUnit.

(** The operations on a lone Unit that touch the cache, [clearCache] apart. *)
Inductive HistoryOp : Type :=
| OpDispatch (valueOrProducer : Proposal) (options : option DispatchOptions)
| OpJump (steps : Z)
| OpGoBack
| OpGoForward
| OpJumpToStart
| OpJumpToEnd
| OpClearValue
| OpResetValue.

Definition runHistoryOp (op : HistoryOp) : M Solo.t bool :=
  match op with
  | OpDispatch p options => dispatch Solo.host p options
  | OpJump steps => jump Solo.host steps
  | OpGoBack => goBack Solo.host
  | OpGoForward => goForward Solo.host
  | OpJumpToStart => jumpToStart Solo.host
  | OpJumpToEnd => jumpToEnd Solo.host
  | OpClearValue => clearValue Solo.host
  | OpResetValue => resetValue Solo.host
  end.

(** A well-formed Unit whose cache respects a capacity of at least one. *)
Definition bounded (x : Unit) : Prop :=
  wf x = true ∧ capacity_positive x ∧ within_capacity x.

(** [new NumUnit({initialValue: 0, cacheSize: 4})]. *)
Definition cap4Cfg : Cfg.t :=
  with_cacheSize (Some (Fin (Qc_of_Z 4))) (configOf (num 0)).

Definition numUnitCap4 : Solo.t :=
  finalState (Solo.construct NumUnit cap4Cfg "a" emptyWorld)
             (blankState NumUnit cap4Cfg).

(** The state after dispatching the given values one after the other. *)
Definition afterDispatches (values : list Value) (s : Solo.t) : Solo.t :=
  foldl (λ s v, finalState (dispatch Solo.host (Direct v) None s) s) s values.

(** ** Selection paths *)

(** A path segment as the specification wants it: a string or a
    non-negative integer. *)
Definition isKeyPerSpec (key : Value) : bool :=
  match key with
  | VString _ => true
  | VNum (Fin q) => bool_decide (Qden q = 1%positive) && bool_decide (0 ≤ Qnum q)%Z
  | _ => false
  end.

(** A path segment as [checkPath] wants it: a string or any number. *)
Definition isKeyPerCode (key : Value) : bool := is_string key || is_number key.

(** ** Construction of a lone Unit *)

(** What the constructor of [Base] does: it throws, or it returns in a
    world where the id may have been registered. *)
Definition baseConstructed (cfg : Cfg.t) (locationId : string) (w : World)
    : JsError + World :=
  match Cfg.id cfg with
  | Some id =>
      if negb (isValidId id) then inl InvalidId
      else if is_true (Env.checkUniqueId (ENVIRONMENT w)) then
        match UniqueIdsAndLocationIdMap w !! id with
        | Some known =>
            if negb (bool_decide (known = locationId)) then inl DuplicateId
            else inr (with_UniqueIds
                        (<[id := locationId]> (UniqueIdsAndLocationIdMap w)) w)
        | None =>
            inr (with_UniqueIds
                   (<[id := locationId]> (UniqueIdsAndLocationIdMap w)) w)
        end
      else inr w
  | None =>
      if is_true (Cfg.persistent cfg) then inl IdRequiredForPersistence
      else inr w
  end.

(** What [retrieve] returns for the key of the Unit, and the world after. *)
Definition retrieved (cfg : Cfg.t) (w : World) : Value * World :=
  match getItem (storageOf (Cfg.storage cfg) w) (keyOf (Cfg.id cfg)) w with
  | Some (JsonText doc) =>
      ((parse doc (next_ref w)).1, with_next_ref (parse doc (next_ref w)).2 w)
  | _ => (VNull, w)
  end.

(** The value handed to [dispatchInitialValue] and the world at that point:
    the saved value of a persistent Unit if there is one, otherwise the
    (copied) initial value of the options; [None] when the serializability
    check throws. *)
Definition seed (f : Flavor) (cfg : Cfg.t) (w : World) : option (Value * World) :=
  let fromOptions (w : World) :=
    if serializabilityChecked w (Cfg.initialValue cfg)
    then Some (copied (blank f cfg) (Cfg.initialValue cfg) w)
    else None in
  if is_true (Cfg.persistent cfg) then
    let r := retrieved cfg w in
    if truthy r.1 then Some (getProp "value" r.1, r.2) else fromOptions r.2
  else fromOptions w.

(** The Unit that [dispatchInitialValue(v)] makes of the blank one. *)
Definition seeded (f : Flavor) (cfg : Cfg.t) (v : Value) (w : World) : Solo.t :=
  if negb (is_undefined v) && isValidValue f v then
    installing v None false
      {| Solo.u := with_initialValue v (blank f cfg); Solo.w := w |}
  else
    installing (defaultOf f (next_ref w)) None false
      {| Solo.u := blank f cfg; Solo.w := allocated f w |}.

(** ** Values up to the identity of objects *)

(** A value with every object reference forgotten: two values with the same
    [erase] are deeply equal. *)
Fixpoint erase (v : Value) : Value :=
  match v with
  | VArray _ items => VArray 0 (map erase items)
  | VDict _ props => VDict 0 (map (λ kv, (kv.1, erase kv.2)) props)
  | VInstance _ props => VInstance 0 (map (λ kv, (kv.1, erase kv.2)) props)
  | VExotic _ json => VExotic 0 json
  | VFunction _ => VFunction 0
  | _ => v
  end.

(** The values that JSON represents exactly: [null], booleans, finite
    numbers, strings, and arrays and plain objects of such values. *)
Fixpoint jsonable (v : Value) : bool :=
  match v with
  | VNull | VBool _ | VString _ => true
  | VNum (Fin _) => true
  | VArray _ items => forallb jsonable items
  | VDict _ props => forallb (λ kv, jsonable kv.2) props
  | _ => false
  end.

(** No object of the value has a property named [__proto__]. *)
Fixpoint proto_free (v : Value) : bool :=
  match v with
  | VArray _ items => forallb proto_free items
  | VDict _ props | VInstance _ props =>
      forallb (λ kv, negb (bool_decide (kv.1 = "__proto__"%string))
                     && proto_free kv.2) props
  | _ => true
  end.

(** The values that survive [save] and [retrieve]: the previous ones, and
    [undefined] itself (an absent [value] property). *)
Definition roundtrips (v : Value) : bool := jsonable v || is_undefined v.

(** The document [save] writes for a value. *)
Definition wrapped (v : Value) : Json :=
  match stringify v with
  | Some j => JObj [("value"%string, j)]
  | None => JObj []
  end.

(** The loops over the elements of an array and over the properties of an
    object inside [deepCopy], [stringify] and [parse], by name. *)
Definition deepCopy_items : list Value → nat → list Value * nat :=
  fix go (l : list Value) (n : nat) : list Value * nat :=
    match l with
    | [] => ([], n)
    | v :: l' =>
        let '(v', n1) := deepCopy v n in
        let '(l'', n2) := go l' n1 in
        (v' :: l'', n2)
    end.

Definition deepCopy_props
    : list (string * Value) → nat → list (string * Value) * nat :=
  fix go (l : list (string * Value)) (n : nat) : list (string * Value) * nat :=
    match l with
    | [] => ([], n)
    | (k, v) :: l' =>
        let '(v', n1) := deepCopy v n in
        let '(l'', n2) := go l' n1 in
        (if bool_decide (k = "__proto__"%string) then l'' else (k, v') :: l'',
         n2)
    end.

Definition stringify_items : list Value → list Json :=
  fix go (l : list Value) : list Json :=
    match l with
    | [] => []
    | x :: l' => default JNull (stringify x) :: go l'
    end.

Definition stringify_props : list (string * Value) → list (string * Json) :=
  fix go (l : list (string * Value)) : list (string * Json) :=
    match l with
    | [] => []
    | (k, x) :: l' =>
        match stringify x with
        | Some j => (k, j) :: go l'
        | None => go l'
        end
    end.

Definition parse_items : list Json → nat → list Value * nat :=
  fix go (l : list Json) (n : nat) : list Value * nat :=
    match l with
    | [] => ([], n)
    | x :: l' =>
        let '(v, n1) := parse x n in
        let '(vs, n2) := go l' n1 in
        (v :: vs, n2)
    end.

Definition parse_props
    : list (string * Json) → nat → list (string * Value) * nat :=
  fix go (l : list (string * Json)) (n : nat) : list (string * Value) * nat :=
    match l with
    | [] => ([], n)
    | (k, x) :: l' =>
        let '(v, n1) := parse x n in
        let '(vs, n2) := go l' n1 in
        ((k, v) :: vs, n2)
    end.

(** ** Sample persistent Units *)

(** [{id: 'k', persistent: true}]. *)
Definition persistentCfg : Cfg.t :=
  with_persistence (Some "k"%string) (configOf VUndefined).

(** [new ListUnit({id: 'k', persistent: true})] on an empty store. *)
Definition listUnitK : Solo.t :=
  finalState (Solo.construct ListUnit persistentCfg "a" emptyWorld)
             (blankState ListUnit persistentCfg).

(** [['a', true, null]]. *)
Definition sampleList : Value :=
  VArray 7 [VString "a"; VBool true; VNull].

Definition listUnitK_dispatched : Solo.t :=
  finalState (dispatch Solo.host (Direct sampleList) None listUnitK) listUnitK.

(** [new NumUnit({id: 'k', persistent: true})] on an empty store, and the
    same after [dispatch(Infinity)]. *)
Definition numUnitK : Solo.t :=
  finalState (Solo.construct NumUnit persistentCfg "a" emptyWorld)
             (blankState NumUnit persistentCfg).

Definition numUnitK_dispatched : Solo.t :=
  finalState (dispatch Solo.host (Direct (VNum PosInf)) None numUnitK) numUnitK.

(** A second Unit with the same options, constructed on the store that
    [numUnitK_dispatched] leaves behind. *)
Definition numUnitK_restored : Solo.t :=
  finalState (Solo.construct NumUnit persistentCfg "a" (Solo.w numUnitK_dispatched))
             (blankState NumUnit persistentCfg).

(** ** A Unit inside a larger state *)

(** The Unit of a host and the world, as a lone Unit; and a lone Unit written
    back into the state of the host. *)
Definition solo_of {St} (h : Host St) (s : St) : Solo.t :=
  {| Solo.u := host_getU h s; Solo.w := host_getW h s |}.

Definition put {St} (h : Host St) (x : Solo.t) (s : St) : St :=
  host_setU h (Solo.u x) (host_setW h (Solo.w x) s).

(** The state in which the observers of the Unit run when
    [updateValueAndCache(v, options, skipCache)] pushes: the value is stored
    and counted, and not yet persisted. *)
Definition pushed_state {St} (h : Host St) (v : Value)
    (options : option DispatchOptions) (skipCache : bool) (s : St) : St :=
  let u1 := with_emitOnUnmute false (stored v options skipCache (host_getU h s)) in
  let c := copyOut u1 (host_getW h s) in
  host_setU h (with_emitted (S (_emitCount (host_getU h s))) c.1 u1)
    (host_setW h c.2 s).

(** What the lemmas on a Unit inside a larger state ask of its observers
    when [updateValueAndCache(v, options, skipCache)] runs in [s]: they
    return, in the state [sq], and leave the Unit itself alone; a muted Unit
    does not call them. *)
Definition observed_by {St} (h : Host St) (v : Value)
    (options : option DispatchOptions) (skipCache : bool) (s sq : St) : Prop :=
  if _isMuted (host_getU h s) then sq = s
  else host_subscriber h
         (copyOut (with_emitOnUnmute false
                     (stored v options skipCache (host_getU h s)))
                  (host_getW h s)).1
         (pushed_state h v options skipCache s) = Done tt sq
       ∧ host_getU h sq = host_getU h (pushed_state h v options skipCache s).

(** The state once the observers have returned in [sq]: the Unit is [x] and
    its value is written to the store of the world the observers left. *)
Definition settled {St} (h : Host St) (x : Unit) (sq : St) : St :=
  host_setU h x (host_setW h (persisted x (host_getW h sq)) sq).

(** ** Systems *)

(** What the observer of the pending Unit does to the query Unit
    ([toggleQueryUnitFreezeMaybe]). *)
Definition toggled (isPending : Value) (s : AsyncSystem) : AsyncSystem :=
  if is_true (AsyncCfg.freezeQueryWhilePending (sys_config s)) then
    if truthy isPending then
      if _isFrozen (queryUnit s) then s
      else setMember Query (fired EventUnitFreeze (with_isFrozen true (queryUnit s))) s
    else
      if _isFrozen (queryUnit s)
      then setMember Query (fired EventUnitUnfreeze (with_isFrozen false (queryUnit s))) s
      else s
  else s.

(** Every member has been constructed. *)
Definition members_installed (s : AsyncSystem) : bool :=
  installed (queryUnit s) && installed (dataUnit s)
  && installed (errorUnit s) && installed (pendingUnit s).

(** The fields of the system itself are the same in both states. *)
Definition same_system (s s' : AsyncSystem) : Prop :=
  sys_config s' = sys_config s
  ∧ relationshipsAutoPaused s' = relationshipsAutoPaused s
  ∧ relationshipsManuallyPaused s' = relationshipsManuallyPaused s
  ∧ sys_emitCount s' = sys_emitCount s
  ∧ sys_emittedValue s' = sys_emittedValue s.

#[global] Instance Role_eq_dec : EqDecision Role.
Proof. solve_decision. Defined.

(** ** Sample systems *)

(** The options of a system: nothing given, and [clearErrorOnQuery] given
    together with the two options of the claim. *)
Definition defaultAsyncCfg : AsyncCfg.t :=
  {| AsyncCfg.clearErrorOnData := None; AsyncCfg.clearErrorOnQuery := None;
     AsyncCfg.clearDataOnQuery := None; AsyncCfg.clearDataOnError := None;
     AsyncCfg.clearQueryOnData := None; AsyncCfg.clearQueryOnError := None;
     AsyncCfg.autoUpdatePendingValue := None;
     AsyncCfg.freezeQueryWhilePending := None |}.

Definition clearErrorOnQueryCfg : AsyncCfg.t :=
  {| AsyncCfg.clearErrorOnData := Some true; AsyncCfg.clearErrorOnQuery := Some true;
     AsyncCfg.clearDataOnQuery := None; AsyncCfg.clearDataOnError := None;
     AsyncCfg.clearQueryOnData := None; AsyncCfg.clearQueryOnError := None;
     AsyncCfg.autoUpdatePendingValue := Some true;
     AsyncCfg.freezeQueryWhilePending := None |}.

(** Four members constructed one after the other: generic query, data and
    error Units, the error Unit holding ['boom'], and a pending BoolUnit
    holding [true]. *)
Definition queryMember : Solo.t :=
  finalState (Solo.construct GenericUnit (configOf VUndefined) "q" emptyWorld)
             (blankState GenericUnit (configOf VUndefined)).

Definition dataMember : Solo.t :=
  finalState (Solo.construct GenericUnit (configOf VUndefined) "d" (Solo.w queryMember))
             (blankState GenericUnit (configOf VUndefined)).

Definition errorMember : Solo.t :=
  finalState (Solo.construct GenericUnit (configOf (VString "boom")) "e"
                (Solo.w dataMember))
             (blankState GenericUnit (configOf (VString "boom"))).

Definition pendingMember : Solo.t :=
  finalState (Solo.construct BoolUnit (configOf (VBool true)) "p" (Solo.w errorMember))
             (blankState BoolUnit (configOf (VBool true))).

Definition unassembled (cfg : AsyncCfg.t) : AsyncSystem :=
  {| queryUnit := Solo.u queryMember; dataUnit := Solo.u dataMember;
     errorUnit := Solo.u errorMember; pendingUnit := Solo.u pendingMember;
     sys_config := cfg;
     relationshipsAutoPaused := false; relationshipsManuallyPaused := false;
     unitsEmitCountsBeforePausing := [];
     sys_emitCount := 0; sys_emittedValue := VUndefined;
     sys_world := Solo.w pendingMember |}.

(** [new AsyncSystemBase(query, data, error, pending, cfg)]. *)
Definition sampleSystem (cfg : AsyncCfg.t) : AsyncSystem :=
  finalState (AsyncSystemBase_constructor (Solo.u queryMember) (Solo.u dataMember)
                (Solo.u errorMember) (Solo.u pendingMember) cfg
                (Solo.w pendingMember))
             (unassembled cfg).

(** The sample system after [dataUnit.dispatch('data')]. *)
Definition afterData (cfg : AsyncCfg.t) : AsyncSystem :=
  finalState (dispatch (member 2 Data) (Direct (VString "data")) None
                (sampleSystem cfg))
             (sampleSystem cfg).

(** * More of the library *)

(** ** Sequences of operations on a lone Unit *)

(** The given operations one after the other, with what each returned. *)
Fixpoint runHistoryOps (ops : list HistoryOp) : M Solo.t (list bool) :=
  match ops with
  | [] => ret []
  | op :: rest =>
      let* b := runHistoryOp op in
      let* bs := runHistoryOps rest in
      ret (b :: bs)
  end.

(** A state after an operation that installed a value: the Unit as
    [updateValueAndCache] left it, with the event of the operation logged. *)
Definition logged (e : UnitEvent) (s : Solo.t) : Solo.t :=
  {| Solo.u := fired e (Solo.u s); Solo.w := Solo.w s |}.

(** Two worlds with the same stores and the same registry of ids. *)
Definition same_stores (w1 w2 : World) : Prop :=
  storages w2 = storages w1
  ∧ Configuration_storage w2 = Configuration_storage w1
  ∧ UniqueIdsAndLocationIdMap w2 = UniqueIdsAndLocationIdMap w1
  ∧ _ENVIRONMENT w2 = _ENVIRONMENT w1
  ∧ _isDevMode w2 = _isDevMode w1.

(** The document that a persistent Unit keeps in its store. *)
Definition savedDocument (x : Unit) (w : World) : option StorageItem :=
  getItem (storageOf (Cfg.storage (config x)) w) (keyOf (Cfg.id (config x))) w.

(** [numUnit5] after [mute()], [dispatch(7)], [dispatch(8)] and [unmute()]. *)
Definition dispatch7and8 : list HistoryOp :=
  [OpDispatch (Direct (num 7)) None; OpDispatch (Direct (num 8)) None].

Definition numUnit5_unmuted : Solo.t :=
  finalState ((mute Solo.host;;
               let* bs := runHistoryOps dispatch7and8 in
               unmute Solo.host;; ret bs) numUnit5)
             numUnit5.

(** [numUnitCap4] after [dispatch(1)] and [dispatch(2)]: the cache is
    [0, 1, 2] and the index 2. *)
Definition numUnitCap4_12 : Solo.t :=
  afterDispatches [num 1; num 2] numUnitCap4.

(** The identity of an object value. *)
Definition refOf (v : Value) : option nat :=
  match v with
  | VArray r _ | VDict r _ | VInstance r _ | VExotic r _ | VFunction r => Some r
  | _ => None
  end.

(** The value is not an object that is yet to be created. *)
Definition older_than (n : nat) (v : Value) : Prop :=
  ∀ r, refOf v = Some r → r < n.

(** A world in which the objects 0 to 7 exist already. *)
Definition laterWorld : World := with_next_ref 8 emptyWorld.

(** [new ListUnit()] after [dispatch([])]: an empty list that is not the
    default one. *)
Definition listUnitEmpty : Solo.t :=
  finalState (dispatch Solo.host (Direct (VArray 7 [])) None
                (finalState (Solo.construct ListUnit (configOf VUndefined) "a"
                               laterWorld)
                            (blankState ListUnit (configOf VUndefined))))
             (blankState ListUnit (configOf VUndefined)).

(** The fields that neither [freeze] nor [unfreeze] nor an event touches. *)
Definition same_content (x y : Unit) : Prop :=
  flavor y = flavor x ∧ config y = config x ∧ cacheSize y = cacheSize x
  ∧ _isMuted y = _isMuted x ∧ emitOnUnmute y = emitOnUnmute x
  ∧ _cachedValues y = _cachedValues x ∧ _cacheIndex y = _cacheIndex x
  ∧ _initialValue y = _initialValue x ∧ _value y = _value x
  ∧ _emitCount y = _emitCount x ∧ emittedValue y = emittedValue x.

(** ** Persistence *)

Section Persistence.
Context {St : Type}.
Variable h : Host St.

(** [UnitBase.clearPersistedValue]. *)
Definition clearPersistedValue : M St bool :=
  let* x := this h in
  if is_true (Cfg.persistent (config x)) then
    remove h (Cfg.id (config x)) (Cfg.storage (config x));;
    fire h EventUnitClearPersistedValue;;
    ret true
  else ret false.

End Persistence.

(** [String.prototype.startsWith]. *)
Fixpoint startsWith (prefix s : string) : bool :=
  match prefix, s with
  | EmptyString, _ => true
  | String a p, String b r => bool_decide (a = b) && startsWith p r
  | String _ _, EmptyString => false
  end.

(** persistence: [clearPersistentStorage(storage)], with
    [Configuration.storage] by default: every key of the storage that
    starts with the prefix is removed, one after the other. *)
Definition clearPersistentStorage (st : option nat) (w : World) : World :=
  let storage := storageOf st w in
  foldr (λ key w', if startsWith KeyPrefix key then removeItem storage key w' else w')
        w (map fst (map_to_list (storageContent storage w))).

(** A persistent NumUnit with the id [k] and the initial value 5, after
    [dispatch(7)], and the same after [clearPersistedValue()]. *)
Definition persistentCfg5 : Cfg.t :=
  with_persistence (Some "k"%string) (configOf (num 5)).

Definition numUnitK7 : Solo.t :=
  finalState (dispatch Solo.host (Direct (num 7)) None
                (finalState (Solo.construct NumUnit persistentCfg5 "a" emptyWorld)
                            (blankState NumUnit persistentCfg5)))
             (blankState NumUnit persistentCfg5).

Definition numUnitK7_forgotten : Solo.t :=
  finalState (clearPersistedValue Solo.host numUnitK7) numUnitK7.

(** The sample system after [pauseRelationships()]. *)
Definition pausedSystem : AsyncSystem :=
  finalState (pauseRelationships (sampleSystem defaultAsyncCfg))
             (sampleSystem defaultAsyncCfg).

(** An AsyncSystem configuration with [freezeQueryWhilePending] on. *)
Definition freezingCfg : AsyncCfg.t :=
  {| AsyncCfg.clearErrorOnData := None; AsyncCfg.clearErrorOnQuery := None;
     AsyncCfg.clearDataOnQuery := None; AsyncCfg.clearDataOnError := None;
     AsyncCfg.clearQueryOnData := None; AsyncCfg.clearQueryOnError := None;
     AsyncCfg.autoUpdatePendingValue := None;
     AsyncCfg.freezeQueryWhilePending := Some true |}.

(** ** [createUnit] *)

(** [{...config, initialValue}]. *)
Definition with_initialValueOption (initialValue : Value) (cfg : Cfg.t) : Cfg.t :=
  {| Cfg.id := Cfg.id cfg; Cfg.replay := Cfg.replay cfg;
     Cfg.cacheSize := Cfg.cacheSize cfg; Cfg.initialValue := initialValue;
     Cfg.immutable := Cfg.immutable cfg; Cfg.persistent := Cfg.persistent cfg;
     Cfg.storage := Cfg.storage cfg;
     Cfg.distinctDispatchCheck := Cfg.distinctDispatchCheck cfg;
     Cfg.customDispatchCheck := Cfg.customDispatchCheck cfg |}.

#[global] Instance JsType_eq_dec : EqDecision JsType.
Proof. solve_decision. Defined.

(** The class [createUnit] instantiates: the cases of its [switch (true)]
    in the order they are tried, [initialValue == null] sharing the body of
    [default]. *)
Definition createUnit_class (initialValue : Value) : Flavor :=
  let typeOfValue := typeof initialValue in
  if is_nil initialValue then GenericUnit
  else if bool_decide (typeOfValue = TBoolean) then BoolUnit
  else if bool_decide (typeOfValue = TNumber) then NumUnit
  else if bool_decide (typeOfValue = TString) then StringUnit
  else if isArray initialValue then ListUnit
  else if isDict initialValue then DictUnit
  else GenericUnit.

(** lib/creators: [createUnit(initialValue, config)]. *)
Definition createUnit (initialValue : Value) (cfg : Cfg.t) (locationId : string)
    (world : World) : Outcome Solo.t unit :=
  let unitConfig := with_initialValueOption initialValue cfg in
  Solo.construct (createUnit_class initialValue) unitConfig locationId world.

(** ** The objects of a value *)

(** The objects of a value that [deepCopy] rebuilds: the references of its
    arrays and of its objects with the [object Object] tag, each after those
    nested in it. *)
Fixpoint containers (v : Value) : list nat :=
  match v with
  | VArray r items => concat (map containers items) ++ [r]
  | VDict r props | VInstance r props =>
      concat (map (λ kv, containers kv.2) props) ++ [r]
  | _ => []
  end.

(** The objects of a value that [deepCopy] returns as they are: the
    references of its functions and of its objects that are neither arrays
    nor carry the [object Object] tag (a [Date], a [Map], ...), in the order
    they are met. *)
Fixpoint kept (v : Value) : list nat :=
  match v with
  | VArray _ items => concat (map kept items)
  | VDict _ props | VInstance _ props => concat (map (λ kv, kept kv.2) props)
  | VExotic r _ | VFunction r => [r]
  | _ => []
  end.

(** A value and everything in it that is reached through the elements of
    arrays and the properties of plain objects. *)
Fixpoint reachable (v : Value) : list Value :=
  v :: match v with
       | VArray _ items => concat (map reachable items)
       | VDict _ props => concat (map (λ kv, reachable kv.2) props)
       | _ => []
       end.

(** Functions, and objects that are not arrays and whose constructor is not
    [Object]: class instances, objects without a prototype, [Date]s and the
    like, and plain objects with a property [constructor] of their own. *)
Definition non_plain (v : Value) : bool :=
  match v with
  | VDict _ props => negb (constructorIsObject props)
  | VInstance _ _ | VExotic _ _ | VFunction _ => true
  | _ => false
  end.

(** The searches of [isSerializable] through the elements of an array and
    through the properties of an object, by name. *)
Definition isSerializable_items : list Value → option Value :=
  fix find (l : list Value) : option Value :=
    match l with
    | [] => None
    | v :: l' =>
        match isSerializable v with
        | Some bad => Some bad
        | None => find l'
        end
    end.

Definition isSerializable_props : list (string * Value) → option Value :=
  fix find (l : list (string * Value)) : option Value :=
    match l with
    | [] => None
    | (_, v) :: l' =>
        match isSerializable v with
        | Some bad => Some bad
        | None => find l'
        end
    end.

(** [{immutable: true}], and [new ListUnit({immutable: true})] in a world in
    which [sampleList] exists. *)
Definition immutableCfg : Cfg.t :=
  {| Cfg.id := None; Cfg.replay := None; Cfg.cacheSize := None;
     Cfg.initialValue := VUndefined; Cfg.immutable := Some true;
     Cfg.persistent := None; Cfg.storage := None;
     Cfg.distinctDispatchCheck := None; Cfg.customDispatchCheck := None |}.

Definition immutableList : Solo.t :=
  finalState (Solo.construct ListUnit immutableCfg "a" laterWorld)
             (blankState ListUnit immutableCfg).

(** ** [hashCode] *)

(** [x | 0]: an integer as a 32-bit two's complement integer. *)
Definition toInt32 (x : Z) : Z := ((x + 2 ^ 31) mod 2 ^ 32 - 2 ^ 31)%Z.

(** [x >>> 0]: an integer as an unsigned 32-bit integer. *)
Definition toUint32 (x : Z) : Z := (x mod 2 ^ 32)%Z.

(** [x << k]. *)
Definition shiftLeft32 (x k : Z) : Z := toInt32 (Z.shiftl (toInt32 x) k).

(** [str.charCodeAt(i)] for every [i]; characters are bytes. *)
Definition charCodes (str : string) : list Z :=
  map (λ c, Z.of_nat (Ascii.nat_of_ascii c)) (String.list_ascii_of_string str).

(** The digit [d] in [Number.prototype.toString(32)]: [0] to [9], then [a]
    to [v]. *)
Definition digit32 (d : Z) : Ascii.ascii :=
  Ascii.ascii_of_nat (Z.to_nat (if (d <? 10)%Z then 48 + d else 87 + d)%Z).

(** [n.toString(32)] written in front of [acc], for [0 ≤ n < 32 ^ fuel]. *)
Fixpoint toString32 (fuel : nat) (n : Z) (acc : string) : string :=
  match fuel with
  | O => acc
  | S fuel' =>
      let acc' := String (digit32 (n mod 32)) acc in
      if (n / 32 =? 0)%Z then acc' else toString32 fuel' (n / 32) acc'
  end.

Definition upperCase (c : Ascii.ascii) : Ascii.ascii :=
  let n := Ascii.nat_of_ascii c in
  if bool_decide (97 ≤ n ≤ 122) then Ascii.ascii_of_nat (n - 32) else c.

Fixpoint toUpperCase (s : string) : string :=
  match s with
  | EmptyString => EmptyString
  | String c s' => String (upperCase c) (toUpperCase s')
  end.

(** The number [hashCode] prints: the loop over the characters, and
    [hash >>> 0]. *)
Definition hashCode_number (str : string) : Z :=
  toUint32
    (fold_left (λ hash code, toInt32 (shiftLeft32 hash 5 - hash + code))
       (charCodes str) 0%Z).

(** utils/funcs: [hashCode(str)] of a string. *)
Definition hashCode (str : string) : string :=
  let length := String.length str in
  if bool_decide (length = 0) then "0"%string
  else toUpperCase (toString32 7 (hashCode_number str) "").

(** The value of a digit of base 32, in either case. *)
Definition digitValue32 (c : Ascii.ascii) : Z :=
  let n := Z.of_nat (Ascii.nat_of_ascii c) in
  if bool_decide (48 ≤ n ≤ 57)%Z then (n - 48)%Z
  else if bool_decide (97 ≤ n ≤ 118)%Z then (n - 87)%Z
  else if bool_decide (65 ≤ n ≤ 86)%Z then (n - 55)%Z
  else 0%Z.

(** [parseInt(s, 32)] of a string of such digits, continuing from [init]. *)
Fixpoint parseInt32 (s : string) (init : Z) : Z :=
  match s with
  | EmptyString => init
  | String c s' => parseInt32 s' (init * 32 + digitValue32 c)%Z
  end.

(** The polynomial [c0 * 31^(n-1) + ... + c(n-1)] of a list of codes. *)
Definition polynomial31 (codes : list Z) : Z :=
  fold_left (λ h code, (31 * h + code)%Z) codes 0%Z.

(** ** The registry of ids *)

(** Two worlds with the same registry of ids and the same environment. *)
Definition same_registry (w1 w2 : World) : Prop :=
  UniqueIdsAndLocationIdMap w2 = UniqueIdsAndLocationIdMap w1
  ∧ _ENVIRONMENT w2 = _ENVIRONMENT w1
  ∧ _isDevMode w2 = _isDevMode w1.

(** [{id: 'k'}], and a world in which [checkUniqueId] is on. *)
Definition idCfg : Cfg.t :=
  {| Cfg.id := Some "k"%string; Cfg.replay := None; Cfg.cacheSize := None;
     Cfg.initialValue := VUndefined; Cfg.immutable := None;
     Cfg.persistent := None; Cfg.storage := None;
     Cfg.distinctDispatchCheck := None; Cfg.customDispatchCheck := None |}.

Definition checkingWorld : World :=
  {| next_ref := 0; _isDevMode := true;
     _ENVIRONMENT := {| Env.checkUniqueId := Some true;
                        Env.checkImmutability := None;
                        Env.checkSerializability := None |};
     UniqueIdsAndLocationIdMap := ∅; Configuration_storage := 0;
     storages := ∅ |}.

(** [{id: 'k', persistent: true, immutable: true}], the ListUnit with these
    options on an empty store, and the same after [dispatch(sampleList)]. *)
Definition persistentImmutableCfg : Cfg.t :=
  {| Cfg.id := Some "k"%string; Cfg.replay := None; Cfg.cacheSize := None;
     Cfg.initialValue := VUndefined; Cfg.immutable := Some true;
     Cfg.persistent := Some true; Cfg.storage := None;
     Cfg.distinctDispatchCheck := None; Cfg.customDispatchCheck := None |}.

Definition immutableListK : Solo.t :=
  finalState (Solo.construct ListUnit persistentImmutableCfg "a" laterWorld)
             (blankState ListUnit persistentImmutableCfg).

Definition immutableListK_dispatched : Solo.t :=
  finalState (dispatch Solo.host (Direct sampleList) None immutableListK)
             immutableListK.

(** * Proofs *)

(** ** How the methods run *)

#[global] Instance Solo_lawful : Lawful Solo.host.
Proof. split; intros; try destruct s; reflexivity. Qed.

Lemma bind_Done {S A B} (m : M S A) (f : A → M S B) s a s' :
  m s = Done a s' → bind m f s = f a s'.
Proof. unfold bind. by intros ->. Qed.

Lemma bind_Thrown {S A B} (m : M S A) (f : A → M S B) s e s' :
  m s = Thrown e s' → bind m f s = Thrown e s'.
Proof. unfold bind. by intros ->. Qed.

Section Runs.
Context {St : Type} (h : Host St) `{!Lawful h}.
Local Abbreviation getU := (host_getU h).
Local Abbreviation setU := (host_setU h).
Local Abbreviation getW := (host_getW h).
Local Abbreviation setW := (host_setW h).

Lemma update_run f s : update h f s = Done tt (setU (f (getU s)) s).
Proof. reflexivity. Qed.

Lemma this_run s : this h s = Done (getU s) s.
Proof. reflexivity. Qed.

Lemma rawValue_installed s :
  installed (getU s) = true → rawValue h s = Done (_value (getU s)) s.
Proof.
  unfold installed, defined_for, rawValue, applyFallbackValue, defaultValue, this, gets, bind, ret.
  destruct (_value (getU s)) eqn:E; simpl; try reflexivity.
  destruct (flavor (getU s)); simpl; congruence.
Qed.

Lemma deepCopyMaybe_run o s :
  deepCopyMaybe h o s =
    Done (copied (getU s) o (getW s)).1 (setW (copied (getU s) o (getW s)).2 s).
Proof.
  unfold deepCopyMaybe, deepCopyM, copied, bind, this, gets, ret.
  destruct (is_true _); [by destruct (deepCopy o _)|].
  simpl. by rewrite setW_getW.
Qed.

Lemma value_run s :
  installed (getU s) = true →
  value h s = Done (copyOut (getU s) (getW s)).1 (setW (copyOut (getU s) (getW s)).2 s).
Proof.
  intros Hi. unfold value, copyOut.
  rewrite (bind_Done _ _ _ _ _ (this_run s)).
  destruct (flavor (getU s)) eqn:Ef; simpl;
    try (rewrite rawValue_installed by done; by rewrite setW_getW).
  all: rewrite (bind_Done _ _ _ _ _ (rawValue_installed s Hi));
    rewrite deepCopyMaybe_run; unfold copied; destruct (is_true _); simpl;
    [by destruct (deepCopy _ _) | done].
Qed.

Lemma updateValueInPersistentStorage_run s :
  installed (getU s) = true →
  updateValueInPersistentStorage h s = Done tt (setW (persisted (getU s) (getW s)) s).
Proof.
  intros Hi. unfold updateValueInPersistentStorage, persisted, bind, this, gets, ret.
  destruct (is_true _); [|by rewrite setW_getW].
  rewrite rawValue_installed by done. reflexivity.
Qed.



Lemma with_cache_id u : with_cache (_cachedValues u) (_cacheIndex u) u = u.
Proof. by destruct u. Qed.

Lemma with_eventsSubject_id u : with_eventsSubject (eventsSubject u) u = u.
Proof. by destruct u. Qed.

Lemma when_updateCache_run v options skip s :
  when (negb skip) (updateCache h v (options ≫= cacheReplace)) s
  = Done tt (setU (with_cache (cacheStored v options skip (getU s)).1
                              (cacheStored v options skip (getU s)).2 (getU s)) s).
Proof.
  unfold cacheStored. destruct skip; simpl.
  - unfold ret. by rewrite with_cache_id, setU_getU.
  - unfold updateCache, update, modify, cacheAfter. do 2 f_equal.
    repeat case_match; reflexivity.
Qed.

Lemma emit_run s :
  installed (getU s) = true →
  emit h None s =
    let ev := (copyOut (getU s) (getW s)).1 in
    host_subscriber h ev
      (setU (with_emitted (S (_emitCount (getU s))) ev (getU s))
            (setW (copyOut (getU s) (getW s)).2 s)).
Proof.
  intros Hi. unfold emit.
  rewrite (bind_Done _ _ _ _ _ (value_run s Hi)).
  rewrite (bind_Done _ _ _ _ _ (update_run _ _)).
  by rewrite getU_setW.
Qed.

Lemma updateValueAndCache_run v options skip s :
  updateValueAndCache h v options skip s =
    let u1 := stored v options skip (getU s) in
    if _isMuted (getU s) then
      updateValueInPersistentStorage h (setU (with_emitOnUnmute true u1) s)
    else
      (emit h None;; updateValueInPersistentStorage h)
        (setU (with_emitOnUnmute false u1) s).
Proof.
  unfold updateValueAndCache.
  rewrite (bind_Done _ _ _ _ _ (when_updateCache_run _ _ _ _)).
  rewrite (bind_Done _ _ _ _ _ (update_run _ _)).
  rewrite (bind_Done _ _ _ _ _ (this_run _)).
  rewrite !getU_setU, !setU_setU. fold (stored v options skip (getU s)). simpl.
  destruct (_isMuted (getU s)); simpl.
  - rewrite (bind_Done _ _ _ _ _ (update_run _ _)).
    by rewrite !getU_setU, !setU_setU.
  - unfold bind at 1. unfold bind at 1. rewrite update_run.
    by rewrite !getU_setU, !setU_setU.
Qed.

Lemma fire_run e s : fire h e s = Done tt (setU (fired e (getU s)) s).
Proof.
  unfold fire, fired. rewrite (bind_Done _ _ _ _ _ (this_run _)).
  destruct (eventsSubject (getU s)) eqn:E; [destruct (_isMuted (getU s))|];
    unfold ret; rewrite <- ?E, ?with_eventsSubject_id, ?setU_getU; reflexivity.
Qed.

Lemma distinctCheck_run s v :
  installed (getU s) = true →
  distinctCheck h v s = Done (distinct_ok (getU s) v) s.
Proof.
  intros Hi. unfold distinctCheck, distinct_ok.
  rewrite (bind_Done _ _ _ _ _ (this_run _)).
  destruct (is_true _); simpl; [|reflexivity].
  by rewrite (bind_Done _ _ _ _ _ (rawValue_installed s Hi)).
Qed.

Lemma UnitBase_wouldDispatch_run s v force :
  installed (getU s) = true →
  UnitBase_wouldDispatch h v force s =
    Done (negb (_isFrozen (getU s))
          && (is_true force || (custom_ok (getU s) v && distinct_ok (getU s) v))) s.
Proof.
  intros Hi. unfold UnitBase_wouldDispatch, custom_ok.
  rewrite (bind_Done _ _ _ _ _ (this_run _)).
  destruct (_isFrozen _); simpl; [reflexivity|].
  destruct (is_true force); simpl; [reflexivity|].
  destruct (Cfg.customDispatchCheck _).
  - rewrite (bind_Done _ _ _ _ _ (rawValue_installed s Hi)).
    destruct (truthy _); simpl; [|reflexivity].
    by rewrite distinctCheck_run.
  - by rewrite distinctCheck_run.
Qed.

Lemma wouldDispatch_run s v force :
  installed (getU s) = true →
  wouldDispatch h v force s = Done (admits (getU s) v force) s.
Proof.
  intros Hi. unfold wouldDispatch, admits.
  rewrite (bind_Done _ _ _ _ _ (this_run _)).
  destruct (flavor (getU s)) eqn:Ef; simpl;
    try (destruct (_ v) eqn:Ev; rewrite ?UnitBase_wouldDispatch_run by done;
         by rewrite ?andb_false_r, ?andb_true_r).
  rewrite UnitBase_wouldDispatch_run by done. by rewrite andb_true_r.
Qed.



Lemma failReason_run s v :
  installed (getU s) = true →
  failReason h v s = Done (reasonOf (getU s) v) s.
Proof.
  intros Hi. unfold failReason, reasonOf.
  rewrite (bind_Done _ _ _ _ _ (this_run _)).
  destruct (_isFrozen _); [reflexivity|].
  destruct (isValidValue _ _); [|reflexivity].
  by rewrite (bind_Done _ _ _ _ _ (distinctCheck_run s v Hi)).
Qed.



Lemma resolve_run p s :
  installed (getU s) = true →
  resolve h p s = Done (proposed p (getU s) (getW s)).1
                       (setW (proposed p (getU s) (getW s)).2 s).
Proof.
  intros Hi. destruct p as [v|f]; simpl.
  - unfold ret. by rewrite setW_getW.
  - by rewrite (bind_Done _ _ _ _ _ (value_run s Hi)).
Qed.


Lemma checkSerializabilityMaybe_run v s :
  checkSerializabilityMaybe h v s =
    if serializabilityChecked (getW s) v then Done tt s
    else Thrown (NonSerializableValue (default VUndefined (isSerializable v))) s.
Proof.
  unfold checkSerializabilityMaybe, serializabilityChecked, checkSerializability, bind, gets.
  destruct (is_true _); simpl; [|reflexivity].
  destruct (isSerializable v); reflexivity.
Qed.



Lemma dispatchActual_run p options s :
  installed (getU s) = true →
  let v := (proposed p (getU s) (getW s)).1 in
  let s1 := setW (proposed p (getU s) (getW s)).2 s in
  dispatchActual h p options s =
    if serializabilityChecked (getW s1) v then admit_or_reject h v options s1
    else Thrown (NonSerializableValue (default VUndefined (isSerializable v))) s1.
Proof.
  intros Hi v s1. unfold dispatchActual.
  rewrite (bind_Done _ _ _ _ _ (resolve_run p s Hi)). fold v s1.
  unfold bind at 1. rewrite checkSerializabilityMaybe_run.
  destruct (serializabilityChecked _ _); reflexivity.
Qed.

Lemma rejected_run v options s :
  installed (getU s) = true →
  admits (getU s) v (options ≫= force) = false →
  admit_or_reject h v options s =
    Done false (setU (fired (EventUnitDispatchFail v (reasonOf (getU s) v) options)
                        (getU s)) s).
Proof.
  intros Hi Ha. unfold admit_or_reject.
  rewrite (bind_Done _ _ _ _ _ (wouldDispatch_run s v _ Hi)), Ha.
  rewrite (bind_Done _ _ _ _ _ (this_run _)).
  destruct (eventsSubject (getU s)) eqn:Ee; [destruct (_isMuted (getU s)) eqn:Em|].
  - unfold ret, fired. by rewrite Ee, Em, <- Ee, with_eventsSubject_id, setU_getU.
  - rewrite (bind_Done _ _ _ _ _ (failReason_run s v Hi)).
    by rewrite (bind_Done _ _ _ _ _ (fire_run _ _)).
  - unfold ret, fired. by rewrite Ee, <- Ee, with_eventsSubject_id, setU_getU.
Qed.

Lemma accepted_run v options s :
  installed (getU s) = true →
  admits (getU s) v (options ≫= force) = true →
  admit_or_reject h v options s =
    (let* copy := deepCopyMaybe h v in
     updateValueAndCache h copy options false;;
     fire h (EventUnitDispatch v options);;
     ret true) s.
Proof.
  intros Hi Ha. unfold admit_or_reject.
  by rewrite (bind_Done _ _ _ _ _ (wouldDispatch_run s v _ Hi)), Ha.
Qed.


Lemma defaultValue_run s :
  defaultValue h s = Done (defaultOf (flavor (getU s)) (next_ref (getW s)))
                          (setW (allocated (flavor (getU s)) (getW s)) s).
Proof.
  unfold defaultValue. rewrite (bind_Done _ _ _ _ _ (this_run _)).
  destruct (flavor (getU s)); simpl; unfold ret; rewrite ?setW_getW; reflexivity.
Qed.


Lemma isEmpty_run s :
  installed (getU s) = true → isEmpty h s = Done (emptyOf (getU s)) s.
Proof.
  intros Hi. unfold isEmpty, emptyOf.
  rewrite (bind_Done _ _ _ _ _ (this_run _)).
  destruct (flavor (getU s)) eqn:Ef;
    rewrite (bind_Done _ _ _ _ _ (rawValue_installed s Hi)); try reflexivity.
  all: try (rewrite (bind_Done _ _ _ _ _ (defaultValue_run s)), Ef; simpl;
            unfold ret; by rewrite setW_getW).
  destruct (is_nil _); [reflexivity|].
  by rewrite (bind_Done _ _ _ _ _ (rawValue_installed s Hi)).
Qed.

Lemma clearValue_run s :
  installed (getU s) = true →
  clearValue h s =
    if _isFrozen (getU s) || bool_decide (_emitCount (getU s) = 0)
       || emptyOf (getU s) then Done false s
    else (updateValueAndCache h
            (defaultOf (flavor (getU s)) (next_ref (getW s))) None false;;
          fire h EventUnitClearValue;; ret true)
           (setW (allocated (flavor (getU s)) (getW s)) s).
Proof.
  intros Hi. unfold clearValue.
  rewrite (bind_Done _ _ _ _ _ (this_run _)).
  destruct (_isFrozen _); [reflexivity|].
  destruct (bool_decide _); [reflexivity|].
  rewrite (bind_Done _ _ _ _ _ (isEmpty_run s Hi)).
  destruct (emptyOf _); [reflexivity|]. simpl.
  by rewrite (bind_Done _ _ _ _ _ (defaultValue_run s)).
Qed.


Lemma initialValueRaw_run s :
  initialValueRaw h s = Done (initialOf (getU s) (next_ref (getW s)))
                             (setW (initialAllocated (getU s) (getW s)) s).
Proof.
  unfold initialValueRaw, initialOf, initialAllocated, applyFallbackValue.
  rewrite (bind_Done _ _ _ _ _ (this_run _)).
  destruct (is_undefined _); [apply defaultValue_run|].
  unfold ret. by rewrite setW_getW.
Qed.

Lemma resetValue_run s :
  installed (getU s) = true →
  let w1 := initialAllocated (getU s) (getW s) in
  resetValue h s =
    if _isFrozen (getU s) then Done false s
    else if strict_eq (_value (getU s)) (initialOf (getU s) (next_ref (getW s)))
    then Done false (setW w1 s)
    else (updateValueAndCache h (initialOf (getU s) (next_ref w1)) None false;;
          fire h EventUnitResetValue;; ret true)
           (setW (initialAllocated (getU s) w1) s).
Proof.
  intros Hi w1. unfold resetValue.
  rewrite (bind_Done _ _ _ _ _ (this_run _)).
  destruct (_isFrozen _); [reflexivity|].
  rewrite (bind_Done _ _ _ _ _ (rawValue_installed s Hi)).
  rewrite (bind_Done _ _ _ _ _ (initialValueRaw_run s)). fold w1.
  destruct (strict_eq _ _); [reflexivity|].
  rewrite (bind_Done _ _ _ _ _ (initialValueRaw_run _)).
  by rewrite getU_setW, getW_setW, setW_setW.
Qed.


Lemma jump_run steps s :
  jump h steps s =
    if jumpRefused (getU s) steps then Done false s
    else
      let i := Z.to_nat (Z.of_nat (_cacheIndex (getU s)) + steps) in
      (updateValueAndCache h (array_get i (_cachedValues (getU s))) None true;;
       fire h (EventUnitJump steps i);; ret true)
        (setU (with_cache (_cachedValues (getU s)) i (getU s)) s).
Proof.
  unfold jump, jumpRefused.
  rewrite (bind_Done _ _ _ _ _ (this_run _)).
  destruct (_isFrozen _); [reflexivity|]. simpl.
  destruct (_ || _ || _); [reflexivity|].
  by rewrite (bind_Done _ _ _ _ _ (update_run _ _)).
Qed.


Lemma clearCache_run options s :
  clearCache h options s =
    if clearCacheRefused (getU s) options then Done false s
    else Done true (setU (fired (EventUnitClearCache options)
                            (cacheCleared options (getU s))) s).
Proof.
  unfold clearCache, clearCacheRefused, cacheCleared.
  rewrite (bind_Done _ _ _ _ _ (this_run _)).
  destruct (_ || _ || _ || _); [reflexivity|].
  rewrite (bind_Done _ _ _ _ _ (update_run _ _)).
  rewrite (bind_Done _ _ _ _ _ (fire_run _ _)).
  unfold ret. by rewrite getU_setU, setU_setU.
Qed.

Lemma freeze_run s :
  freeze h s =
    Done tt (if _isFrozen (getU s) then s
             else setU (fired EventUnitFreeze (with_isFrozen true (getU s))) s).
Proof.
  unfold freeze. rewrite (bind_Done _ _ _ _ _ (this_run _)).
  destruct (_isFrozen _); [reflexivity|].
  rewrite (bind_Done _ _ _ _ _ (update_run _ _)), fire_run.
  by rewrite getU_setU, setU_setU.
Qed.

Lemma unfreeze_run s :
  unfreeze h s =
    Done tt (if _isFrozen (getU s)
             then setU (fired EventUnitUnfreeze (with_isFrozen false (getU s))) s
             else s).
Proof.
  unfold unfreeze. rewrite (bind_Done _ _ _ _ _ (this_run _)).
  destruct (_isFrozen _); [|reflexivity]. simpl.
  rewrite (bind_Done _ _ _ _ _ (update_run _ _)), fire_run.
  by rewrite getU_setU, setU_setU.
Qed.
End Runs.

(** ** How the methods of a lone Unit run *)

Section SoloRuns.
Import Solo.

Lemma emit_solo s :
  installed (u s) = true → emit host None s = Done tt (pushing s).
Proof. intros Hi. by rewrite (emit_run host s Hi). Qed.

Lemma updateValueAndCache_solo v o skip s :
  defined_for (flavor (u s)) v = true →
  updateValueAndCache host v o skip s = Done tt (installing v o skip s).
Proof.
  intros Hd. rewrite (updateValueAndCache_run host). unfold installing. simpl.
  destruct s as [x w0]; simpl in *. destruct (_isMuted x) eqn:Em.
  - rewrite (updateValueInPersistentStorage_run host) by exact Hd.
    destruct x; simpl in *; subst; reflexivity.
  - erewrite bind_Done by (apply emit_solo; exact Hd).
    by rewrite (updateValueInPersistentStorage_run host) by exact Hd.
Qed.

Lemma copied_defined x o w0 f :
  defined_for f (copied x o w0).1 = defined_for f o.
Proof.
  unfold copied, defined_for. destruct (is_true _); [|done].
  destruct o; simpl; try done.
  - by destruct ((fix go (l : list Value) (n : nat) {struct l} : list Value * nat := _) items (next_ref w0)).
  - by destruct ((fix go (l : list (string * Value)) (n : nat) {struct l} : list (string * Value) * nat := _) props (next_ref w0)).
  - by destruct ((fix go (l : list (string * Value)) (n : nat) {struct l} : list (string * Value) * nat := _) props (next_ref w0)).
Qed.

Lemma valid_defined f v : isValidValue f v = true → defined_for f v = true.
Proof. by destruct f, v. Qed.

Lemma accepted_solo v o s :
  installed (u s) = true →
  admits (u s) v (o ≫= force) = true →
  admit_or_reject host v o s = Done true (dispatched v o s).
Proof.
  intros Hi Ha. rewrite (accepted_run host _ _ _ Hi Ha).
  rewrite (bind_Done _ _ _ _ _ (deepCopyMaybe_run host _ _)).
  assert (Hd : defined_for (flavor (u s)) (copied (u s) v (w s)).1 = true).
  { rewrite copied_defined. apply valid_defined.
    unfold admits in Ha. by destruct (_isFrozen _), (isValidValue _ _). }
  erewrite bind_Done by (apply updateValueAndCache_solo; exact Hd).
  rewrite (bind_Done _ _ _ _ _ (fire_run host _ _)). reflexivity.
Qed.

Lemma rejected_solo v o s :
  installed (u s) = true →
  admits (u s) v (o ≫= force) = false →
  admit_or_reject host v o s = Done false (rejected v o s).
Proof. intros Hi Ha. by rewrite (rejected_run host _ _ _ Hi Ha). Qed.
End SoloRuns.

Section SoloRuns2.
Import Solo.

Lemma dispatchActual_solo p o s :
  installed (u s) = true →
  let v := (proposed p (u s) (w s)).1 in
  let s1 := {| u := u s; w := (proposed p (u s) (w s)).2 |} in
  dispatchActual host p o s =
    if serializabilityChecked (w s1) v then
      if admits (u s) v (o ≫= force) then Done true (dispatched v o s1)
      else Done false (rejected v o s1)
    else Thrown (NonSerializableValue (default VUndefined (isSerializable v))) s1.
Proof.
  intros Hi v s1. rewrite (dispatchActual_run host p o s Hi).
  change (host_setW host (proposed p (host_getU host s) (host_getW host s)).2 s) with s1.
  change (proposed p (host_getU host s) (host_getW host s)).1 with v.
  change (host_getW host s1) with (w s1).
  destruct (serializabilityChecked _ _); [|done].
  destruct (admits (u s) v (o ≫= force)) eqn:Ha.
  - by apply accepted_solo.
  - by apply rejected_solo.
Qed.

Lemma array_get_defined f l i :
  forallb (defined_for f) l = true → i < List.length l →
  defined_for f (array_get i l) = true.
Proof.
  intros Hall Hi. unfold array_get.
  destruct (l !! i) as [x|] eqn:E.
  - simpl. rewrite forallb_forall in Hall. apply Hall.
    apply list_elem_of_In. by eapply list_elem_of_lookup_2.
  - apply lookup_ge_None in E. lia.
Qed.

Lemma jump_solo steps s :
  wf (u s) = true →
  jump host steps s =
    if jumpRefused (u s) steps then Done false s else Done true (jumped steps s).
Proof.
  intros Hwf. rewrite (jump_run host).
  change (host_getU host s) with (u s).
  destruct (jumpRefused (u s) steps) eqn:Hr; [done|].
  unfold jumpRefused in Hr.
  apply orb_false_elim in Hr as [Hr H3]. apply orb_false_elim in Hr as [Hr H2].
  apply orb_false_elim in Hr as [H0 H1].
  apply bool_decide_eq_false in H1, H2, H3.
  unfold wf in Hwf. apply andb_prop in Hwf as [Hwf _]. apply andb_prop in Hwf as [_ Hall].
  erewrite bind_Done; [| apply updateValueAndCache_solo; simpl;
    apply array_get_defined; [done | lia]].
  erewrite bind_Done by apply (fire_run host). reflexivity.
Qed.

Lemma defaultOf_defined f r : defined_for f (defaultOf f r) = true.
Proof. by destruct f. Qed.

Lemma clearValue_solo s :
  installed (u s) = true →
  clearValue host s =
    if _isFrozen (u s) || bool_decide (_emitCount (u s) = 0) || emptyOf (u s)
    then Done false s else Done true (valueCleared s).
Proof.
  intros Hi. rewrite (clearValue_run host s Hi).
  change (host_getU host s) with (u s).
  destruct (_ || _ || _); [done|].
  erewrite bind_Done; [| apply updateValueAndCache_solo; apply defaultOf_defined].
  erewrite bind_Done by apply (fire_run host). reflexivity.
Qed.

Lemma initialOf_defined x r :
  defined_for (flavor x) (initialOf x r) = true.
Proof.
  unfold initialOf. destruct (is_undefined _) eqn:E; [apply defaultOf_defined|].
  unfold defined_for. by rewrite E.
Qed.

Lemma resetValue_solo s :
  installed (u s) = true →
  resetValue host s =
    if _isFrozen (u s) then Done false s
    else if strict_eq (_value (u s)) (initialOf (u s) (next_ref (w s)))
    then Done false {| u := u s; w := initialAllocated (u s) (w s) |}
    else Done true (valueReset s).
Proof.
  intros Hi. rewrite (resetValue_run host s Hi).
  change (host_getU host s) with (u s). change (host_getW host s) with (w s).
  destruct (_isFrozen _); [done|]. destruct (strict_eq _ _); [done|].
  erewrite bind_Done; [| apply updateValueAndCache_solo; apply initialOf_defined].
  erewrite bind_Done by apply (fire_run host). reflexivity.
Qed.

Lemma clearCache_solo o s :
  clearCache host o s =
    if clearCacheRefused (u s) o then Done false s
    else Done true (cacheClearedState o s).
Proof. by rewrite (clearCache_run host). Qed.
End SoloRuns2.

(** ** The cache *)

Lemma count_gt_mono m n c :
  m ≤ n → count_gt n c = false → count_gt m c = false.
Proof.
  intros Hmn. destruct c as [| | |q]; simpl; try done.
  rewrite !negb_false_iff, !Qle_bool_iff. intros H.
  eapply Qle_trans; [|exact H]. unfold Qc_of_Z. simpl.
  rewrite <- Zle_Qle. lia.
Qed.

Lemma count_gt_max1 c : isNumber (VNum c) = true → count_gt 1 (max1 c) = false.
Proof.
  destruct c as [| | |q]; try done. intros _. unfold max1.
  destruct (Qle_bool 1%Qc q) eqn:E; [|reflexivity].
  unfold count_gt. apply negb_false_iff. exact E.
Qed.

Lemma blank_capacity f cfg :
  capacity_positive (blank f cfg) ∧
  (Cfg.cacheSize cfg = None → cacheSize (blank f cfg) = Fin 2).
Proof.
  unfold capacity_positive. simpl. split; [|by intros ->].
  destruct (Cfg.cacheSize cfg) as [c|]; [|reflexivity].
  pose proof (count_gt_max1 c) as H. unfold isNumber in *.
  destruct c; try reflexivity; by apply H.
Qed.

Section Cache.
Implicit Types (x : Unit) (v : Value).

Lemma array_set_lookup i v (l : list Value) :
  i ≤ List.length l - 1 → array_set i v l !! i = Some v.
Proof.
  intros Hi. unfold array_set. case_decide.
  - by apply list_lookup_insert_eq.
  - assert (List.length l = 0 ∧ i = 0) as [Hl ->] by lia.
    destruct l; [reflexivity | simpl in Hl; lia].
Qed.

Lemma array_set_length i v (l : list Value) :
  i ≤ List.length l - 1 →
  List.length (array_set i v l) = Nat.max 1 (List.length l).
Proof.
  intros Hi. unfold array_set. case_decide.
  - rewrite length_insert. lia.
  - assert (List.length l = 0 ∧ i = 0) as [Hl ->] by lia.
    destruct l; [reflexivity | simpl in Hl; lia].
Qed.

Lemma cacheAfter_at v cr x :
  _cacheIndex x ≤ List.length (_cachedValues x) - 1 →
  capacity_positive x →
  (cacheAfter v cr x).1 !! (cacheAfter v cr x).2 = Some v.
Proof.
  intros Hi Hc. unfold cacheAfter.
  destruct (is_true cr); simpl; [by apply array_set_lookup|].
  destruct (bool_decide (List.length (_cachedValues x) = 0)
            || bool_decide (_cacheIndex x = List.length (_cachedValues x) - 1)) eqn:E; simpl.
  - destruct (count_gt (List.length (_ ++ _)) _) eqn:Eg.
    + destruct (_cachedValues x) as [|a l] eqn:El; simpl in *.
      { unfold capacity_positive in Hc. congruence. }
      rewrite drop_0, length_app. simpl.
      replace (List.length l + 1 - 1) with (List.length l) by lia.
      rewrite lookup_app_r by lia. by rewrite Nat.sub_diag.
    + rewrite length_app. simpl.
      replace (List.length (_cachedValues x) + 1 - 1)
        with (List.length (_cachedValues x)) by lia.
      rewrite lookup_app_r by lia. by rewrite Nat.sub_diag.
  - apply orb_false_elim in E as [E1 E2].
    apply bool_decide_eq_false in E1, E2.
    rewrite lookup_app_r; rewrite length_take; [|lia].
    replace (S (_cacheIndex x) - (_cacheIndex x + 1) `min` List.length (_cachedValues x))
      with 0 by lia.
    reflexivity.
Qed.

Lemma cacheAfter_bound v cr x :
  _cacheIndex x ≤ List.length (_cachedValues x) - 1 →
  capacity_positive x → within_capacity x →
  count_gt (List.length (cacheAfter v cr x).1) (cacheSize x) = false.
Proof.
  unfold capacity_positive, within_capacity. intros Hi Hc Hw. unfold cacheAfter.
  destruct (is_true cr); simpl.
  { rewrite array_set_length by done.
    destruct (List.length (_cachedValues x)); [done|].
    by replace (1 `max` S n) with (S n) by lia. }
  destruct (bool_decide (List.length (_cachedValues x) = 0)
            || bool_decide (_cacheIndex x = List.length (_cachedValues x) - 1)) eqn:E; simpl.
  - destruct (count_gt (List.length (_ ++ _)) _) eqn:Eg; [|done].
    rewrite length_drop, length_app. simpl.
    by replace (List.length (_cachedValues x) + 1 - 1)
      with (List.length (_cachedValues x)) by lia.
  - apply orb_false_elim in E as [E1 E2].
    apply bool_decide_eq_false in E1, E2.
    eapply count_gt_mono; [|exact Hw].
    rewrite length_app, length_take. simpl. lia.
Qed.

Lemma cacheAfter_index v cr x :
  _cacheIndex x ≤ List.length (_cachedValues x) - 1 →
  (cacheAfter v cr x).2 ≤ List.length (cacheAfter v cr x).1 - 1.
Proof.
  intros Hi. unfold cacheAfter.
  destruct (is_true cr); simpl.
  { rewrite array_set_length by done. lia. }
  destruct (bool_decide (List.length (_cachedValues x) = 0)
            || bool_decide (_cacheIndex x = List.length (_cachedValues x) - 1)) eqn:E; simpl.
  - done.
  - apply orb_false_elim in E as [E1 E2].
    apply bool_decide_eq_false in E1, E2.
    rewrite length_app, length_take. simpl. lia.
Qed.

Lemma forallb_app_true {A} (P : A → bool) l1 l2 :
  forallb P l1 = true → forallb P l2 = true → forallb P (l1 ++ l2) = true.
Proof. intros. rewrite forallb_app. by apply andb_true_intro. Qed.

Lemma forallb_take {A} (P : A → bool) n l :
  forallb P l = true → forallb P (take n l) = true.
Proof.
  revert n. induction l as [|a l IH]; intros [|n]; simpl; try done.
  intros [-> H]%andb_prop. simpl. by apply IH.
Qed.

Lemma forallb_drop {A} (P : A → bool) n l :
  forallb P l = true → forallb P (drop n l) = true.
Proof.
  revert n. induction l as [|a l IH]; intros [|n]; simpl; try done.
  intros [_ H]%andb_prop. by apply IH.
Qed.

Lemma forallb_insert {A} (P : A → bool) i a l :
  P a = true → forallb P l = true → forallb P (<[i:=a]> l) = true.
Proof.
  revert i. induction l as [|b l IH]; intros [|i] Ha; simpl; try done.
  - intros [_ H]%andb_prop. by rewrite Ha.
  - intros [-> H]%andb_prop. simpl. by apply IH.
Qed.

Lemma cacheAfter_defined v cr x f :
  _cacheIndex x ≤ List.length (_cachedValues x) - 1 →
  defined_for f v = true →
  forallb (defined_for f) (_cachedValues x) = true →
  forallb (defined_for f) (cacheAfter v cr x).1 = true.
Proof.
  intros Hi Hv Hall. unfold cacheAfter.
  destruct (is_true cr); simpl.
  { unfold array_set. case_decide; [by apply forallb_insert|].
    assert (List.length (_cachedValues x) = 0 ∧ _cacheIndex x = 0) as [Hl ->] by lia.
    destruct (_cachedValues x); [simpl; by rewrite Hv | simpl in Hl; lia]. }
  destruct (_ || _); simpl.
  - destruct (count_gt _ _); [apply forallb_drop|];
      apply forallb_app_true; simpl; by rewrite ?Hv.
  - apply forallb_app_true; [by apply forallb_take | simpl; by rewrite Hv].
Qed.
End Cache.

(** ** Admission *)

Section Admission.
Import Solo.

Lemma admits_iff x v force :
  admits x v force = true ↔ accepted_by_rule x v force.
Proof.
  unfold admits, accepted_by_rule, custom_ok, distinct_ok.
  destruct (_isFrozen x); simpl; [naive_solver|].
  destruct (isValidValue (flavor x) v); simpl; [|naive_solver].
  destruct force as [[|]|]; simpl; [naive_solver| |];
    (destruct (Cfg.customDispatchCheck (config x)) as [check|];
     [destruct (truthy (check (_value x) v)) eqn:Et|];
     destruct (Cfg.distinctDispatchCheck (config x)) as [[|]|]; simpl;
     destruct (strict_eq v (_value x)); simpl; naive_solver).
Qed.

(** C1.  A dispatch without debounce is accepted exactly when the Unit is
    not frozen, the value passes the type check of the flavour, and either
    [force] is set or both the custom check (if any) and the distinct
    check (if on) let it through; [wouldDispatch] computes that rule and
    [dispatchActual] returns its verdict whenever the optional
    serializability check does not throw. *)
Theorem dispatch_accepted_iff (s : Solo.t) (p : Proposal)
    (options : option DispatchOptions) :
  installed (u s) = true →
  let v := (proposed p (u s) (w s)).1 in
  let w1 := (proposed p (u s) (w s)).2 in
  (∃ b, wouldDispatch host v (options ≫= force) s = Done b s
        ∧ (b = true ↔ accepted_by_rule (u s) v (options ≫= force)))
  ∧ (serializabilityChecked w1 v = true →
     ∃ b s', dispatchActual host p options s = Done b s'
             ∧ (b = true ↔ accepted_by_rule (u s) v (options ≫= force)))
  ∧ (serializabilityChecked w1 v = false →
     ∃ e, dispatchActual host p options s = Thrown e {| u := u s; w := w1 |}).
Proof.
  intros Hi v w1. split; [|split].
  - exists (admits (u s) v (options ≫= force)). split.
    + apply (wouldDispatch_run host s v _ Hi).
    + apply admits_iff.
  - intros Hs. rewrite (dispatchActual_solo p options s Hi).
    fold v w1. simpl. rewrite Hs.
    destruct (admits (u s) v (options ≫= force)) eqn:Ha.
    + eexists _, _. split; [reflexivity|]. rewrite <- admits_iff. by rewrite Ha.
    + eexists _, _. split; [reflexivity|]. rewrite <- admits_iff. by rewrite Ha.
  - intros Hs. rewrite (dispatchActual_solo p options s Hi).
    fold v w1. simpl. rewrite Hs. by eexists.
Qed.
End Admission.

Lemma dispatch_accepted_iff_witness :
  ∃ b s', dispatchActual Solo.host (Direct (num 1)) None numUnit5 = Done b s'
          ∧ (b = true ↔ accepted_by_rule (Solo.u numUnit5) (num 1) None).
Proof.
  apply (dispatch_accepted_iff numUnit5 (Direct (num 1)) None); reflexivity.
Defined.

(** ** Rejections and the frozen state *)

Section Rejection.
Import Solo.

Lemma reasonOf_cases x v :
  let reason := reasonOf x v in
  (reason = FROZEN_UNIT ↔ _isFrozen x = true) ∧
  (reason = INVALID_VALUE ↔
     _isFrozen x = false ∧ isValidValue (flavor x) v = false) ∧
  (reason = DISTINCT_CHECK ↔
     _isFrozen x = false ∧ isValidValue (flavor x) v = true
     ∧ distinct_ok x v = false) ∧
  (reason = CUSTOM_DISPATCH_CHECK ↔
     _isFrozen x = false ∧ isValidValue (flavor x) v = true
     ∧ distinct_ok x v = true).
Proof.
  unfold reasonOf.
  destruct (_isFrozen x), (isValidValue (flavor x) v), (distinct_ok x v);
    simpl; naive_solver.
Qed.

(** C5 (as amended).  A rejected dispatch of a Unit whose event stream
    exists and that is not muted reports exactly one reason, in the order
    the code evaluates: [FROZEN_UNIT] when frozen; otherwise
    [INVALID_VALUE] when the type check fails; otherwise [DISTINCT_CHECK]
    when the distinct check refuses the value; otherwise
    [CUSTOM_DISPATCH_CHECK], and then the custom check did refuse it. *)
Theorem rejection_reason (s : Solo.t) (p : Proposal)
    (options : option DispatchOptions) (log : list UnitEvent) :
  installed (u s) = true →
  eventsSubject (u s) = Some log →
  _isMuted (u s) = false →
  let v := (proposed p (u s) (w s)).1 in
  serializabilityChecked (proposed p (u s) (w s)).2 v = true →
  admits (u s) v (options ≫= force) = false →
  ∃ reason s',
    dispatchActual host p options s = Done false s'
    ∧ eventsSubject (u s') = Some (EventUnitDispatchFail v reason options :: log)
    ∧ (reason = FROZEN_UNIT ↔ _isFrozen (u s) = true)
    ∧ (reason = INVALID_VALUE ↔
         _isFrozen (u s) = false ∧ isValidValue (flavor (u s)) v = false)
    ∧ (reason = DISTINCT_CHECK ↔
         _isFrozen (u s) = false ∧ isValidValue (flavor (u s)) v = true
         ∧ distinct_ok (u s) v = false)
    ∧ (reason = CUSTOM_DISPATCH_CHECK ↔
         _isFrozen (u s) = false ∧ isValidValue (flavor (u s)) v = true
         ∧ distinct_ok (u s) v = true)
    ∧ (reason = CUSTOM_DISPATCH_CHECK →
         custom_ok (u s) v = false ∧ options ≫= force ≠ Some true).
Proof.
  intros Hi He Hm v Hs Ha.
  exists (reasonOf (u s) v). eexists.
  rewrite (dispatchActual_solo p options s Hi). fold v. simpl. rewrite Hs, Ha.
  split; [reflexivity|]. split.
  { simpl. by rewrite He, Hm. }
  destruct (reasonOf_cases (u s) v) as (H1 & H2 & H3 & H4).
  split; [exact H1|]. split; [exact H2|]. split; [exact H3|]. split; [exact H4|].
  intros H. apply H4 in H as (Hf & Hv & Hd). unfold admits in Ha.
  rewrite Hf, Hv, Hd in Ha. simpl in Ha. split.
  - destruct (is_true (options ≫= force)); simpl in Ha; [done|].
    by rewrite andb_true_r in Ha.
  - intros Hforce. by rewrite Hforce in Ha.
Qed.

Lemma rejection_reason_witness :
  ∃ reason s',
    dispatchActual host (Direct (num 5)) None guardedUnit = Done false s'
    ∧ eventsSubject (u s')
      = Some [EventUnitDispatchFail (num 5) reason None]
    ∧ (reason = DISTINCT_CHECK ↔
         _isFrozen (u guardedUnit) = false
         ∧ isValidValue (flavor (u guardedUnit)) (num 5) = true
         ∧ distinct_ok (u guardedUnit) (num 5) = false).
Proof.
  destruct (rejection_reason guardedUnit (Direct (num 5)) None [])
    as (reason & s' & H1 & H2 & _ & _ & H3 & _); try reflexivity.
  by exists reason, s'.
Defined.

(** When both the custom check and the distinct check refuse the value,
    the reason reported is [DISTINCT_CHECK], not [CUSTOM_DISPATCH_CHECK]. *)
Lemma both_checks_reject_reports_distinct :
  custom_ok (u guardedUnit) (num 5) = false
  ∧ distinct_ok (u guardedUnit) (num 5) = false
  ∧ ∃ s', dispatchActual host (Direct (num 5)) None guardedUnit = Done false s'
          ∧ eventsSubject (u s')
            = Some [EventUnitDispatchFail (num 5) DISTINCT_CHECK None]
          ∧ DISTINCT_CHECK ≠ CUSTOM_DISPATCH_CHECK.
Proof. split; [reflexivity|]. split; [reflexivity|]. eexists. by vm_compute. Qed.
End Rejection.

Section Frozen.
Import Solo.

(** C3 (as amended).  On a frozen Unit every dispatch returns [false] or is
    a no-op: it returns [false] and leaves the emit count, the value and
    the cache as they are, or (a value that is not serializable, with the
    serializability check on) it throws before the frozen test and leaves
    the Unit as it is; [jump], [goBack], [goForward], [jumpToStart],
    [jumpToEnd], [clearValue], [resetValue] and [clearCache] return
    [false] and change nothing. *)
Theorem frozen_unit_refuses (s : Solo.t) :
  installed (u s) = true →
  _isFrozen (u s) = true →
  (∀ p options,
     match dispatchActual host p options s with
     | Done b s' =>
         b = false ∧ _emitCount (u s') = _emitCount (u s)
         ∧ _value (u s') = _value (u s)
         ∧ _cachedValues (u s') = _cachedValues (u s)
         ∧ _cacheIndex (u s') = _cacheIndex (u s)
         ∧ _isFrozen (u s') = true
     | Thrown _ s' => u s' = u s
     | OutOfFuel => False
     end)
  ∧ (∀ steps, jump host steps s = Done false s)
  ∧ goBack host s = Done false s
  ∧ goForward host s = Done false s
  ∧ jumpToStart host s = Done false s
  ∧ jumpToEnd host s = Done false s
  ∧ clearValue host s = Done false s
  ∧ resetValue host s = Done false s
  ∧ (∀ options, clearCache host options s = Done false s).
Proof.
  intros Hi Hf.
  assert (Hj : ∀ steps, jump host steps s = Done false s).
  { intros steps. rewrite (jump_run host). unfold jumpRefused. simpl. by rewrite Hf. }
  repeat split; try apply Hj.
  - intros p options. rewrite (dispatchActual_solo p options s Hi). simpl.
    destruct (serializabilityChecked _ _); [|done].
    unfold admits. rewrite Hf. simpl. by rewrite Hf.
  - rewrite (clearValue_solo s Hi). by rewrite Hf.
  - rewrite (resetValue_solo s Hi). by rewrite Hf.
  - intros o. rewrite clearCache_solo. unfold clearCacheRefused. by rewrite Hf.
Qed.

Lemma frozen_unit_refuses_witness :
  goBack host numUnit7_frozen = Done false numUnit7_frozen
  ∧ clearValue host numUnit7_frozen = Done false numUnit7_frozen.
Proof.
  destruct (frozen_unit_refuses numUnit7_frozen) as (_&_&H1&_&_&_&H2&_);
    [reflexivity | reflexivity | by split].
Defined.

(** [clear()] and [reset()] unfreeze a frozen Unit and then emit. *)
Lemma clear_and_reset_unfreeze_and_emit :
  _isFrozen (u numUnit7_frozen) = true
  ∧ (∃ s', clear host None numUnit7_frozen = Done tt s'
           ∧ _emitCount (u s') = S (_emitCount (u numUnit7_frozen))
           ∧ _isFrozen (u s') = false)
  ∧ (∃ s', reset host None numUnit7_frozen = Done tt s'
           ∧ _emitCount (u s') = S (_emitCount (u numUnit7_frozen))
           ∧ _isFrozen (u s') = false).
Proof. split; [reflexivity|]. split; eexists; by vm_compute. Qed.
End Frozen.

(** ** Clearing and resetting the value *)

Section Direct.
Import Solo.

(** C10.  On a Unit that is not frozen, [clearValue] (when the Unit has
    emitted and is not empty) and [resetValue] (when the value is not
    [===] the initial one) return [true], make the default, respectively
    the initial, value the current one and push it (the push waits for
    [unmute] on a muted Unit), whatever [customDispatchCheck] and
    [distinctDispatchCheck] are configured: no check of the admission
    rule is evaluated. *)
Theorem clearValue_resetValue_install_directly (s : Solo.t) :
  installed (u s) = true →
  _isFrozen (u s) = false →
  let pushed (s' : Solo.t) :=
    _emitCount (u s')
    = (if _isMuted (u s) then _emitCount (u s) else S (_emitCount (u s)))
    ∧ emitOnUnmute (u s') = _isMuted (u s) in
  (_emitCount (u s) ≠ 0 → emptyOf (u s) = false →
   ∃ s', clearValue host s = Done true s'
         ∧ _value (u s') = defaultOf (flavor (u s)) (next_ref (w s))
         ∧ pushed s')
  ∧ (strict_eq (_value (u s)) (initialOf (u s) (next_ref (w s))) = false →
     ∃ s', resetValue host s = Done true s'
           ∧ _value (u s')
             = initialOf (u s) (next_ref (initialAllocated (u s) (w s)))
           ∧ pushed s').
Proof.
  intros Hi Hf pushed. split.
  - intros Hn He. rewrite (clearValue_solo s Hi), Hf, He.
    rewrite bool_decide_eq_false_2 by done. simpl.
    eexists. split; [reflexivity|]. split; [reflexivity|].
    unfold pushed. simpl. by destruct (_isMuted (u s)).
  - intros Hne. rewrite (resetValue_solo s Hi), Hf, Hne.
    eexists. split; [reflexivity|]. split; [reflexivity|].
    unfold pushed. simpl. by destruct (_isMuted (u s)).
Qed.

Lemma clearValue_resetValue_install_directly_witness :
  admits (u guardedUnit7) (VNum (Fin 0)) None = false
  ∧ admits (u guardedUnit7) (num 5) None = false
  ∧ (∃ s', clearValue host guardedUnit7 = Done true s'
           ∧ _value (u s') = VNum (Fin 0) ∧ _emitCount (u s') = 3)
  ∧ (∃ s', resetValue host guardedUnit7 = Done true s'
           ∧ _value (u s') = num 5 ∧ _emitCount (u s') = 3).
Proof.
  destruct (clearValue_resetValue_install_directly guardedUnit7)
    as [Hc Hr]; [reflexivity | reflexivity |].
  split; [reflexivity|]. split; [reflexivity|]. split.
  - destruct Hc as (s' & H1 & H2 & H3 & _); [done | reflexivity |].
    exists s'. split; [exact H1|]. split; [exact H2 | exact H3].
  - destruct Hr as (s' & H1 & H2 & H3 & _); [reflexivity |].
    exists s'. split; [exact H1|]. split; [exact H2 | exact H3].
Defined.
End Direct.

(** ** The cache invariant *)

Section History.
Import Solo.

Lemma wf_parts x :
  wf x = true ↔
  installed x = true ∧ forallb (defined_for (flavor x)) (_cachedValues x) = true
  ∧ _cacheIndex x ≤ List.length (_cachedValues x) - 1.
Proof.
  unfold wf. rewrite !andb_true_iff, bool_decide_eq_true. tauto.
Qed.

(** Storing a value without skipping the cache. *)
Lemma installing_bounded v o s :
  bounded (u s) → defined_for (flavor (u s)) v = true →
  bounded (u (installing v o false s))
  ∧ history_at_current (u (installing v o false s)).
Proof.
  intros (Hwf & Hc & Hw) Hv. apply wf_parts in Hwf as (Hi & Hall & Hidx).
  unfold bounded, history_at_current, capacity_positive, within_capacity. simpl.
  split; [split; [|split]|].
  - apply wf_parts. simpl. split; [exact Hv|]. split.
    + by apply cacheAfter_defined.
    + by apply cacheAfter_index.
  - exact Hc.
  - by apply cacheAfter_bound.
  - by apply cacheAfter_at.
Qed.

(** Re-installing the cached value at an index, as [jump] does. *)
Lemma installing_at_index_bounded i s :
  bounded (u s) → i ≤ List.length (_cachedValues (u s)) - 1 →
  0 < List.length (_cachedValues (u s)) →
  let s0 := {| u := with_cache (_cachedValues (u s)) i (u s); w := w s |} in
  bounded (u (installing (array_get i (_cachedValues (u s))) None true s0))
  ∧ history_at_current (u (installing (array_get i (_cachedValues (u s))) None true s0)).
Proof.
  intros (Hwf & Hc & Hw) Hi Hlen. apply wf_parts in Hwf as (Hinst & Hall & Hidx).
  unfold bounded, history_at_current, capacity_positive, within_capacity. simpl.
  split; [split; [|split]|]; try done.
  - apply wf_parts. simpl. split; [|split]; try done.
    apply array_get_defined; [done|lia].
  - unfold array_get. destruct (_ !! i) eqn:E; [done|].
    apply lookup_ge_None in E. lia.
Qed.

Lemma bounded_fired e x : bounded (fired e x) ↔ bounded x.
Proof. reflexivity. Qed.

Lemma bounded_world x w1 w2 :
  bounded (u {| u := x; w := w1 |}) ↔ bounded (u {| u := x; w := w2 |}).
Proof. reflexivity. Qed.

Lemma splice_length (l : list Value) start n :
  List.length (splice start n l) ≤ List.length l.
Proof. unfold splice. rewrite length_app, length_take, length_drop. lia. Qed.

Lemma cacheCleared_bounded o x :
  bounded x → bounded (cacheCleared o x).
Proof.
  intros (Hwf & Hc & Hw). apply wf_parts in Hwf as (Hinst & Hall & Hidx).
  unfold bounded, capacity_positive, within_capacity. simpl.
  split; [|split]; [|done|].
  - apply wf_parts. simpl. split; [done|]. split; [|done].
    unfold splice. apply forallb_app_true; [by apply forallb_take|by apply forallb_drop].
  - eapply count_gt_mono; [apply splice_length|exact Hw].
Qed.

Lemma jump_bounded steps s b s' :
  bounded (u s) → jump host steps s = Done b s' →
  bounded (u s') ∧ (b = true → history_at_current (u s'))
  ∧ (b = false → s' = s).
Proof.
  intros Hb. pose proof Hb as (Hwf & _ & _).
  rewrite (jump_solo steps s Hwf).
  destruct (jumpRefused (u s) steps) eqn:Hr.
  { intros [= <- <-]. split; [exact Hb|]. by split. }
  intros [= <- <-].
  unfold jumpRefused in Hr.
  apply orb_false_elim in Hr as [Hr H3]. apply orb_false_elim in Hr as [Hr H2].
  apply orb_false_elim in Hr as [H0 H1].
  apply bool_decide_eq_false in H1, H2, H3.
  destruct (installing_at_index_bounded
              (Z.to_nat (Z.of_nat (_cacheIndex (u s)) + steps)) s Hb) as [H4 H5];
    [lia | lia |].
  split; [exact H4|]. split; [intros _; exact H5 | done].
Qed.

Lemma dispatch_bounded p o s b s' :
  bounded (u s) → dispatchActual host p o s = Done b s' →
  bounded (u s') ∧ (b = true → history_at_current (u s'))
  ∧ (b = false → history_at_current (u s) → history_at_current (u s')).
Proof.
  intros Hb. pose proof Hb as (Hwf & _ & _).
  apply wf_parts in Hwf as (Hi & _ & _).
  rewrite (dispatchActual_solo p o s Hi). simpl.
  destruct (serializabilityChecked _ _); [|done].
  destruct (admits _ _ _) eqn:Ha; intros [= <- <-].
  - set (v := (proposed p (u s) (w s)).1) in *.
    set (w1 := (proposed p (u s) (w s)).2) in *.
    assert (Hd : defined_for (flavor (u s)) (copied (u s) v w1).1 = true).
    { rewrite copied_defined. apply valid_defined.
      unfold admits in Ha. by destruct (_isFrozen _), (isValidValue _ _). }
    destruct (installing_bounded (copied (u s) v w1).1 o
                {| u := u s; w := (copied (u s) v w1).2 |} Hb Hd) as [H1 H2].
    split; [exact H1|]. split; [intros _; exact H2 | done].
  - split; [exact Hb|]. split; [done | intros _ H; exact H].
Qed.

Lemma clearValue_bounded s b s' :
  bounded (u s) → clearValue host s = Done b s' →
  bounded (u s') ∧ (b = true → history_at_current (u s'))
  ∧ (b = false → s' = s).
Proof.
  intros Hb. pose proof Hb as (Hwf & _ & _).
  apply wf_parts in Hwf as (Hi & _ & _).
  rewrite (clearValue_solo s Hi).
  destruct (_ || _ || _); intros [= <- <-]; [split; [exact Hb|]; by split|].
  destruct (installing_bounded (defaultOf (flavor (u s)) (next_ref (w s))) None
              {| u := u s; w := allocated (flavor (u s)) (w s) |} Hb
              (defaultOf_defined _ _)) as [H1 H2].
  split; [exact H1|]. split; [intros _; exact H2 | done].
Qed.

Lemma resetValue_bounded s b s' :
  bounded (u s) → resetValue host s = Done b s' →
  bounded (u s') ∧ (b = true → history_at_current (u s'))
  ∧ (b = false → u s' = u s).
Proof.
  intros Hb. pose proof Hb as (Hwf & _ & _).
  apply wf_parts in Hwf as (Hi & _ & _).
  rewrite (resetValue_solo s Hi).
  destruct (_isFrozen _); [intros [= <- <-]; split; [exact Hb|]; by split|].
  destruct (strict_eq _ _); intros [= <- <-]; [split; [exact Hb|]; by split|].
  destruct (installing_bounded
              (initialOf (u s) (next_ref (initialAllocated (u s) (w s)))) None
              {| u := u s;
                 w := initialAllocated (u s) (initialAllocated (u s) (w s)) |} Hb
              (initialOf_defined _ _)) as [H1 H2].
  split; [exact H1|]. split; [intros _; exact H2 | done].
Qed.

(** C2 (as amended).  For a well-formed Unit whose index is a whole number
    and whose cache holds at most [cacheSize] values ([cacheSize ≥ 1], 2 by
    default): every accepted dispatch (with or without [cacheReplace]),
    every successful navigation by a whole number of steps ([goBack],
    [goForward], [jumpToStart], [jumpToEnd], [jump(n)] for a whole [n]),
    [clearValue] and [resetValue] leave the current value at
    [cachedValues[cacheIndex]] and the cache within its capacity, the
    oldest value being dropped when a push overflows; an operation that
    is refused changes neither.  [clearCache] keeps the cache within its
    capacity and the value as it is, removes the values between the ends
    it is asked to leave and moves the index to the last remaining slot:
    it does not keep [cachedValues[cacheIndex]] equal to the value. *)
Theorem history_invariant (s : Solo.t) :
  bounded (u s) →
  (∀ op b s',
     runHistoryOp op s = Done b s' →
     bounded (u s')
     ∧ (b = true → history_at_current (u s'))
     ∧ (b = false → history_at_current (u s) → history_at_current (u s')))
  ∧ (∀ options b s',
       clearCache host options s = Done b s' →
       bounded (u s') ∧ _value (u s') = _value (u s)
       ∧ (b = true →
          _cachedValues (u s') =
            splice (if is_true (options ≫= leaveFirst) then 1 else 0)
                   (List.length (_cachedValues (u s))
                    - (if is_true (options ≫= leaveFirst) then 1 else 0)
                    - (if is_true (options ≫= leaveLast) then 1 else 0))
                   (_cachedValues (u s))
          ∧ _cacheIndex (u s') = List.length (_cachedValues (u s')) - 1)
       ∧ (b = false → s' = s))
  ∧ (∀ v options s',
       dispatchActual host (Direct v) options s = Done true s' →
       is_true (options ≫= cacheReplace) = false →
       _cacheIndex (u s) = List.length (_cachedValues (u s)) - 1 →
       count_gt (S (List.length (_cachedValues (u s)))) (cacheSize (u s)) = true →
       _cachedValues (u s') = drop 1 (_cachedValues (u s) ++ [_value (u s')]))
  ∧ (∀ f cfg,
       capacity_positive (blank f cfg)
       ∧ (Cfg.cacheSize cfg = None → cacheSize (blank f cfg) = Fin 2)).
Proof.
  intros Hb. split; [|split; [|split]].
  - intros op b s'. destruct op; simpl.
    + apply dispatch_bounded, Hb.
    + intros H. destruct (jump_bounded _ _ _ _ Hb H) as (?&?&Hs).
      split; [done|]. split; [done|]. intros Hbf Hh. apply Hs in Hbf as ->. done.
    + intros H. destruct (jump_bounded _ _ _ _ Hb H) as (?&?&Hs).
      split; [done|]. split; [done|]. intros Hbf Hh. apply Hs in Hbf as ->. done.
    + intros H. destruct (jump_bounded _ _ _ _ Hb H) as (?&?&Hs).
      split; [done|]. split; [done|]. intros Hbf Hh. apply Hs in Hbf as ->. done.
    + intros H. destruct (jump_bounded _ _ _ _ Hb H) as (?&?&Hs).
      split; [done|]. split; [done|]. intros Hbf Hh. apply Hs in Hbf as ->. done.
    + intros H. destruct (jump_bounded _ _ _ _ Hb H) as (?&?&Hs).
      split; [done|]. split; [done|]. intros Hbf Hh. apply Hs in Hbf as ->. done.
    + intros H. destruct (clearValue_bounded _ _ _ Hb H) as (?&?&Hs).
      split; [done|]. split; [done|]. intros Hbf Hh. apply Hs in Hbf as ->. done.
    + intros H. destruct (resetValue_bounded _ _ _ Hb H) as (?&?&Hs).
      split; [done|]. split; [done|]. intros Hbf Hh. apply Hs in Hbf.
      unfold history_at_current. by rewrite Hbf.
  - intros o b s'. rewrite clearCache_solo.
    destruct (clearCacheRefused _ _); intros [= <- <-].
    + split; [exact Hb|]. by repeat split.
    + split; [by apply cacheCleared_bounded|]. by repeat split.
  - intros v o s' Hrun Hcr Hidx Hfull.
    destruct Hb as (Hwf & _ & _). apply wf_parts in Hwf as (Hi & _ & _).
    rewrite (dispatchActual_solo (Direct v) o s Hi) in Hrun. simpl in Hrun.
    destruct (serializabilityChecked _ _); [|done].
    destruct (admits _ _ _); [|done]. injection Hrun as <-.
    simpl. unfold cacheAfter. rewrite Hcr. simpl.
    rewrite (bool_decide_eq_true_2 _ Hidx), orb_true_r.
    rewrite length_app. simpl. rewrite Nat.add_1_r, Hfull. reflexivity.
  - apply blank_capacity.
Qed.
End History.

Section HistoryWitness.
Import Solo.

Lemma numUnit5_bounded : bounded (u numUnit5).
Proof. by vm_compute. Qed.

Lemma history_invariant_witness :
  ∃ s', dispatch host (Direct (num 7)) None numUnit5 = Done true s'
        ∧ history_at_current (u s').
Proof.
  destruct (history_invariant numUnit5 numUnit5_bounded) as [H _].
  eexists. split; [by vm_compute|].
  refine (proj1 (proj2 (H (OpDispatch (Direct (num 7)) None) true _ _)) eq_refl).
  by vm_compute.
Defined.

(** After [clearCache()] the cache is empty: nothing is at the index. *)
Lemma clearCache_loses_current :
  bounded (u numUnit5) ∧ history_at_current (u numUnit5)
  ∧ ∃ s', clearCache host None numUnit5 = Done true s'
          ∧ _cachedValues (u s') = []
          ∧ ¬ history_at_current (u s').
Proof.
  split; [apply numUnit5_bounded|]. split; [by vm_compute|].
  eexists. split; [by vm_compute|]. split; [reflexivity|].
  unfold history_at_current. simpl. done.
Qed.
End HistoryWitness.

(** ** A dispatch after going back *)

Section Branching.
Import Solo.






End Branching.

Section BranchingWitness.
Import Solo.


End BranchingWitness.

(** ** Selection paths *)

Section Paths.
Context {St : Type}.

Lemma checkPath_run (path : list Value) (s : St) :
  (∃ e, checkPath path s = Thrown e s)
  ↔ path = [] ∨ ∃ key, key ∈ path ∧ isKeyPerCode key = false.
Proof.
  unfold checkPath, isKeyPerCode. destruct path as [|k path].
  { simpl. split; [by left | intros _; by eexists]. }
  rewrite bool_decide_eq_false_2 by done.
  destruct (list_find isInvalidKey (k :: path)) as [[i key]|] eqn:E.
  - apply list_find_Some in E as (Hl & Hp & _).
    split; [|intros _; by eexists].
    intros _. right. exists key. split; [by eapply list_elem_of_lookup_2|].
    apply Is_true_true in Hp. revert Hp. unfold isInvalidKey.
    by destruct (is_string key), (is_number key).
  - split; [by intros [e He]|].
    intros [|[key [Hin Hk]]]; [done|].
    apply list_find_None in E. rewrite Forall_forall in E.
    specialize (E key Hin). exfalso. apply E.
    apply Is_true_true. revert Hk. unfold isInvalidKey.
    by destruct (is_string key), (is_number key).
Qed.

Lemma checkPath_total (path : list Value) (s : St) :
  checkPath path s = Done tt s ∨ ∃ e, checkPath path s = Thrown e s.
Proof.
  unfold checkPath. destruct (bool_decide _); [right; by eexists|].
  destruct (list_find isInvalidKey path) as [[i key]|]; [right; by eexists | by left].
Qed.

(** C9 (as amended).  Constructing a Selection throws exactly when the Unit
    is not a non-primitive one, or the path is empty, or some segment is
    neither a string nor a number; otherwise it returns the Selection.
    Any number is a valid segment, negative or fractional ones too. *)
Theorem Selection_constructor_fails_iff (unit : Flavor) (path : list Value) (s : St) :
  ((∃ e, Selection_constructor unit path s = Thrown e s)
   ↔ isNonPrimitiveUnit unit = false ∨ path = []
     ∨ ∃ key, key ∈ path ∧ isKeyPerCode key = false)
  ∧ (Selection_constructor unit path s
       = Done {| sel_unit := unit; sel_path := path |} s
     ∨ ∃ e, Selection_constructor unit path s = Thrown e s).
Proof.
  unfold Selection_constructor.
  destruct (isNonPrimitiveUnit unit); simpl.
  - pose proof (checkPath_run path s) as Hr.
    destruct (checkPath_total path s) as [Hd|[e He]]; unfold bind.
    + rewrite Hd in *. split; [|by left].
      split; [by intros [e He] | intros [|H]; [done|]].
      apply Hr in H as [e He]. done.
    + rewrite He in *. split; [|right; by eexists].
      split; [intros _; right; apply Hr; by eexists | intros _; by eexists].
  - split; [|right; by eexists]. split; [by left | intros _; by eexists].
Qed.

End Paths.

(** A negative number and a fraction are accepted as path segments. *)
Lemma negative_and_fractional_keys_accepted :
  let path : list Value := [VString "a"; VNum (Fin (-1)); VNum (Fin (Q2Qc (1 # 2)))] in
  isKeyPerSpec (VNum (Fin (-1))) = false
  ∧ isKeyPerSpec (VNum (Fin (Q2Qc (1 # 2)))) = false
  ∧ Selection_constructor DictUnit path emptyWorld
    = Done {| sel_unit := DictUnit; sel_path := path |} emptyWorld
  ∧ select DictUnit path emptyWorld
    = Done {| sel_unit := DictUnit; sel_path := path |} emptyWorld.
Proof. by vm_compute. Qed.

(** ** Construction *)

Section Construction.
Import Solo.

Lemma Base_constructor_solo cfg loc s :
  Base_constructor host cfg loc s =
    match baseConstructed cfg loc (w s) with
    | inl e => Thrown e s
    | inr w' => Done tt {| u := u s; w := w' |}
    end.
Proof.
  unfold Base_constructor, baseConstructed. destruct s as [x w0]. simpl.
  destruct (Cfg.id cfg) as [id|].
  - destruct (negb (isValidId id)); [done|].
    unfold bind, gets, modify. simpl.
    destruct (is_true _); [|done].
    destruct (_ !! id) as [known|]; [|done].
    by destruct (negb _).
  - by destruct (is_true _).
Qed.

Lemma retrieve_solo cfg s :
  retrieve host (Cfg.id cfg) (Cfg.storage cfg) s =
    Done (retrieved cfg (w s)).1 {| u := u s; w := (retrieved cfg (w s)).2 |}.
Proof.
  unfold retrieve, retrieved, bind, gets, ret. destruct s as [x w0].
  cbn [host_getW host_setW host w u].
  destruct (getItem (storageOf (Cfg.storage cfg) w0) (keyOf (Cfg.id cfg)) w0)
    as [[doc|t]|]; try done.
  simpl. by destruct (parse doc (next_ref w0)).
Qed.

Lemma dispatchInitialValue_solo f cfg v w0 :
  dispatchInitialValue host v {| u := blank f cfg; w := w0 |}
  = Done tt (seeded f cfg v w0).
Proof.
  unfold dispatchInitialValue, seeded.
  assert (Hs : shouldDispatchInitialValue host v {| u := blank f cfg; w := w0 |}
               = Done (negb (is_undefined v) && isValidValue f v)
                      {| u := blank f cfg; w := w0 |}) by reflexivity.
  rewrite (bind_Done _ _ _ _ _ Hs).
  destruct (negb (is_undefined v) && isValidValue f v) eqn:E.
  - apply andb_prop in E as [E1 E2].
    rewrite (bind_Done _ _ _ _ _ (update_run host _ _)).
    rewrite (bind_Done _ _ _ _ _ (initialValueRaw_run host _)).
    simpl. unfold initialOf, initialAllocated. simpl.
    apply negb_true_iff in E1. rewrite E1.
    apply updateValueAndCache_solo. simpl. unfold defined_for. by rewrite E1.
  - rewrite (bind_Done _ _ _ _ _ (defaultValue_run host _)). simpl.
    apply updateValueAndCache_solo. apply defaultOf_defined.
Qed.

Lemma construct_run f cfg loc w0 :
  construct f cfg loc w0 =
    match baseConstructed cfg loc w0 with
    | inl e => Thrown e {| u := blank f cfg; w := w0 |}
    | inr w1 =>
        match seed f cfg w1 with
        | Some (v, w2) => Done tt (seeded f cfg v w2)
        | None =>
            Thrown (NonSerializableValue
                      (default VUndefined (isSerializable (Cfg.initialValue cfg))))
                   {| u := blank f cfg;
                      w := if is_true (Cfg.persistent cfg)
                           then (retrieved cfg w1).2 else w1 |}
        end
    end.
Proof.
  unfold construct, UnitBase_constructor, bind at 1.
  rewrite Base_constructor_solo. simpl.
  destruct (baseConstructed cfg loc w0) as [e|w1]; [done|].
  unfold seed.
  assert (Hopt : ∀ w2,
    (checkSerializabilityMaybe host (Cfg.initialValue cfg);;
     let* copy := deepCopyMaybe host (Cfg.initialValue cfg) in
     dispatchInitialValue host copy) {| u := blank f cfg; w := w2 |}
    = match (if serializabilityChecked w2 (Cfg.initialValue cfg)
             then Some (copied (blank f cfg) (Cfg.initialValue cfg) w2)
             else None) with
      | Some (v, w3) => Done tt (seeded f cfg v w3)
      | None => Thrown (NonSerializableValue
                      (default VUndefined (isSerializable (Cfg.initialValue cfg))))
                   {| u := blank f cfg; w := w2 |}
      end).
  { intros w2. unfold bind at 1. rewrite (checkSerializabilityMaybe_run host). simpl.
    destruct (serializabilityChecked _ _); [|done].
    rewrite (bind_Done _ _ _ _ _ (deepCopyMaybe_run host _ _)). simpl.
    destruct (copied _ _ _) as [v w3] eqn:Ec. simpl.
    apply dispatchInitialValue_solo. }
  destruct (is_true (Cfg.persistent cfg)).
  - unfold restoreValueFromPersistentStorage.
    rewrite (bind_Done _ _ _ _ _ (this_run host _)). simpl.
    rewrite (bind_Done _ _ _ _ _ (retrieve_solo cfg _)). simpl.
    destruct (truthy _).
    + apply dispatchInitialValue_solo.
    + rewrite Hopt. by destruct (serializabilityChecked _ _).
  - rewrite Hopt. by destruct (serializabilityChecked _ _).
Qed.
End Construction.

Section InitialValue.
Import Solo.

Lemma cacheAfter_empty v x :
  _cachedValues x = [] → capacity_positive x → cacheAfter v None x = ([v], 0).
Proof.
  intros Hc Hp. unfold cacheAfter. simpl. rewrite Hc. simpl.
  unfold capacity_positive in Hp. by rewrite Hp.
Qed.

Lemma installing_cache v o skip s :
  _cachedValues (u (installing v o skip s)) = (cacheStored v o skip (u s)).1
  ∧ _cacheIndex (u (installing v o skip s)) = (cacheStored v o skip (u s)).2.
Proof. done. Qed.

Lemma seeded_fields f cfg v w2 :
  let s := seeded f cfg v w2 in
  (if negb (is_undefined v) && isValidValue f v
   then _value (u s) = v ∧ _initialValue (u s) = v
   else _value (u s) = defaultOf f (next_ref w2)
        ∧ _initialValue (u s) = VUndefined)
  ∧ _cachedValues (u s) = [_value (u s)]
  ∧ _cacheIndex (u s) = 0
  ∧ _emitCount (u s) = 1
  ∧ _isFrozen (u s) = false ∧ _isMuted (u s) = false
  ∧ config (u s) = cfg ∧ flavor (u s) = f.
Proof.
  unfold seeded.
  destruct (blank_capacity f cfg) as [Hc _].
  destruct (negb (is_undefined v) && isValidValue f v);
    (split; [done|]);
    (split; [rewrite (proj1 (installing_cache _ _ _ _)) |
             split; [rewrite (proj2 (installing_cache _ _ _ _))|done]]);
    unfold cacheStored; by rewrite cacheAfter_empty.
Qed.

(** What construction installs.  Construction hands one value to
    [dispatchInitialValue]: the saved value of a persistent Unit if there is
    one, otherwise the (copied) [initialValue] of the options.  That value
    becomes the current and the initial value exactly when it is not
    [undefined] and passes the type check of the flavour; otherwise the
    default value is installed.  Neither [customDispatchCheck] nor
    [distinctDispatchCheck] is evaluated. *)
Theorem construction_installs_valid_seed (f : Flavor) (cfg : Cfg.t)
    (locationId : string) (w0 w1 w2 : World) (v : Value) :
  baseConstructed cfg locationId w0 = inr w1 →
  seed f cfg w1 = Some (v, w2) →
  ∃ s, construct f cfg locationId w0 = Done tt s
       ∧ (if negb (is_undefined v) && isValidValue f v
          then _value (u s) = v ∧ _initialValue (u s) = v
          else _value (u s) = defaultOf f (next_ref w2)
               ∧ _initialValue (u s) = VUndefined)
       ∧ _cachedValues (u s) = [_value (u s)]
       ∧ _cacheIndex (u s) = 0
       ∧ _emitCount (u s) = 1
       ∧ (is_true (Cfg.persistent cfg) = false →
          v = (copied (blank f cfg) (Cfg.initialValue cfg) w1).1).
Proof.
  intros Hb Hs. exists (seeded f cfg v w2).
  rewrite construct_run, Hb, Hs. split; [reflexivity|].
  pose proof (seeded_fields f cfg v w2) as H. cbv zeta in H.
  destruct H as (H1 & H2 & H3 & H4 & _).
  split; [exact H1|]. split; [exact H2|]. split; [exact H3|]. split; [exact H4|].
  intros Hp. unfold seed in Hs. rewrite Hp in Hs.
  destruct (serializabilityChecked _ _); [|done]. injection Hs as Hs. by rewrite Hs.
Qed.

Lemma construction_installs_valid_seed_witness :
  ∃ s, construct NumUnit guardedCfg "a" emptyWorld = Done tt s
       ∧ _value (u s) = num 5 ∧ _initialValue (u s) = num 5
       ∧ _emitCount (u s) = 1.
Proof.
  destruct (construction_installs_valid_seed NumUnit guardedCfg "a"
              emptyWorld emptyWorld emptyWorld (num 5) eq_refl eq_refl)
    as (s & H1 & H2 & _ & _ & H3 & _).
  exists s. simpl in H2. destruct H2 as [H2 H2']. done.
Defined.

(** C7.  The initial value is not subject to the admission rules of a
    dispatch: [new NumUnit({initialValue: 5, distinctDispatchCheck: true,
    customDispatchCheck: () => false})] installs [5] as its value although
    [wouldDispatch(5)] is [false] for this Unit, before and after the
    construction, because the custom check refuses every value. *)
Lemma initial_value_skips_the_checks :
  admits (blank NumUnit guardedCfg) (num 5) None = false
  ∧ custom_ok (blank NumUnit guardedCfg) (num 5) = false
  ∧ ∃ s, construct NumUnit guardedCfg "a" emptyWorld = Done tt s
         ∧ _value (u s) = num 5
         ∧ admits (u s) (num 5) None = false.
Proof. split; [reflexivity|]. split; [reflexivity|]. eexists. by vm_compute. Qed.
End InitialValue.

Section Json.

Lemma Value_nested_ind (P : Value → Prop) :
  P VUndefined → P VNull → (∀ b, P (VBool b)) → (∀ n, P (VNum n)) →
  (∀ s, P (VString s)) →
  (∀ r items, Forall P items → P (VArray r items)) →
  (∀ r props, Forall (λ kv, P kv.2) props → P (VDict r props)) →
  (∀ r props, Forall (λ kv, P kv.2) props → P (VInstance r props)) →
  (∀ r j, P (VExotic r j)) → (∀ r, P (VFunction r)) →
  ∀ v, P v.
Proof.
  intros HU HN HB HNum HS HA HD HI HE HF.
  refine (fix IH (v : Value) : P v :=
    match v with
    | VUndefined => HU | VNull => HN | VBool b => HB b | VNum n => HNum n
    | VString s => HS s
    | VArray r items =>
        HA r items ((fix go (l : list Value) : Forall P l :=
                       match l with
                       | [] => Forall_nil_2 P
                       | x :: l' => Forall_cons_2 P x l' (IH x) (go l')
                       end) items)
    | VDict r props =>
        HD r props ((fix go (l : list (string * Value)) : Forall (λ kv, P kv.2) l :=
                       match l with
                       | [] => Forall_nil_2 _
                       | kv :: l' =>
                           Forall_cons_2 (λ kv, P kv.2) kv l'
                             (match kv with (k, x) => IH x end) (go l')
                       end) props)
    | VInstance r props =>
        HI r props ((fix go (l : list (string * Value)) : Forall (λ kv, P kv.2) l :=
                       match l with
                       | [] => Forall_nil_2 _
                       | kv :: l' =>
                           Forall_cons_2 (λ kv, P kv.2) kv l'
                             (match kv with (k, x) => IH x end) (go l')
                       end) props)
    | VExotic r j => HE r j
    | VFunction r => HF r
    end).
Qed.

Lemma deepCopy_VArray r items n :
  deepCopy (VArray r items) n
  = (VArray (deepCopy_items items n).2 (deepCopy_items items n).1,
     S (deepCopy_items items n).2).
Proof.
  change (deepCopy (VArray r items) n)
    with (let '(items', n') := deepCopy_items items n in (VArray n' items', S n')).
  by destruct (deepCopy_items items n).
Qed.

Lemma deepCopy_VDict r props n :
  deepCopy (VDict r props) n
  = (VDict (deepCopy_props props n).2 (deepCopy_props props n).1,
     S (deepCopy_props props n).2).
Proof.
  change (deepCopy (VDict r props) n)
    with (let '(props', n') := deepCopy_props props n in (VDict n' props', S n')).
  by destruct (deepCopy_props props n).
Qed.

Lemma parse_JArr items n :
  parse (JArr items) n
  = (VArray (parse_items items n).2 (parse_items items n).1,
     S (parse_items items n).2).
Proof.
  change (parse (JArr items) n)
    with (let '(vs, n') := parse_items items n in (VArray n' vs, S n')).
  by destruct (parse_items items n).
Qed.

Lemma parse_JObj props n :
  parse (JObj props) n
  = (VDict (parse_props props n).2 (parse_props props n).1,
     S (parse_props props n).2).
Proof.
  change (parse (JObj props) n)
    with (let '(vs, n') := parse_props props n in (VDict n' vs, S n')).
  by destruct (parse_props props n).
Qed.

Lemma stringify_VArray r items :
  stringify (VArray r items) = Some (JArr (stringify_items items)).
Proof. reflexivity. Qed.

Lemma stringify_VDict r props :
  stringify (VDict r props) = Some (JObj (stringify_props props)).
Proof. reflexivity. Qed.

Lemma parse_items_cons x l n :
  parse_items (x :: l) n
  = ((parse x n).1 :: (parse_items l (parse x n).2).1,
     (parse_items l (parse x n).2).2).
Proof.
  change (parse_items (x :: l) n)
    with (let '(v, n1) := parse x n in
          let '(vs, n2) := parse_items l n1 in (v :: vs, n2)).
  destruct (parse x n) as [v n1]. simpl. by destruct (parse_items l n1).
Qed.

Lemma parse_props_cons k x l n :
  parse_props ((k, x) :: l) n
  = ((k, (parse x n).1) :: (parse_props l (parse x n).2).1,
     (parse_props l (parse x n).2).2).
Proof.
  change (parse_props ((k, x) :: l) n)
    with (let '(v, n1) := parse x n in
          let '(vs, n2) := parse_props l n1 in ((k, v) :: vs, n2)).
  destruct (parse x n) as [v n1]. simpl. by destruct (parse_props l n1).
Qed.

Lemma deepCopy_items_cons x l n :
  deepCopy_items (x :: l) n
  = ((deepCopy x n).1 :: (deepCopy_items l (deepCopy x n).2).1,
     (deepCopy_items l (deepCopy x n).2).2).
Proof.
  change (deepCopy_items (x :: l) n)
    with (let '(v, n1) := deepCopy x n in
          let '(vs, n2) := deepCopy_items l n1 in (v :: vs, n2)).
  destruct (deepCopy x n) as [v n1]. simpl. by destruct (deepCopy_items l n1).
Qed.

Lemma deepCopy_props_cons k x l n :
  deepCopy_props ((k, x) :: l) n
  = ((if bool_decide (k = "__proto__"%string)
      then (deepCopy_props l (deepCopy x n).2).1
      else (k, (deepCopy x n).1) :: (deepCopy_props l (deepCopy x n).2).1),
     (deepCopy_props l (deepCopy x n).2).2).
Proof.
  change (deepCopy_props ((k, x) :: l) n)
    with (let '(v, n1) := deepCopy x n in
          let '(vs, n2) := deepCopy_props l n1 in
          (if bool_decide (k = "__proto__"%string) then vs else (k, v) :: vs, n2)).
  destruct (deepCopy x n) as [v n1]. simpl. by destruct (deepCopy_props l n1).
Qed.

Lemma deepCopy_props_cons_plain k x l n :
  k ≠ "__proto__"%string →
  deepCopy_props ((k, x) :: l) n
  = ((k, (deepCopy x n).1) :: (deepCopy_props l (deepCopy x n).2).1,
     (deepCopy_props l (deepCopy x n).2).2).
Proof. intros Hk. rewrite deepCopy_props_cons. by rewrite bool_decide_false. Qed.

(** A jsonable value has a document, and parsing the document gives the
    value back up to the identity of its objects. *)
Lemma parse_stringify v :
  jsonable v = true →
  ∃ j, stringify v = Some j ∧ ∀ n, erase (parse j n).1 = erase v.
Proof.
  induction v as [| | b | [| | |q] | s | r items IH | r props IH | r props IH | r j | r]
    using Value_nested_ind; intros Hj; try done; try (eexists; split; [done|done]).
  - exists (JArr (stringify_items items)). split; [done|]. intros n.
    rewrite parse_JArr. simpl. f_equal.
    change (forallb jsonable items = true) in Hj.
    revert n. induction items as [|x items IHl]; intros n; [done|].
    simpl in Hj. apply andb_prop in Hj as [Hx Hl].
    apply Forall_cons in IH as [IHx IH].
    destruct (IHx Hx) as (j & Hs & Hp).
    change (stringify_items (x :: items))
      with (default JNull (stringify x) :: stringify_items items).
    rewrite Hs, parse_items_cons. simpl. f_equal; [apply Hp | by apply IHl].
  - exists (JObj (stringify_props props)). split; [done|]. intros n.
    rewrite parse_JObj. simpl. f_equal.
    change (forallb (λ kv, jsonable kv.2) props = true) in Hj.
    revert n. induction props as [|[k x] props IHl]; intros n; [done|].
    simpl in Hj. apply andb_prop in Hj as [Hx Hl].
    apply Forall_cons in IH as [IHx IH]. simpl in IHx.
    destruct (IHx Hx) as (j & Hs & Hp).
    change (stringify_props ((k, x) :: props))
      with (match stringify x with
            | Some j => (k, j) :: stringify_props props
            | None => stringify_props props
            end).
    rewrite Hs, parse_props_cons. simpl. f_equal; [f_equal; apply Hp | by apply IHl].
Qed.

Lemma proto_free_VArray_cons r x l :
  proto_free (VArray r (x :: l)) = proto_free x && proto_free (VArray r l).
Proof. reflexivity. Qed.

Lemma proto_free_VDict_cons r k x l :
  proto_free (VDict r ((k, x) :: l))
  = negb (bool_decide (k = "__proto__"%string)) && proto_free x
    && proto_free (VDict r l).
Proof. reflexivity. Qed.

(** Copying a jsonable value without a property [__proto__] changes nothing
    but the identity of its objects. *)
Lemma deepCopy_jsonable v :
  jsonable v = true → proto_free v = true →
  ∀ n, jsonable (deepCopy v n).1 = true ∧ erase (deepCopy v n).1 = erase v.
Proof.
  induction v as [| | b | [| | |q] | s | r items IH | r props IH | r props IH | r j | r]
    using Value_nested_ind; intros Hj Hp n; try done.
  - rewrite deepCopy_VArray.
    change (forallb jsonable items = true) in Hj.
    cut (forallb jsonable (deepCopy_items items n).1 = true
         ∧ map erase (deepCopy_items items n).1 = map erase items).
    { intros [H1 H2]. split; [exact H1|]. simpl. f_equal. exact H2. }
    revert n. induction items as [|x items IHl]; intros n; [done|].
    simpl in Hj. apply andb_prop in Hj as [Hx Hl].
    rewrite proto_free_VArray_cons in Hp. apply andb_prop in Hp as [Hpx Hpl].
    apply Forall_cons in IH as [IHx IH].
    rewrite deepCopy_items_cons. simpl.
    destruct (IHx Hx Hpx n) as [H1 H2].
    destruct (IHl IH Hl Hpl (deepCopy x n).2) as [H3 H4].
    split; [by rewrite H1, H3 | f_equal; assumption].
  - rewrite deepCopy_VDict.
    change (forallb (λ kv, jsonable kv.2) props = true) in Hj.
    cut (forallb (λ kv, jsonable kv.2) (deepCopy_props props n).1 = true
         ∧ map (λ kv, (kv.1, erase kv.2)) (deepCopy_props props n).1
           = map (λ kv, (kv.1, erase kv.2)) props).
    { intros [H1 H2]. split; [exact H1|]. simpl. f_equal. exact H2. }
    revert n. induction props as [|[k x] props IHl]; intros n; [done|].
    simpl in Hj. apply andb_prop in Hj as [Hx Hl].
    rewrite proto_free_VDict_cons in Hp.
    apply andb_prop in Hp as [Hp Hpl]. apply andb_prop in Hp as [Hk Hpx].
    apply negb_true_iff, bool_decide_eq_false in Hk.
    apply Forall_cons in IH as [IHx IH]. simpl in IHx.
    rewrite (deepCopy_props_cons_plain k x props n Hk). simpl.
    destruct (IHx Hx Hpx n) as [H1 H2].
    destruct (IHl IH Hl Hpl (deepCopy x n).2) as [H3 H4].
    split; [by rewrite H1, H3 | f_equal; [f_equal|]; assumption].
Qed.
End Json.

Section Persistence.
Import Solo.

Lemma seeded_installed f cfg v w2 : installed (u (seeded f cfg v w2)) = true.
Proof.
  destruct (seeded_fields f cfg v w2) as (Hv & _ & _ & _ & _ & _ & _ & Hf).
  unfold installed, defined_for. rewrite Hf.
  destruct (negb (is_undefined v) && isValidValue f v) eqn:E.
  - destruct Hv as [-> _]. apply andb_prop in E as [-> _]. done.
  - destruct Hv as [-> _]. by destruct f.
Qed.

Lemma baseConstructed_frame cfg loc w w' :
  baseConstructed cfg loc w = inr w' →
  storages w' = storages w ∧ Configuration_storage w' = Configuration_storage w
  ∧ next_ref w' = next_ref w.
Proof.
  unfold baseConstructed. intros H.
  repeat (match type of H with
          | context [match ?x with _ => _ end] => destruct x
          end); simplify_eq; done.
Qed.

Lemma getItem_setItem st k x w : getItem st k (setItem st k x w) = Some x.
Proof.
  unfold getItem, storageContent, setItem. simpl.
  by rewrite lookup_insert_eq; simpl; rewrite lookup_insert_eq.
Qed.

(** An accepted dispatch of a persistent Unit leaves the document of its new
    value under the key of the Unit. *)
Lemma dispatched_saves v o s :
  is_true (Cfg.persistent (config (u s))) = true →
  let s' := dispatched v o s in
  getItem (storageOf (Cfg.storage (config (u s))) (w s'))
          (keyOf (Cfg.id (config (u s)))) (w s')
  = Some (JsonText (wrapped (_value (u s'))))
  ∧ _value (u s') = (copied (u s) v (w s)).1.
Proof.
  intros Hp. unfold dispatched, installing. simpl. unfold persisted. simpl.
  rewrite Hp. split; [|done].
  match goal with
  | |- getItem _ _ (setItem ?st ?k ?x ?w0) = _ =>
      change (getItem st k (setItem st k x w0) = Some x)
  end.
  apply getItem_setItem.
Qed.

Lemma getProp_wrapped c n :
  truthy (parse (wrapped c) n).1 = true
  ∧ getProp "value" (parse (wrapped c) n).1
    = match stringify c with
      | Some j => (parse j n).1
      | None => VUndefined
      end.
Proof.
  unfold wrapped. destruct (stringify c) as [j|].
  - rewrite parse_JObj, parse_props_cons. simpl. done.
  - done.
Qed.

Lemma parse_valid f c j n :
  jsonable c = true → stringify c = Some j →
  isValidValue f (parse j n).1 = isValidValue f c
  ∧ is_undefined (parse j n).1 = false.
Proof.
  intros Hj Hs.
  destruct c as [| | b | [| | |q] | s | r items | r props | r props | r j' | r];
    try done; simpl in Hs; simplify_eq.
  - by destruct f.
  - by destruct f.
  - by destruct f.
  - by destruct f.
  - rewrite parse_JArr. by destruct f.
  - rewrite parse_JObj. by destruct f.
Qed.


Lemma erase_valid f a b :
  erase a = erase b → isValidValue f a = isValidValue f b.
Proof.
  destruct a, b; try done; simpl; intros H; simplify_eq; by destruct f.
Qed.

(** C8 (as amended).  Persistence round trip, for the values that JSON
    represents exactly ([null], booleans, finite numbers, strings, arrays
    and plain objects of these) and for [undefined] itself; if the Unit is
    immutable, [Y] has no property named [__proto__], which the copy made
    by an immutable Unit would lose.  Let A be a persistent Unit with id
    [k]; if a dispatch of [Y] on A is accepted and a Unit B with the same
    options can be constructed on the store that A leaves behind, then that
    store holds the document of A's value under the key [_AJS_UNIT_k], and
    the current value of B is [Y] up to the identity of objects, with no
    transfer other than the store. *)
Theorem persistence_round_trip (f : Flavor) (cfg : Cfg.t) (k locA locB : string)
    (w0 wB : World) (sA sA' : Solo.t) (Y : Value)
    (options : option DispatchOptions) :
  Cfg.id cfg = Some k →
  is_true (Cfg.persistent cfg) = true →
  roundtrips Y = true →
  (is_true (Cfg.immutable cfg) = true → proto_free Y = true) →
  construct f cfg locA w0 = Done tt sA →
  dispatch host (Direct Y) options sA = Done true sA' →
  baseConstructed cfg locB (w sA') = inr wB →
  getItem (storageOf (Cfg.storage cfg) (w sA')) (KeyPrefix +:+ k) (w sA')
  = Some (JsonText (wrapped (_value (u sA'))))
  ∧ erase (_value (u sA')) = erase Y
  ∧ ∃ sB, construct f cfg locB (w sA') = Done tt sB
          ∧ erase (_value (u sB)) = erase Y.
Proof.
  intros Hid Hp HY Hpf HA Hd HB.
  (* container A *)
  rewrite construct_run in HA.
  destruct (baseConstructed cfg locA w0) as [e|w1]; [done|].
  destruct (seed f cfg w1) as [[v w2]|]; [|done].
  injection HA as <-.
  destruct (seeded_fields f cfg v w2) as (_ & _ & _ & _ & _ & _ & Hcfg & Hf).
  pose proof (seeded_installed f cfg v w2) as Hi.
  set (sA := seeded f cfg v w2) in *.
  (* the accepted dispatch *)
  unfold dispatch in Hd. rewrite (dispatchActual_solo _ _ _ Hi) in Hd.
  simpl in Hd.
  destruct (serializabilityChecked (w sA) Y); [|done].
  destruct (admits (u sA) Y (options ≫= force)) eqn:Ha; [|done].
  injection Hd as <-.
  apply andb_prop in Ha as [Ha _]. apply andb_prop in Ha as [_ Hvalid].
  rewrite Hf in Hvalid.
  set (s1 := {| u := u sA; w := w sA |}) in *.
  assert (Hp1 : is_true (Cfg.persistent (config (u s1))) = true)
    by (simpl; by rewrite Hcfg).
  destruct (dispatched_saves Y options s1 Hp1) as [Hsaved Hval].
  change (config (u s1)) with (config (u sA)) in Hsaved.
  change (copied (u s1) Y (w s1)) with (copied (u sA) Y (w sA)) in Hval.
  rewrite Hcfg, Hid in Hsaved.
  change (keyOf (Some k)) with (KeyPrefix +:+ k)%string in Hsaved.
  set (sA' := dispatched Y options s1) in *.
  (* what it holds, up to the identity of objects *)
  assert (Hc : erase (_value (u sA')) = erase Y
               ∧ (jsonable Y = true → jsonable (_value (u sA')) = true)
               ∧ (Y = VUndefined → _value (u sA') = VUndefined)).
  { rewrite Hval. unfold copied.
    destruct (is_true (Cfg.immutable (config (u sA)))) eqn:Eim; [|done].
    rewrite Hcfg in Eim. specialize (Hpf Eim).
    destruct (deepCopy Y (next_ref (w sA))) as [c n] eqn:Ec. simpl.
    change c with (c, n).1. rewrite <- Ec.
    unfold roundtrips in HY. apply orb_prop in HY as [HY|HY].
    - destruct (deepCopy_jsonable Y HY Hpf (next_ref (w sA))) as [H1 H2].
      split; [exact H2|]. split; [done|]. intros ->. done.
    - destruct Y; try done. }
  destruct Hc as (Herase & Hjs & Hund).
  split; [exact Hsaved|]. split; [exact Herase|].
  (* container B *)
  rewrite construct_run, HB.
  destruct (baseConstructed_frame _ _ _ _ HB) as (Hst & Hcs & Hnr).
  assert (Hseed : ∃ wB2, seed f cfg wB
                   = Some (match stringify (_value (u sA')) with
                           | Some j => (parse j (next_ref wB)).1
                           | None => VUndefined
                           end, wB2)).
  { unfold seed. rewrite Hp. unfold retrieved.
    assert (Hget : getItem (storageOf (Cfg.storage cfg) wB) (keyOf (Cfg.id cfg)) wB
                   = Some (JsonText (wrapped (_value (u sA'))))).
    { rewrite <- Hsaved, Hid. unfold getItem, storageContent, storageOf.
      by rewrite Hst, Hcs. }
    rewrite Hget. cbv beta iota zeta.
    change (((parse (wrapped (_value (u sA'))) (next_ref wB)).1,
             with_next_ref (parse (wrapped (_value (u sA'))) (next_ref wB)).2 wB).1)
      with (parse (wrapped (_value (u sA'))) (next_ref wB)).1.
    destruct (getProp_wrapped (_value (u sA')) (next_ref wB)) as [Ht Hg].
    rewrite Ht, Hg. by eexists. }
  destruct Hseed as [wB2 ->].
  eexists. split; [reflexivity|].
  set (vB := match stringify (_value (u sA')) with
             | Some j => (parse j (next_ref wB)).1
             | None => VUndefined
             end).
  destruct (seeded_fields f cfg vB wB2) as (Hv & _).
  unfold roundtrips in HY. apply orb_prop in HY as [HY|HY].
  - destruct (parse_stringify _ (Hjs HY)) as (j & Hs & Hparse).
    destruct (parse_valid f _ j (next_ref wB) (Hjs HY) Hs) as [Hpv Hpu].
    assert (HvB : vB = (parse j (next_ref wB)).1) by (unfold vB; by rewrite Hs).
    rewrite HvB in Hv |- *.
    rewrite Hpv, Hpu, (erase_valid f _ _ Herase), Hvalid in Hv.
    destruct Hv as [-> _]. by rewrite Hparse.
  - destruct Y; try done.
    assert (HvB : vB = VUndefined) by (unfold vB; by rewrite (Hund eq_refl)).
    rewrite HvB in Hv |- *. destruct Hv as [-> _]. by destruct f.
Qed.

Lemma persistence_round_trip_witness :
  ∃ sB, construct ListUnit persistentImmutableCfg "b" (w immutableListK_dispatched)
        = Done tt sB
        ∧ erase (_value (u sB)) = erase sampleList.
Proof.
  apply (persistence_round_trip ListUnit persistentImmutableCfg "k" "a" "b"
           laterWorld (w immutableListK_dispatched) immutableListK
           immutableListK_dispatched sampleList None);
    vm_compute; reflexivity.
Defined.

(** [Infinity] passes [isSerializable] and the type check of a NumUnit, and
    its dispatch is accepted; the document written is [{"value":null}], and
    the Unit constructed from it holds the default value [0]. *)
Lemma infinity_is_not_restored :
  isSerializable (VNum PosInf) = None
  ∧ isValidValue NumUnit (VNum PosInf) = true
  ∧ construct NumUnit persistentCfg "a" emptyWorld = Done tt numUnitK
  ∧ dispatch host (Direct (VNum PosInf)) None numUnitK = Done true numUnitK_dispatched
  ∧ getItem 0 (KeyPrefix +:+ "k") (w numUnitK_dispatched)
    = Some (JsonText (JObj [("value"%string, JNull)]))
  ∧ construct NumUnit persistentCfg "a" (w numUnitK_dispatched)
    = Done tt numUnitK_restored
  ∧ _value (u numUnitK_restored) = VNum (Fin 0)
  ∧ erase (_value (u numUnitK_restored)) ≠ erase (VNum PosInf).
Proof. repeat apply conj; vm_compute; (reflexivity || discriminate). Qed.

End Persistence.

(** ** A Unit inside a larger state *)

Section Observed.
Context {St : Type} (h : Host St) `{!Lawful h}.
Local Abbreviation getU := (host_getU h).
Local Abbreviation setU := (host_setU h).
Local Abbreviation getW := (host_getW h).
Local Abbreviation setW := (host_setW h).
Import Solo.

Lemma with_emitted_id x : with_emitted (_emitCount x) (emittedValue x) x = x.
Proof. by destruct x. Qed.

Lemma persisted_fired e x w0 : persisted (fired e x) w0 = persisted x w0.
Proof. reflexivity. Qed.

Lemma getU_settled x sq : getU (settled h x sq) = x.
Proof. unfold settled. by rewrite getU_setU. Qed.

Lemma getW_settled x sq : getW (settled h x sq) = persisted x (getW sq).
Proof. unfold settled. by rewrite getW_setU, getW_setW. Qed.

(** [updateValueAndCache] inside a larger state: the Unit ends as a lone
    Unit does, the rest of the state is what the observers leave, and the
    value is saved in the world they leave. *)
Lemma updateValueAndCache_observed v o skip s sq :
  defined_for (flavor (getU s)) v = true →
  observed_by h v o skip s sq →
  updateValueAndCache h v o skip s
  = Done tt (settled h (u (installing v o skip (solo_of h s))) sq).
Proof.
  intros Hd Hsub. unfold observed_by in Hsub. rewrite (updateValueAndCache_run h).
  unfold installing, settled, solo_of. simpl.
  destruct (_isMuted (getU s)) eqn:Em.
  - subst sq. rewrite (updateValueInPersistentStorage_run h);
      [|by rewrite getU_setU].
    rewrite !getU_setU, getW_setU, setW_setU.
    set (u1 := with_emitOnUnmute true (stored v o skip (getU s))).
    change (_emitCount (getU s)) with (_emitCount u1).
    change (emittedValue (getU s)) with (emittedValue u1).
    by rewrite with_emitted_id.
  - destruct Hsub as (Hrun & HU).
    set (u1 := with_emitOnUnmute false (stored v o skip (getU s))) in *.
    unfold bind at 1.
    rewrite (emit_run h); [|by rewrite getU_setU].
    simpl. rewrite !getU_setU, !getW_setU, setW_setU, setU_setU.
    change (setU _ (setW _ s)) with (pushed_state h v o skip s).
    rewrite Hrun.
    rewrite (updateValueInPersistentStorage_run h).
    2:{ rewrite HU. unfold pushed_state. by rewrite getU_setU. }
    rewrite HU. unfold pushed_state.
    rewrite getU_setU.
    fold u1.
    set (u2 := with_emitted _ _ u1).
    set (w2 := persisted u2 _).
    assert (H : getU (setW w2 sq) = u2).
    { rewrite getU_setW, HU. unfold pushed_state. by rewrite getU_setU. }
    rewrite <- H. by rewrite setU_getU.
Qed.

Lemma accepted_observed v o s sq :
  installed (getU s) = true →
  admits (getU s) v (o ≫= force) = true →
  observed_by h (copied (getU s) v (getW s)).1 o false
              (setW (copied (getU s) v (getW s)).2 s) sq →
  admit_or_reject h v o s
  = Done true (settled h (u (dispatched v o (solo_of h s))) sq).
Proof.
  intros Hi Ha Hobs. rewrite (accepted_run h _ _ _ Hi Ha).
  rewrite (bind_Done _ _ _ _ _ (deepCopyMaybe_run h _ _)).
  set (c := copied (getU s) v (getW s)) in *.
  assert (Hd : defined_for (flavor (getU (setW c.2 s))) c.1 = true).
  { rewrite getU_setW. unfold c. rewrite copied_defined. apply valid_defined.
    unfold admits in Ha. by destruct (_isFrozen _), (isValidValue _ _). }
  rewrite (bind_Done _ _ _ _ _
             (updateValueAndCache_observed c.1 o false (setW c.2 s) sq Hd Hobs)).
  rewrite (bind_Done _ _ _ _ _ (fire_run h _ _)). unfold ret.
  rewrite getU_settled. unfold settled. rewrite setU_setU.
  unfold solo_of. rewrite getU_setW, getW_setW. reflexivity.
Qed.

Lemma dispatch_observed v o s sq :
  installed (getU s) = true →
  serializabilityChecked (getW s) v = true →
  admits (getU s) v (o ≫= force) = true →
  observed_by h (copied (getU s) v (getW s)).1 o false
              (setW (copied (getU s) v (getW s)).2 s) sq →
  dispatch h (Direct v) o s
  = Done true (settled h (u (dispatched v o (solo_of h s))) sq).
Proof.
  intros Hi Hs Ha Hobs. unfold dispatch.
  rewrite (dispatchActual_run h _ _ _ Hi). simpl.
  rewrite setW_getW, Hs. by apply accepted_observed.
Qed.

Lemma dispatch_refused v o s :
  installed (getU s) = true →
  serializabilityChecked (getW s) v = true →
  admits (getU s) v (o ≫= force) = false →
  dispatch h (Direct v) o s
  = Done false (setU (u (rejected v o (solo_of h s))) s).
Proof.
  intros Hi Hs Ha. unfold dispatch.
  rewrite (dispatchActual_run h _ _ _ Hi). simpl.
  rewrite setW_getW, Hs. by rewrite (rejected_run h _ _ _ Hi Ha).
Qed.

Lemma clearValue_observed s sq :
  installed (getU s) = true →
  _isFrozen (getU s) = false → _emitCount (getU s) ≠ 0 → emptyOf (getU s) = false →
  observed_by h (defaultOf (flavor (getU s)) (next_ref (getW s))) None false
              (setW (allocated (flavor (getU s)) (getW s)) s) sq →
  clearValue h s = Done true (settled h (u (valueCleared (solo_of h s))) sq).
Proof.
  intros Hi Hf Hn He Hobs. rewrite (clearValue_run h s Hi), Hf, He.
  rewrite bool_decide_eq_false_2 by done. simpl.
  set (d := defaultOf (flavor (getU s)) (next_ref (getW s))) in *.
  set (s1 := setW (allocated (flavor (getU s)) (getW s)) s) in *.
  assert (Hd : defined_for (flavor (getU s1)) d = true).
  { unfold s1. rewrite getU_setW. apply defaultOf_defined. }
  rewrite (bind_Done _ _ _ _ _
             (updateValueAndCache_observed d None false s1 sq Hd Hobs)).
  rewrite (bind_Done _ _ _ _ _ (fire_run h _ _)). unfold ret.
  rewrite getU_settled. unfold settled. rewrite setU_setU.
  unfold solo_of, s1. rewrite getU_setW, getW_setW. reflexivity.
Qed.

Lemma clearValue_refused s :
  installed (getU s) = true →
  _isFrozen (getU s) || bool_decide (_emitCount (getU s) = 0) || emptyOf (getU s) = true →
  clearValue h s = Done false s.
Proof. intros Hi H. by rewrite (clearValue_run h s Hi), H. Qed.

End Observed.

(** ** Systems *)

Section Systems.

#[global] Instance member_lawful fuel r : Lawful (member fuel r).
Proof. split; intros; destruct s, r; reflexivity. Qed.

Lemma subscription_paused fuel r ev s :
  r ≠ Pending → relationshipsWorking s = false →
  subscription (S fuel) r ev s = Done tt s.
Proof.
  intros Hr Hw. destruct r; try done; simpl; unfold relationship, bind, gets, when;
    simpl; by rewrite Hw.
Qed.

Lemma toggleQueryUnitFreezeMaybe_run fuel ev s :
  toggleQueryUnitFreezeMaybe (subscription fuel) ev s = Done tt (toggled ev s).
Proof.
  unfold toggleQueryUnitFreezeMaybe, toggled.
  unfold bind at 1. unfold gets at 1. simpl.
  destruct (is_true _); [|done].
  fold (member fuel Query).
  destruct (truthy ev).
  - rewrite (freeze_run (member fuel Query)). simpl. by destruct (_isFrozen _).
  - rewrite (unfreeze_run (member fuel Query)). simpl. by destruct (_isFrozen _).
Qed.

Lemma subscription_pending_paused fuel ev s :
  relationshipsAutoPaused s = true → relationshipsManuallyPaused s = false →
  subscription (S fuel) Pending ev s = Done tt (toggled ev s).
Proof.
  intros Ha Hm. simpl. unfold relationship.
  unfold bind at 1. unfold gets at 1. simpl. rewrite Hm. simpl.
  rewrite (bind_Done _ _ _ _ _ (toggleQueryUnitFreezeMaybe_run fuel ev s)).
  unfold bind, gets, when. simpl.
  assert (Hw : relationshipsWorking (toggled ev s) = false).
  { unfold toggled, relationshipsWorking.
    destruct (is_true _); [destruct (truthy ev); destruct (_isFrozen _)|]; simpl; by rewrite Ha. }
  by rewrite Hw.
Qed.

Lemma toggled_frame ev s :
  dataUnit (toggled ev s) = dataUnit s
  ∧ errorUnit (toggled ev s) = errorUnit s
  ∧ pendingUnit (toggled ev s) = pendingUnit s
  ∧ sys_world (toggled ev s) = sys_world s
  ∧ sys_config (toggled ev s) = sys_config s
  ∧ relationshipsAutoPaused (toggled ev s) = relationshipsAutoPaused s
  ∧ relationshipsManuallyPaused (toggled ev s) = relationshipsManuallyPaused s
  ∧ sys_emitCount (toggled ev s) = sys_emitCount s
  ∧ sys_emittedValue (toggled ev s) = sys_emittedValue s
  ∧ installed (queryUnit (toggled ev s)) = installed (queryUnit s).
Proof.
  unfold toggled.
  destruct (is_true _); [destruct (truthy ev); destruct (_isFrozen (queryUnit s)) eqn:E|]; try done;
    simpl; unfold installed; done.
Qed.


Lemma strict_eq_bool b x : strict_eq (VBool b) x = true → x = VBool b.
Proof.
  destruct x; try done. simpl. destruct b, b0; done.
Qed.

Lemma copied_bool x b w0 : (copied x (VBool b) w0).1 = VBool b.
Proof. unfold copied. by destruct (is_true _). Qed.

Lemma same_system_refl s : same_system s s.
Proof. by repeat split. Qed.

(** The pending Unit is told [false] while the relationships are paused. *)
Lemma pending_update_paused n s :
  relationshipsAutoPaused s = true → relationshipsManuallyPaused s = false →
  members_installed s = true →
  _isFrozen (pendingUnit s) = false →
  isValidValue (flavor (pendingUnit s)) (VBool false) = true →
  custom_ok (pendingUnit s) (VBool false) = true →
  ∃ b s', dispatch (member (S n) Pending) (Direct (VBool false))
            (Some bypassDebounceOnly) s = Done b s'
    ∧ _value (pendingUnit s') = VBool false
    ∧ dataUnit s' = dataUnit s ∧ errorUnit s' = errorUnit s
    ∧ members_installed s' = true
    ∧ same_system s s'.
Proof.
  intros Ha Hm Hi Hf Hv Hc.
  unfold members_installed in Hi.
  apply andb_prop in Hi as [Hi Hip]. apply andb_prop in Hi as [Hi Hie].
  apply andb_prop in Hi as [Hiq Hid].
  set (h := member (S n) Pending).
  assert (Hser : serializabilityChecked (host_getW h s) (VBool false) = true).
  { unfold serializabilityChecked. simpl. by rewrite orb_true_r. }
  destruct (admits (pendingUnit s) (VBool false) (Some bypassDebounceOnly ≫= force))
    eqn:Hadm.
  - set (s1 := host_setW h (copied (host_getU h s) (VBool false) (host_getW h s)).2 s).
    set (c := (copied (host_getU h s) (VBool false) (host_getW h s)).1).
    destruct (_isMuted (pendingUnit s)) eqn:Emu.
    + eexists _, _. split.
      { apply (dispatch_observed h (VBool false) _ s s1 Hip Hser Hadm).
        unfold observed_by. simpl. by rewrite Emu. }
      simpl. rewrite Emu. simpl. rewrite copied_bool.
      unfold members_installed. simpl.
      rewrite Hiq, Hid, Hie. repeat split; try done.
    + eexists _, _. split.
      { apply (dispatch_observed h (VBool false) _ s
                 (toggled (copyOut (with_emitOnUnmute false
                              (stored c (Some bypassDebounceOnly) false (host_getU h s1)))
                            (host_getW h s1)).1
                          (pushed_state h c (Some bypassDebounceOnly) false s1))
                 Hip Hser Hadm).
        unfold observed_by.
        match goal with
        | |- if ?c then _ else _ => change c with (_isMuted (pendingUnit s))
        end.
        rewrite Emu. split.
        - by apply (subscription_pending_paused n).
        - exact (proj1 (proj2 (proj2 (toggled_frame _ _)))). }
      match goal with
      | |- context [toggled ?e ?x] =>
          destruct (toggled_frame e x) as (Hd & He & Hp & Hw & Hcf & Hap & Hmp & Hec & Hev & Hq);
          set (sq := toggled e x) in *
      end.
      simpl. rewrite Emu. simpl. rewrite copied_bool.
      unfold members_installed. simpl.
      rewrite Hd, He, Hq. simpl. rewrite Hiq, Hid, Hie.
      repeat split; try done.
  - eexists _, _. split.
    { apply (dispatch_refused h (VBool false) _ s Hip Hser Hadm). }
    assert (Hval : _value (pendingUnit s) = VBool false).
    { unfold admits in Hadm. rewrite Hf, Hv, Hc in Hadm. simpl in Hadm.
      unfold distinct_ok in Hadm.
      apply orb_false_elim in Hadm as [_ Hadm].
      apply negb_false_iff in Hadm. by apply strict_eq_bool. }
    simpl. unfold members_installed. simpl.
    rewrite Hiq, Hid, Hie. repeat split; try done.
Qed.

Lemma members_installed_parts s :
  members_installed s = true ↔ ∀ r, installed (getMember r s) = true.
Proof.
  unfold members_installed. split.
  - intros H. apply andb_prop in H as [H Hp]. apply andb_prop in H as [H He].
    apply andb_prop in H as [Hq Hd]. by intros [].
  - intros H. pose proof (H Query) as Hq. pose proof (H Data) as Hd.
    pose proof (H Error) as He. pose proof (H Pending) as Hp. simpl in *.
    by rewrite Hq, Hd, He, Hp.
Qed.

Lemma getMember_settled n r x sq : getMember r (settled (member n r) x sq) = x.
Proof. by destruct r. Qed.

Lemma getMember_settled_other n r r' x sq :
  r' ≠ r → getMember r' (settled (member n r) x sq) = getMember r' sq.
Proof. by destruct r, r'. Qed.

Lemma same_system_settled n r x sq s :
  same_system s sq → same_system s (settled (member n r) x sq).
Proof. done. Qed.

(** A member other than the pending Unit is cleared while the
    relationships are paused. *)
Lemma clear_member_paused n r s :
  r ≠ Pending → relationshipsAutoPaused s = true → members_installed s = true →
  ∃ b s', clearValue (member (S n) r) s = Done b s'
    ∧ (∀ r', r' ≠ r → getMember r' s' = getMember r' s)
    ∧ members_installed s' = true
    ∧ same_system s s'
    ∧ (_isFrozen (getMember r s) = false → _emitCount (getMember r s) ≠ 0 →
       emptyOf (getMember r s) = false →
       _value (getMember r s')
       = defaultOf (flavor (getMember r s)) (next_ref (sys_world s))).
Proof.
  intros Hr Ha Hi. pose proof (proj1 (members_installed_parts s) Hi) as Hall.
  set (h := member (S n) r).
  destruct (_isFrozen (getMember r s) || bool_decide (_emitCount (getMember r s) = 0)
            || emptyOf (getMember r s)) eqn:Hc.
  - exists false, s. split; [by apply (clearValue_refused h s (Hall r))|].
    split; [done|]. split; [done|]. split; [apply same_system_refl|].
    intros Hf Hn He. rewrite Hf, He, bool_decide_eq_false_2 in Hc; done.
  - apply orb_false_elim in Hc as [Hc He]. apply orb_false_elim in Hc as [Hf Hn].
    apply bool_decide_eq_false in Hn.
    set (d := defaultOf (flavor (host_getU h s)) (next_ref (host_getW h s))).
    set (s1 := host_setW h (allocated (flavor (host_getU h s)) (host_getW h s)) s).
    assert (Hobs : observed_by h d None false s1
                     (if _isMuted (getMember r s) then s1
                      else pushed_state h d None false s1)).
    { unfold observed_by.
      match goal with
      | |- if ?c then _ else _ => change c with (_isMuted (getMember r s))
      end.
      destruct (_isMuted (getMember r s)); [done|]. split; [|done].
      apply (subscription_paused n r); [done|].
      unfold relationshipsWorking.
      change (relationshipsAutoPaused (pushed_state h d None false s1))
        with (relationshipsAutoPaused s).
      by rewrite Ha. }
    eexists _, _. split.
    { apply (clearValue_observed h s _ (Hall r) Hf Hn He Hobs). }
    unfold h. split; [|split; [|split]].
    + intros r' Hr'. rewrite (getMember_settled_other _ _ _ _ _ Hr').
      destruct (_isMuted (getMember r s)); destruct r, r'; done.
    + apply members_installed_parts. intros r'.
      destruct (decide (r' = r)) as [->|Hne].
      * rewrite getMember_settled.
        unfold installed. apply defaultOf_defined.
      * rewrite (getMember_settled_other _ _ _ _ _ Hne), <- (Hall r').
        destruct (_isMuted (getMember r s)); destruct r, r'; done.
    + apply same_system_settled.
      destruct (_isMuted (getMember r s)); repeat split; done.
    + intros _ _ _. rewrite getMember_settled. reflexivity.
Qed.

Lemma AsyncSystem_emit_run s :
  AsyncSystem_emit s
  = Done tt (with_sys_emitted (S (sys_emitCount s))
               (VDict (next_ref (sys_world s))
                  [("query"%string, emittedValue (queryUnit s));
                   ("data"%string, emittedValue (dataUnit s));
                   ("error"%string, emittedValue (errorUnit s));
                   ("pending"%string, emittedValue (pendingUnit s))])
               (with_world (with_next_ref (S (next_ref (sys_world s))) (sys_world s)) s)).
Proof. reflexivity. Qed.

(** [executeDataUnitRelationship] with the default options: the pending
    Unit is told [false], the error Unit is cleared, and the system emits
    once. *)
Lemma executeDataUnitRelationship_run n s0 :
  relationshipsManuallyPaused s0 = false →
  members_installed s0 = true →
  is_false (AsyncCfg.autoUpdatePendingValue (sys_config s0)) = false →
  is_true (AsyncCfg.clearErrorOnQuery (sys_config s0)) = false →
  is_false (AsyncCfg.clearErrorOnData (sys_config s0)) = false →
  _isFrozen (pendingUnit s0) = false →
  isValidValue (flavor (pendingUnit s0)) (VBool false) = true →
  custom_ok (pendingUnit s0) (VBool false) = true →
  _isFrozen (errorUnit s0) = false → _emitCount (errorUnit s0) ≠ 0 →
  emptyOf (errorUnit s0) = false →
  ∃ sq, executeDataUnitRelationship (subscription (S n)) s0 = Done tt sq
    ∧ dataUnit sq = dataUnit s0
    ∧ sys_emitCount sq = S (sys_emitCount s0)
    ∧ (∃ ref, _value (errorUnit sq) = defaultOf (flavor (errorUnit s0)) ref)
    ∧ _value (pendingUnit sq) = VBool false
    ∧ relationshipsAutoPaused sq = false
    ∧ relationshipsManuallyPaused sq = false
    ∧ sys_config sq = sys_config s0
    ∧ members_installed sq = true
    ∧ (∃ ref, sys_emittedValue sq
              = VDict ref [("query"%string, emittedValue (queryUnit sq));
                           ("data"%string, emittedValue (dataUnit sq));
                           ("error"%string, emittedValue (errorUnit sq));
                           ("pending"%string, emittedValue (pendingUnit sq))]).
Proof.
  intros Hm Hi Hauto Hceq Hced Hpf Hpv Hpc Hef Hen Hee.
  unfold executeDataUnitRelationship.
  unfold bind at 1. unfold modify at 1.
  set (sA := with_autoPaused true s0).
  (* the pending Unit *)
  destruct (pending_update_paused n sA eq_refl Hm Hi Hpf Hpv Hpc)
    as (b & sB & HrunB & HpB & HdB & HeB & HiB & HcfB & HapB & HmpB & HecB & HevB).
  assert (HstepB : autoUpdatePendingValue (subscription (S n)) false sA = Done tt sB).
  { unfold autoUpdatePendingValue. unfold bind at 1. unfold gets at 1.
    change (sys_config (id sA)) with (sys_config s0). rewrite Hauto. simpl.
    fold (member (S n) Pending). by rewrite (bind_Done _ _ _ _ _ HrunB). }
  rewrite (bind_Done _ _ _ _ _ HstepB).
  unfold bind at 1. unfold gets at 1.
  change (sys_config (id sB)) with (sys_config sB). rewrite HcfB.
  change (sys_config sA) with (sys_config s0). rewrite Hceq, Hced. simpl.
  (* the error Unit *)
  destruct (clear_member_paused n Error sB ltac:(done) HapB HiB)
    as (b' & sC & HrunC & HothC & HiC & (HcfC & HapC & HmpC & HecC & HevC) & HvalC).
  assert (HstepC : clearValueOf (subscription (S n)) Error sB = Done tt sC).
  { unfold clearValueOf. fold (member (S n) Error).
    by rewrite (bind_Done _ _ _ _ _ HrunC). }
  rewrite (bind_Done _ _ _ _ _ HstepC).
  assert (HerrC : _value (errorUnit sC)
                  = defaultOf (flavor (errorUnit s0)) (next_ref (sys_world sB))).
  { pose proof HvalC as H. simpl in H. rewrite HeB in H. by apply H. }
  (* the query Unit *)
  assert (HstepD : ∃ sD,
    when (is_true (AsyncCfg.clearQueryOnData (sys_config s0)))
         (clearValueOf (subscription (S n)) Query) sC = Done tt sD
    ∧ (∀ r', r' ≠ Query → getMember r' sD = getMember r' sC)
    ∧ members_installed sD = true ∧ same_system sC sD).
  { destruct (is_true (AsyncCfg.clearQueryOnData (sys_config s0))).
    - rewrite HapB in HapC.
      destruct (clear_member_paused n Query sC ltac:(done) HapC HiC)
        as (b'' & sD & HrunD & HothD & HiD & HsameD & _).
      exists sD. split; [|done].
      unfold when, clearValueOf. fold (member (S n) Query).
      by rewrite (bind_Done _ _ _ _ _ HrunD).
    - exists sC. split; [done|]. split; [done|]. split; [done|].
      apply same_system_refl. }
  destruct HstepD as (sD & HrunD & HothD & HiD & HcfD & HapD & HmpD & HecD & HevD).
  rewrite (bind_Done _ _ _ _ _ HrunD).
  unfold bind at 1. unfold modify at 1.
  rewrite AsyncSystem_emit_run.
  eexists. split; [reflexivity|]. simpl.
  pose proof (HothD Data ltac:(done)) as HdD.
  pose proof (HothD Error ltac:(done)) as HeD.
  pose proof (HothD Pending ltac:(done)) as HpD.
  pose proof (HothC Data ltac:(done)) as HdC.
  pose proof (HothC Pending ltac:(done)) as HpC.
  simpl in HdD, HeD, HpD, HdC, HpC.
  split; [by rewrite HdD, HdC, HdB|].
  split; [by rewrite HecD, HecC, HecB|].
  split; [exists (next_ref (sys_world sB)); by rewrite HeD|].
  split; [by rewrite HpD, HpC|].
  split; [done|].
  split; [by rewrite HmpD, HmpC, HmpB|].
  split; [by rewrite HcfD, HcfC, HcfB|].
  split; [exact HiD|].
  by eexists.
Qed.

(** C6 (as amended).  Take a system whose options leave [clearErrorOnData]
    and [autoUpdatePendingValue] on and [clearErrorOnQuery] off, whose
    relationships are working, and whose data Unit is not muted.  If a
    dispatch to the data Unit is accepted while the error Unit is not frozen,
    has emitted and is not empty, and the pending Unit is not frozen and lets
    [false] through its type check and its custom check, then the dispatch
    returns [true], the system emits exactly once (a combined value made of
    the emitted values of the four members as they are at the end), the
    error Unit holds its default value, the pending Unit holds [false], and
    the relationships are working again. *)
Theorem data_dispatch_emits_once (n : nat) (s : AsyncSystem) (v : Value)
    (options : option DispatchOptions) :
  is_false (AsyncCfg.clearErrorOnData (sys_config s)) = false →
  is_true (AsyncCfg.clearErrorOnQuery (sys_config s)) = false →
  is_false (AsyncCfg.autoUpdatePendingValue (sys_config s)) = false →
  relationshipsWorking s = true →
  members_installed s = true →
  _isMuted (dataUnit s) = false →
  serializabilityChecked (sys_world s) v = true →
  admits (dataUnit s) v (options ≫= force) = true →
  _isFrozen (errorUnit s) = false →
  _emitCount (errorUnit s) ≠ 0 →
  emptyOf (errorUnit s) = false →
  _isFrozen (pendingUnit s) = false →
  isValidValue (flavor (pendingUnit s)) (VBool false) = true →
  custom_ok (pendingUnit s) (VBool false) = true →
  ∃ s', dispatch (member (S (S n)) Data) (Direct v) options s = Done true s'
    ∧ sys_emitCount s' = S (sys_emitCount s)
    ∧ _value (dataUnit s') = (copied (dataUnit s) v (sys_world s)).1
    ∧ (∃ ref, _value (errorUnit s') = defaultOf (flavor (errorUnit s)) ref)
    ∧ _value (pendingUnit s') = VBool false
    ∧ relationshipsWorking s' = true
    ∧ (∃ ref, sys_emittedValue s'
              = VDict ref [("query"%string, emittedValue (queryUnit s'));
                           ("data"%string, emittedValue (dataUnit s'));
                           ("error"%string, emittedValue (errorUnit s'));
                           ("pending"%string, emittedValue (pendingUnit s'))]).
Proof.
  intros Hced Hceq Hauto Hw Hi Hmu Hser Hadm Hef Hen Hee Hpf Hpv Hpc.
  pose proof (proj1 (members_installed_parts s) Hi) as Hall.
  set (h := member (S (S n)) Data).
  set (c := copied (host_getU h s) v (host_getW h s)).
  set (s1 := host_setW h c.2 s).
  set (push := pushed_state h c.1 options false s1).
  assert (Hmp : relationshipsManuallyPaused s = false).
  { unfold relationshipsWorking in Hw. apply andb_prop in Hw as [_ Hw].
    by apply negb_true_iff in Hw. }
  assert (Hdef : defined_for (flavor (dataUnit s)) c.1 = true).
  { unfold c. rewrite copied_defined. apply valid_defined.
    unfold admits in Hadm. by destruct (_isFrozen _), (isValidValue _ _). }
  assert (Hip : members_installed push = true).
  { apply members_installed_parts.
    intros []; [apply (Hall Query)|exact Hdef|apply (Hall Error)|apply (Hall Pending)]. }
  destruct (executeDataUnitRelationship_run n push Hmp Hip Hauto Hceq Hced
              Hpf Hpv Hpc Hef Hen Hee)
    as (sq & Hrun & Hd & Hec & Herr & Hpend & Hap & Hmq & Hcf & Hiq & Hcomb).
  assert (Hobs : observed_by h c.1 options false s1 sq).
  { unfold observed_by.
    match goal with
    | |- if ?c then _ else _ => change c with (_isMuted (dataUnit s))
    end.
    rewrite Hmu. split; [|exact Hd].
    change (host_subscriber h ?ev (pushed_state h c.1 options false s1))
      with (relationship (subscription (S n)) Data ev push).
    unfold relationship. unfold bind at 1. unfold gets at 1.
    change (relationshipsWorking (id push)) with (relationshipsWorking s).
    by rewrite Hw. }
  eexists. split.
  { apply (dispatch_observed h v options s sq (Hall Data) Hser Hadm Hobs). }
  split; [exact Hec|]. split; [reflexivity|].
  split; [exact Herr|]. split; [exact Hpend|].
  split; [unfold relationshipsWorking; simpl; by rewrite Hap, Hmq|].
  destruct Hcomb as [ref Hcomb]. exists ref.
  change (sys_emittedValue (settled h ?x sq)) with (sys_emittedValue sq).
  rewrite Hcomb.
  change (queryUnit (settled h ?x sq)) with (queryUnit sq).
  change (errorUnit (settled h ?x sq)) with (errorUnit sq).
  change (pendingUnit (settled h ?x sq)) with (pendingUnit sq).
  change (dataUnit (settled h ?x sq)) with x.
  rewrite Hd. simpl. by rewrite Hmu.
Qed.

Lemma data_dispatch_emits_once_witness :
  ∃ s', dispatch (member 2 Data) (Direct (VString "data")) None
          (sampleSystem defaultAsyncCfg) = Done true s'
    ∧ sys_emitCount s' = 2
    ∧ _value (errorUnit s') = VUndefined
    ∧ _value (pendingUnit s') = VBool false.
Proof.
  destruct (data_dispatch_emits_once 0 (sampleSystem defaultAsyncCfg)
              (VString "data") None)
    as (s' & Hrun & Hcount & _ & [ref Herr] & Hpend & _);
    try reflexivity; try discriminate.
  exists s'. split; [exact Hrun|]. split; [exact Hcount|]. split; [exact Herr|].
  exact Hpend.
Defined.

(** With [clearErrorOnQuery] on, a dispatch to the data Unit leaves the
    error Unit as it is. *)
Lemma clearErrorOnQuery_keeps_error_on_data :
  AsyncCfg.clearErrorOnData (sys_config (sampleSystem clearErrorOnQueryCfg)) = Some true
  ∧ AsyncCfg.autoUpdatePendingValue (sys_config (sampleSystem clearErrorOnQueryCfg))
    = Some true
  ∧ relationshipsManuallyPaused (sampleSystem clearErrorOnQueryCfg) = false
  ∧ _value (errorUnit (sampleSystem clearErrorOnQueryCfg)) = VString "boom"
  ∧ emptyOf (errorUnit (sampleSystem clearErrorOnQueryCfg)) = false
  ∧ dispatch (member 2 Data) (Direct (VString "data")) None
      (sampleSystem clearErrorOnQueryCfg)
    = Done true (afterData clearErrorOnQueryCfg)
  ∧ sys_emitCount (afterData clearErrorOnQueryCfg)
    = S (sys_emitCount (sampleSystem clearErrorOnQueryCfg))
  ∧ _value (pendingUnit (afterData clearErrorOnQueryCfg)) = VBool false
  ∧ _value (errorUnit (afterData clearErrorOnQueryCfg)) = VString "boom"
  ∧ emptyOf (errorUnit (afterData clearErrorOnQueryCfg)) = false.
Proof. repeat apply conj; vm_compute; reflexivity. Qed.

End Systems.

(** * More of the library: what the methods of a Unit have in common *)

Section UnitLaws.
Import Solo.

Lemma unmute_solo s :
  installed (u s) = true →
  unmute host s =
    Done tt
      (if _isMuted (u s) then
         let s1 := {| u := with_isMuted false (u s); w := w s |} in
         let s2 := if emitOnUnmute (u s)
                   then {| u := with_emitOnUnmute false (u (pushing s1));
                           w := w (pushing s1) |}
                   else s1 in
         {| u := match eventsSubject (u s2) with
                 | Some log => with_eventsSubject (Some (EventUnitUnmute :: log)) (u s2)
                 | None => u s2
                 end;
            w := w s2 |}
       else s).
Proof.
  intros Hi. unfold unmute.
  rewrite (bind_Done _ _ _ _ _ (this_run host _)).
  change (host_getU host s) with (u s).
  destruct (_isMuted (u s)) eqn:Em; [|done]. simpl.
  rewrite (bind_Done _ _ _ _ _ (update_run host _ _)).
  change (host_setU host (with_isMuted false (host_getU host s)) s)
    with {| u := with_isMuted false (u s); w := w s |}.
  set (s1 := {| u := with_isMuted false (u s); w := w s |}).
  destruct (emitOnUnmute (u s)) eqn:Ee.
  - unfold when. unfold bind at 1. unfold bind at 1.
    rewrite (emit_solo s1 Hi). rewrite (update_run host).
    rewrite (bind_Done _ _ _ _ _ (this_run host _)).
    change (host_getU host ?x) with (u x). simpl.
    destruct (eventsSubject (u s)); reflexivity.
  - unfold when. unfold bind at 1. unfold ret at 1.
    rewrite (bind_Done _ _ _ _ _ (this_run host _)).
    change (host_getU host ?x) with (u x). simpl.
    destruct (eventsSubject (u s)); reflexivity.
Qed.

Lemma same_stores_refl w0 : same_stores w0 w0.
Proof. by repeat split. Qed.

Lemma same_stores_trans w1 w2 w3 :
  same_stores w1 w2 → same_stores w2 w3 → same_stores w1 w3.
Proof.
  intros (A1 & A2 & A3 & A4 & A5) (B1 & B2 & B3 & B4 & B5).
  repeat split; congruence.
Qed.

Lemma copyOut_stores x w0 : same_stores w0 (copyOut x w0).2.
Proof.
  unfold copyOut. destruct (_ && _); [|apply same_stores_refl].
  by destruct (deepCopy _ _).
Qed.

Lemma copied_stores x o w0 : same_stores w0 (copied x o w0).2.
Proof.
  unfold copied. destruct (is_true _); [|apply same_stores_refl].
  by destruct (deepCopy _ _).
Qed.

Lemma proposed_stores p x w0 : same_stores w0 (proposed p x w0).2.
Proof. destruct p; [apply same_stores_refl|apply copyOut_stores]. Qed.

Lemma allocated_stores f w0 : same_stores w0 (allocated f w0).
Proof. by destruct f. Qed.

Lemma initialAllocated_stores x w0 : same_stores w0 (initialAllocated x w0).
Proof.
  unfold initialAllocated. destruct (is_undefined _);
    [apply allocated_stores|apply same_stores_refl].
Qed.

(** The shape of the state after an operation that returned [true]. *)
Lemma historyOp_accepted op s s' :
  wf (u s) = true →
  runHistoryOp op s = Done true s' →
  _isFrozen (u s) = false
  ∧ ∃ v o skip l i w0 e,
      s' = logged e (installing v o skip {| u := with_cache l i (u s); w := w0 |})
      ∧ same_stores (w s) w0
      ∧ defined_for (flavor (u s)) v = true.
Proof.
  intros Hwf Hrun. pose proof Hwf as Hwf'.
  apply wf_parts in Hwf' as (Hi & Hall & Hidx).
  assert (Hjump : ∀ steps, jump host steps s = Done true s' →
    _isFrozen (u s) = false
    ∧ ∃ v o skip l i w0 e,
        s' = logged e (installing v o skip {| u := with_cache l i (u s); w := w0 |})
        ∧ same_stores (w s) w0 ∧ defined_for (flavor (u s)) v = true).
  { intros steps. rewrite (jump_solo steps s Hwf).
    destruct (jumpRefused (u s) steps) eqn:Hr; [done|]. intros [= <-].
    unfold jumpRefused in Hr.
    apply orb_false_elim in Hr as [Hr H3]. apply orb_false_elim in Hr as [Hr H2].
    apply orb_false_elim in Hr as [H0 H1].
    apply bool_decide_eq_false in H1, H2, H3.
    split; [done|].
    eexists _, _, _, _, _, _, _. split; [reflexivity|].
    split; [apply same_stores_refl|].
    apply array_get_defined; [done|lia]. }
  destruct op; simpl in Hrun.
  - unfold dispatch in Hrun. rewrite (dispatchActual_solo _ _ s Hi) in Hrun.
    simpl in Hrun.
    destruct (serializabilityChecked _ _); [|done].
    destruct (admits _ _ _) eqn:Ha; [|done]. injection Hrun as <-.
    assert (Hf : _isFrozen (u s) = false).
    { unfold admits in Ha. by destruct (_isFrozen _). }
    split; [exact Hf|].
    exists (copied (u s) (proposed valueOrProducer (u s) (w s)).1
              (proposed valueOrProducer (u s) (w s)).2).1, options, false,
           (_cachedValues (u s)), (_cacheIndex (u s)),
           (copied (u s) (proposed valueOrProducer (u s) (w s)).1
              (proposed valueOrProducer (u s) (w s)).2).2, 
           (EventUnitDispatch (proposed valueOrProducer (u s) (w s)).1 options).
    split; [|split].
    + unfold dispatched, logged. simpl. by rewrite with_cache_id.
    + eapply same_stores_trans; [apply proposed_stores|apply copied_stores].
    + rewrite copied_defined. apply valid_defined.
      unfold admits in Ha. by destruct (_isFrozen _), (isValidValue _ _).
  - exact (Hjump steps Hrun).
  - exact (Hjump (-1)%Z Hrun).
  - exact (Hjump 1%Z Hrun).
  - unfold jumpToStart in Hrun.
    rewrite (bind_Done _ _ _ _ _ (this_run host _)) in Hrun. exact (Hjump _ Hrun).
  - unfold jumpToEnd in Hrun.
    rewrite (bind_Done _ _ _ _ _ (this_run host _)) in Hrun. exact (Hjump _ Hrun).
  - rewrite (clearValue_solo s Hi) in Hrun.
    destruct (_isFrozen (u s)) eqn:Hf; [done|]. split; [done|].
    destruct (_ || _ || _); [done|]. injection Hrun as <-.
    eexists _, _, _, (_cachedValues (u s)), (_cacheIndex (u s)), _, _.
    split; [|split].
    + unfold valueCleared, logged. simpl. rewrite with_cache_id. reflexivity.
    + apply allocated_stores.
    + apply defaultOf_defined.
  - rewrite (resetValue_solo s Hi) in Hrun.
    destruct (_isFrozen (u s)) eqn:Hf; [done|]. split; [done|].
    destruct (strict_eq _ _); [done|]. injection Hrun as <-.
    eexists _, _, _, (_cachedValues (u s)), (_cacheIndex (u s)), _, _.
    split; [|split].
    + unfold valueReset, logged. simpl. rewrite with_cache_id. reflexivity.
    + eapply same_stores_trans; apply initialAllocated_stores.
    + apply initialOf_defined.
Qed.

(** The shape of the state after an operation that returned [false]. *)
Lemma historyOp_refused op s s' :
  wf (u s) = true →
  runHistoryOp op s = Done false s' →
  (u s' = u s
   ∨ ∃ v reason options, u s' = fired (EventUnitDispatchFail v reason options) (u s))
  ∧ same_stores (w s) (w s').
Proof.
  intros Hwf Hrun. pose proof Hwf as Hwf'.
  apply wf_parts in Hwf' as (Hi & Hall & Hidx).
  assert (Hjump : ∀ steps, jump host steps s = Done false s' → s' = s).
  { intros steps. rewrite (jump_solo steps s Hwf).
    destruct (jumpRefused (u s) steps); [|done]. by intros [= <-]. }
  assert (Hsame : s' = s → (u s' = u s
     ∨ ∃ v reason options, u s' = fired (EventUnitDispatchFail v reason options) (u s))
     ∧ same_stores (w s) (w s')).
  { intros ->. split; [by left|apply same_stores_refl]. }
  destruct op; simpl in Hrun.
  - unfold dispatch in Hrun. rewrite (dispatchActual_solo _ _ s Hi) in Hrun.
    simpl in Hrun.
    destruct (serializabilityChecked _ _); [|done].
    destruct (admits _ _ _) eqn:Ha; [done|]. injection Hrun as <-.
    split; [right; by eexists _, _, _|]. apply proposed_stores.
  - exact (Hsame (Hjump steps Hrun)).
  - exact (Hsame (Hjump (-1)%Z Hrun)).
  - exact (Hsame (Hjump 1%Z Hrun)).
  - unfold jumpToStart in Hrun.
    rewrite (bind_Done _ _ _ _ _ (this_run host _)) in Hrun.
    exact (Hsame (Hjump _ Hrun)).
  - unfold jumpToEnd in Hrun.
    rewrite (bind_Done _ _ _ _ _ (this_run host _)) in Hrun.
    exact (Hsame (Hjump _ Hrun)).
  - rewrite (clearValue_solo s Hi) in Hrun.
    destruct (_ || _ || _); [|done]. injection Hrun as <-. by apply Hsame.
  - rewrite (resetValue_solo s Hi) in Hrun.
    destruct (_isFrozen (u s)) eqn:Hf; [injection Hrun as <-; by apply Hsame|].
    destruct (strict_eq _ _); [|done]. injection Hrun as <-.
    split; [by left|]. apply initialAllocated_stores.
Qed.

(** What [updateValueAndCache] does to the counters and the flags. *)
Lemma installing_flags v o skip x0 w0 :
  let s' := installing v o skip {| u := x0; w := w0 |} in
  _isMuted (u s') = _isMuted x0 ∧ _isFrozen (u s') = _isFrozen x0
  ∧ config (u s') = config x0 ∧ flavor (u s') = flavor x0
  ∧ cacheSize (u s') = cacheSize x0 ∧ _initialValue (u s') = _initialValue x0
  ∧ eventsSubject (u s') = eventsSubject x0
  ∧ _value (u s') = v
  ∧ emitOnUnmute (u s') = _isMuted x0
  ∧ _emitCount (u s')
    = (if _isMuted x0 then _emitCount x0 else S (_emitCount x0))
  ∧ (_isMuted x0 = true → emittedValue (u s') = emittedValue x0)
  ∧ (_isMuted x0 = false →
     emittedValue (u s') = (copyOut (u s') w0).1).
Proof.
  simpl. repeat apply conj; try reflexivity.
  - by intros ->.
  - by intros ->.
Qed.

(** X1.  An operation that returns [false] (a refused dispatch, jump,
    [clearValue] or [resetValue]) leaves the value, the cache and its index,
    the emit count and the emitted value, the flags and the stores as they
    were; at most the event log of the Unit grows. *)
Theorem refused_operation_changes_nothing (s s' : Solo.t) (op : HistoryOp) :
  wf (u s) = true →
  runHistoryOp op s = Done false s' →
  _value (u s') = _value (u s)
  ∧ _cachedValues (u s') = _cachedValues (u s)
  ∧ _cacheIndex (u s') = _cacheIndex (u s)
  ∧ _emitCount (u s') = _emitCount (u s)
  ∧ emittedValue (u s') = emittedValue (u s)
  ∧ _isFrozen (u s') = _isFrozen (u s)
  ∧ _isMuted (u s') = _isMuted (u s)
  ∧ emitOnUnmute (u s') = emitOnUnmute (u s)
  ∧ storages (w s') = storages (w s).
Proof.
  intros Hwf Hrun.
  destruct (historyOp_refused op s s' Hwf Hrun) as [[->|(v & r & o & ->)] (Hst & _)];
    by repeat apply conj.
Qed.

Lemma refused_operation_changes_nothing_witness :
  let s' := finalState (dispatch host (Direct (num 7)) None guardedUnit) guardedUnit in
  _value (u s') = _value (u guardedUnit)
  ∧ _cachedValues (u s') = _cachedValues (u guardedUnit)
  ∧ _cacheIndex (u s') = _cacheIndex (u guardedUnit)
  ∧ _emitCount (u s') = _emitCount (u guardedUnit)
  ∧ emittedValue (u s') = emittedValue (u guardedUnit)
  ∧ _isFrozen (u s') = _isFrozen (u guardedUnit)
  ∧ _isMuted (u s') = _isMuted (u guardedUnit)
  ∧ emitOnUnmute (u s') = emitOnUnmute (u guardedUnit)
  ∧ storages (w s') = storages (w guardedUnit).
Proof.
  apply (refused_operation_changes_nothing guardedUnit _
           (OpDispatch (Direct (num 7)) None)); vm_compute; reflexivity.
Defined.

(** X2.  A dispatch, a jump, [clearValue] and [resetValue] push to the
    subscribers exactly once when they return [true] and the Unit is not
    muted, and the value pushed is what [value()] returns; a muted Unit
    pushes nothing and remembers that it has to on [unmute]; an operation
    that returns [false] pushes nothing. *)
Theorem pushes_exactly_when_accepted (s s' : Solo.t) (op : HistoryOp) (b : bool) :
  wf (u s) = true →
  runHistoryOp op s = Done b s' →
  _emitCount (u s')
  = (if b && negb (_isMuted (u s)) then S (_emitCount (u s)) else _emitCount (u s))
  ∧ _isMuted (u s') = _isMuted (u s)
  ∧ (b = true → emitOnUnmute (u s') = _isMuted (u s))
  ∧ (b = true → _isMuted (u s) = false →
     ∃ w0, emittedValue (u s') = (copyOut (u s') w0).1).
Proof.
  intros Hwf Hrun. destruct b.
  - destruct (historyOp_accepted op s s' Hwf Hrun)
      as (Hf & v & o & skip & l & i & w0 & e & -> & Hst & Hd).
    destruct (installing_flags v o skip (with_cache l i (u s)) w0)
      as (H1 & H2 & H3 & H4 & H5 & H6 & H7 & H8 & H9 & H10 & H11 & H12).
    simpl in *. repeat apply conj; try done.
    + by destruct (_isMuted (u s)).
    + intros _ Hm. exists w0. exact (H12 Hm).
  - destruct (historyOp_refused op s s' Hwf Hrun) as [[->|(v & r & o & ->)] _];
      by repeat apply conj.
Qed.

Lemma pushes_exactly_when_accepted_witness :
  let s' := finalState (dispatch host (Direct (num 7)) None numUnit5) numUnit5 in
  _emitCount (u s') = 2 ∧ _isMuted (u s') = false.
Proof.
  destruct (pushes_exactly_when_accepted numUnit5
              (finalState (dispatch host (Direct (num 7)) None numUnit5) numUnit5)
              (OpDispatch (Direct (num 7)) None) true) as (H1 & H2 & _);
    [vm_compute; reflexivity | vm_compute; reflexivity |].
  split; [exact H1 | exact H2].
Defined.

End UnitLaws.

(** ** Muting *)

Section Muting.
Import Solo.

Lemma historyOp_bounded op s b s' :
  bounded (u s) → runHistoryOp op s = Done b s' → bounded (u s').
Proof.
  intros Hb Hrun. destruct op; simpl in Hrun.
  - by destruct (dispatch_bounded _ _ _ _ _ Hb Hrun).
  - by destruct (jump_bounded _ _ _ _ Hb Hrun).
  - by destruct (jump_bounded _ _ _ _ Hb Hrun).
  - by destruct (jump_bounded _ _ _ _ Hb Hrun).
  - unfold jumpToStart in Hrun.
    rewrite (bind_Done _ _ _ _ _ (this_run host _)) in Hrun.
    by destruct (jump_bounded _ _ _ _ Hb Hrun).
  - unfold jumpToEnd in Hrun.
    rewrite (bind_Done _ _ _ _ _ (this_run host _)) in Hrun.
    by destruct (jump_bounded _ _ _ _ Hb Hrun).
  - by destruct (clearValue_bounded _ _ _ Hb Hrun).
  - by destruct (resetValue_bounded _ _ _ Hb Hrun).
Qed.

(** What a muted Unit looks like after any number of operations. *)
Lemma muted_operations ops : ∀ s bs s1,
  bounded (u s) → _isMuted (u s) = true →
  runHistoryOps ops s = Done bs s1 →
  bounded (u s1) ∧ _isMuted (u s1) = true
  ∧ _emitCount (u s1) = _emitCount (u s)
  ∧ emittedValue (u s1) = emittedValue (u s)
  ∧ emitOnUnmute (u s1) = (emitOnUnmute (u s) || existsb id bs).
Proof.
  induction ops as [|op ops IH]; intros s bs s1 Hb Hm Hrun.
  - injection Hrun as <- <-. simpl. rewrite orb_false_r.
    split; [exact Hb|]. by repeat apply conj.
  - simpl in Hrun. unfold bind at 1 in Hrun.
    destruct (runHistoryOp op s) as [b s'|e s'|] eqn:Hop; try done.
    unfold bind at 1 in Hrun.
    destruct (runHistoryOps ops s') as [bs' s''|e s''|] eqn:Hops; try done.
    injection Hrun as <- <-.
    pose proof (historyOp_bounded op s b s' Hb Hop) as Hb'.
    pose proof Hb as (Hwf & _ & _).
    assert (Hstep : _isMuted (u s') = true ∧ _emitCount (u s') = _emitCount (u s)
                    ∧ emittedValue (u s') = emittedValue (u s)
                    ∧ emitOnUnmute (u s') = (emitOnUnmute (u s) || b)).
    { destruct b.
      - destruct (historyOp_accepted op s s' Hwf Hop)
          as (Hf & v & o & skip & l & i & w0 & e & -> & Hst & Hd).
        simpl. rewrite Hm, orb_true_r. by repeat apply conj.
      - rewrite orb_false_r.
        destruct (historyOp_refused op s s' Hwf Hop) as [[->|(v & r & o & ->)] _];
          by repeat apply conj. }
    destruct Hstep as (Hm' & Hc' & He' & Ho').
    destruct (IH s' bs' s'' Hb' Hm' Hops) as (H1 & H2 & H3 & H4 & H5).
    split; [exact H1|]. repeat apply conj; try done; try congruence.
    rewrite H5, Ho'. simpl. by rewrite orb_assoc.
Qed.

(** X3.  Whatever is done to a Unit between [mute()] and [unmute()], its
    subscribers see nothing while it is muted, and [unmute()] pushes
    exactly once, the value the Unit then holds, if at least one of the
    operations returned [true], and nothing otherwise. *)
Theorem unmute_pushes_the_latest_value_once (s0 s2 : Solo.t)
    (ops : list HistoryOp) (bs : list bool) :
  bounded (u s0) →
  _isMuted (u s0) = false → emitOnUnmute (u s0) = false →
  (mute host;; let* bs := runHistoryOps ops in unmute host;; ret bs) s0
  = Done bs s2 →
  ∃ s1, runHistoryOps ops {| u := with_isMuted true (u s0); w := w s0 |} = Done bs s1
    ∧ _emitCount (u s1) = _emitCount (u s0)
    ∧ emittedValue (u s1) = emittedValue (u s0)
    ∧ _isMuted (u s2) = false
    ∧ _value (u s2) = _value (u s1)
    ∧ _cachedValues (u s2) = _cachedValues (u s1)
    ∧ _emitCount (u s2)
      = (if existsb id bs then S (_emitCount (u s0)) else _emitCount (u s0))
    ∧ (existsb id bs = true →
       emittedValue (u s2) = (copyOut (u s2) (w s1)).1)
    ∧ (existsb id bs = false → emittedValue (u s2) = emittedValue (u s0)).
Proof.
  intros Hb Hm He Hrun.
  unfold bind at 1 in Hrun. unfold mute in Hrun. rewrite (update_run host) in Hrun.
  change (host_setU host (with_isMuted true (host_getU host s0)) s0)
    with {| u := with_isMuted true (u s0); w := w s0 |} in Hrun.
  set (sm := {| u := with_isMuted true (u s0); w := w s0 |}) in *.
  unfold bind at 1 in Hrun.
  destruct (runHistoryOps ops sm) as [bs' s1|e s1|] eqn:Hops; try done.
  assert (Hbm : bounded (u sm)) by exact Hb.
  destruct (muted_operations ops sm bs' s1 Hbm eq_refl Hops)
    as (Hb1 & Hm1 & Hc1 & Hv1 & Ho1).
  pose proof Hb1 as (Hwf1 & _ & _). apply wf_parts in Hwf1 as (Hi1 & _ & _).
  unfold bind at 1 in Hrun. rewrite (unmute_solo s1 Hi1), Hm1 in Hrun.
  injection Hrun as <- <-.
  exists s1. split; [reflexivity|]. split; [exact Hc1|]. split; [exact Hv1|].
  change (emitOnUnmute (u sm)) with (emitOnUnmute (u s0)) in Ho1.
  rewrite He in Ho1. simpl in Ho1. rewrite Ho1.
  change (_emitCount (u sm)) with (_emitCount (u s0)) in Hc1.
  change (emittedValue (u sm)) with (emittedValue (u s0)) in Hv1.
  destruct (existsb id bs'); simpl.
  - repeat apply conj; try done.
    + by destruct (eventsSubject (u s1)).
    + by destruct (eventsSubject (u s1)).
    + by destruct (eventsSubject (u s1)).
    + destruct (eventsSubject (u s1)); simpl; by rewrite Hc1.
    + intros _. by destruct (eventsSubject (u s1)).
  - repeat apply conj; try done.
    + by destruct (eventsSubject (u s1)).
    + by destruct (eventsSubject (u s1)).
    + by destruct (eventsSubject (u s1)).
    + destruct (eventsSubject (u s1)); simpl; by rewrite Hc1.
    + intros _. destruct (eventsSubject (u s1)); simpl; by rewrite Hv1.
Qed.

Lemma unmute_pushes_the_latest_value_once_witness :
  _emitCount (u numUnit5_unmuted) = 2
  ∧ _value (u numUnit5_unmuted) = num 8
  ∧ emittedValue (u numUnit5_unmuted) = num 8.
Proof.
  destruct (unmute_pushes_the_latest_value_once numUnit5 numUnit5_unmuted
              dispatch7and8 [true; true] numUnit5_bounded)
    as (s1 & H1 & H2 & H3 & H4 & H5 & H6 & H7 & H8 & H9);
    [vm_compute; reflexivity .. |].
  split; [exact H7|]. split; vm_compute; reflexivity.
Defined.

End Muting.

(** ** Moving in the cache *)

Section Navigation.
Import Solo.

Lemma jump_accepted steps s s' :
  bounded (u s) → jump host steps s = Done true s' →
  _isFrozen (u s) = false
  ∧ (0 ≤ Z.of_nat (_cacheIndex (u s)) + steps
       ≤ Z.of_nat (List.length (_cachedValues (u s))) - 1)%Z
  ∧ steps ≠ 0%Z
  ∧ _cachedValues (u s') = _cachedValues (u s)
  ∧ Z.of_nat (_cacheIndex (u s')) = (Z.of_nat (_cacheIndex (u s)) + steps)%Z
  ∧ _value (u s') = array_get (_cacheIndex (u s')) (_cachedValues (u s))
  ∧ _isFrozen (u s') = false
  ∧ bounded (u s').
Proof.
  intros Hb Hrun. pose proof Hb as (Hwf & _ & _).
  destruct (jump_bounded _ _ _ _ Hb Hrun) as (Hb' & _).
  rewrite (jump_solo steps s Hwf) in Hrun.
  destruct (jumpRefused (u s) steps) eqn:Hr; [done|]. injection Hrun as <-.
  unfold jumpRefused in Hr.
  apply orb_false_elim in Hr as [Hr H3]. apply orb_false_elim in Hr as [Hr H2].
  apply orb_false_elim in Hr as [H0 H1].
  apply bool_decide_eq_false in H1, H2, H3.
  split; [done|]. split; [lia|]. split; [lia|]. simpl.
  split; [done|]. split; [lia|]. split; [done|]. split; [done|]. exact Hb'.
Qed.

Lemma jump_possible steps s :
  wf (u s) = true → _isFrozen (u s) = false →
  (0 ≤ Z.of_nat (_cacheIndex (u s)) + steps
     ≤ Z.of_nat (List.length (_cachedValues (u s))) - 1)%Z →
  steps ≠ 0%Z →
  jump host steps s = Done true (jumped steps s).
Proof.
  intros Hwf Hf Hr Hs. rewrite (jump_solo steps s Hwf).
  unfold jumpRefused. rewrite Hf. simpl.
  by rewrite !bool_decide_eq_false_2 by lia.
Qed.

(** X4.  For a whole number [n] and a Unit whose index is a whole number,
    a successful [jump(n)] is undone by [jump(-n)]: the cache is the same,
    the index is back where it was, and so is the value if the Unit held
    the value its index pointed at.  In particular [goForward()] undoes
    [goBack()] and the other way round. *)
Theorem jump_is_undone_by_the_opposite_jump (s s1 : Solo.t) (steps : Z) :
  bounded (u s) →
  jump host steps s = Done true s1 →
  ∃ s2, jump host (- steps) s1 = Done true s2
    ∧ _cachedValues (u s2) = _cachedValues (u s)
    ∧ _cacheIndex (u s2) = _cacheIndex (u s)
    ∧ (history_at_current (u s) → _value (u s2) = _value (u s)).
Proof.
  intros Hb Hrun.
  destruct (jump_accepted steps s s1 Hb Hrun)
    as (Hf & Hr & Hs & Hc1 & Hi1 & Hv1 & Hf1 & Hb1).
  pose proof Hb1 as (Hwf1 & _ & _).
  assert (Hback : jump host (- steps) s1 = Done true (jumped (- steps) s1)).
  { apply jump_possible; [done|done| |lia].
    rewrite Hi1, Hc1.
    pose proof Hb as (Hwf & _ & _). apply wf_parts in Hwf as (_ & _ & Hidx). lia. }
  exists (jumped (- steps) s1). split; [exact Hback|].
  destruct (jump_accepted (- steps) s1 _ Hb1 Hback)
    as (_ & _ & _ & Hc2 & Hi2 & Hv2 & _).
  assert (Hidx2 : _cacheIndex (u (jumped (- steps) s1)) = _cacheIndex (u s)) by lia.
  split; [congruence|]. split; [exact Hidx2|].
  intros Hcur. rewrite Hv2, Hidx2, Hc1. unfold array_get.
  unfold history_at_current in Hcur. by rewrite Hcur.
Qed.

Lemma numUnitCap4_12_bounded : bounded (u numUnitCap4_12).
Proof. split; [|split]; vm_compute; reflexivity. Qed.

Lemma jump_is_undone_by_the_opposite_jump_witness :
  ∃ s2, jump host (- (-1)) (jumped (-1) numUnitCap4_12) = Done true s2
    ∧ _cachedValues (u s2) = _cachedValues (u numUnitCap4_12)
    ∧ _cacheIndex (u s2) = _cacheIndex (u numUnitCap4_12)
    ∧ (history_at_current (u numUnitCap4_12) →
       _value (u s2) = _value (u numUnitCap4_12)).
Proof.
  apply (jump_is_undone_by_the_opposite_jump numUnitCap4_12
           (jumped (-1) numUnitCap4_12) (-1) numUnitCap4_12_bounded).
  vm_compute. reflexivity.
Defined.

(** X5.  [jumpToStart()] succeeds exactly when the Unit is not frozen and
    its index is not 0, and then the index is 0 and the value the first
    cached one; [jumpToEnd()] succeeds exactly when the Unit is not frozen
    and its index is not the last, and then the index is the last and the
    value the last cached one.  Neither changes the cache, and a refused
    one changes nothing. *)
Theorem jumpToStart_and_jumpToEnd (s : Solo.t) :
  bounded (u s) →
  (∃ b s', jumpToStart host s = Done b s'
     ∧ (b = true ↔ _isFrozen (u s) = false ∧ 0 < _cacheIndex (u s))
     ∧ (b = true →
        _cacheIndex (u s') = 0
        ∧ _value (u s') = array_get 0 (_cachedValues (u s))
        ∧ _cachedValues (u s') = _cachedValues (u s))
     ∧ (b = false → s' = s))
  ∧ (∃ b s', jumpToEnd host s = Done b s'
     ∧ (b = true ↔ _isFrozen (u s) = false
                    ∧ _cacheIndex (u s) < List.length (_cachedValues (u s)) - 1)
     ∧ (b = true →
        _cacheIndex (u s') = List.length (_cachedValues (u s)) - 1
        ∧ _value (u s')
          = array_get (List.length (_cachedValues (u s)) - 1) (_cachedValues (u s))
        ∧ _cachedValues (u s') = _cachedValues (u s))
     ∧ (b = false → s' = s)).
Proof.
  intros Hb. pose proof Hb as (Hwf & _ & _).
  pose proof Hwf as Hwf'. apply wf_parts in Hwf' as (_ & _ & Hidx).
  assert (Hjump : ∀ steps, ∃ b s', jump host steps s = Done b s'
     ∧ (b = true ↔ _isFrozen (u s) = false
          ∧ (0 ≤ Z.of_nat (_cacheIndex (u s)) + steps
               ≤ Z.of_nat (List.length (_cachedValues (u s))) - 1)%Z
          ∧ steps ≠ 0%Z)
     ∧ (b = true →
        Z.of_nat (_cacheIndex (u s')) = (Z.of_nat (_cacheIndex (u s)) + steps)%Z
        ∧ _value (u s') = array_get (_cacheIndex (u s')) (_cachedValues (u s))
        ∧ _cachedValues (u s') = _cachedValues (u s))
     ∧ (b = false → s' = s)).
  { intros steps. pose proof (jump_solo steps s Hwf) as Hrun.
    destruct (jumpRefused (u s) steps) eqn:Hr.
    - exists false, s. split; [exact Hrun|]. split; [|done].
      split; [done|]. intros (Hf & Hrange & Hs).
      unfold jumpRefused in Hr. rewrite Hf in Hr. simpl in Hr.
      rewrite !bool_decide_eq_false_2 in Hr by lia. done.
    - exists true, (jumped steps s). split; [exact Hrun|].
      destruct (jump_accepted steps s _ Hb Hrun)
        as (Hf & Hrange & Hs & Hc & Hi & Hv & _).
      split; [done|]. split; [done|]. done. }
  split.
  - destruct (Hjump (- Z.of_nat (_cacheIndex (u s)))%Z)
      as (b & s' & Hrun & Hiff & Hok & Hno).
    exists b, s'. split.
    { unfold jumpToStart. by rewrite (bind_Done _ _ _ _ _ (this_run host _)). }
    split.
    { rewrite Hiff. split; [intros (Hf & Hr & Hs)|intros (Hf & Hr)];
        (split; [exact Hf|]); lia. }
    split; [|exact Hno].
    intros Hbt. destruct (Hok Hbt) as (Hi & Hv & Hc).
    assert (Hi0 : _cacheIndex (u s') = 0) by lia.
    rewrite Hi0 in Hv. done.
  - destruct (Hjump (Z.of_nat (List.length (_cachedValues (u s))) - 1
                     - Z.of_nat (_cacheIndex (u s)))%Z)
      as (b & s' & Hrun & Hiff & Hok & Hno).
    exists b, s'. split.
    { unfold jumpToEnd. by rewrite (bind_Done _ _ _ _ _ (this_run host _)). }
    split.
    { rewrite Hiff. split; [intros (Hf & Hr & Hs)|intros (Hf & Hr)];
        (split; [exact Hf|]); lia. }
    split; [|exact Hno].
    intros Hbt. destruct (Hok Hbt) as (Hi & Hv & Hc).
    apply Hiff in Hbt as (_ & Hrange & _).
    assert (Hi0 : _cacheIndex (u s') = List.length (_cachedValues (u s)) - 1) by lia.
    rewrite Hi0 in Hv. done.
Qed.

Lemma jumpToStart_and_jumpToEnd_witness :
  ∃ b s', jumpToStart host numUnitCap4_12 = Done b s'
     ∧ (b = true ↔ _isFrozen (u numUnitCap4_12) = false
                    ∧ 0 < _cacheIndex (u numUnitCap4_12))
     ∧ (b = true →
        _cacheIndex (u s') = 0
        ∧ _value (u s') = array_get 0 (_cachedValues (u numUnitCap4_12))
        ∧ _cachedValues (u s') = _cachedValues (u numUnitCap4_12))
     ∧ (b = false → s' = numUnitCap4_12).
Proof.
  exact (proj1 (jumpToStart_and_jumpToEnd numUnitCap4_12 numUnitCap4_12_bounded)).
Defined.

End Navigation.

(** ** Clearing and resetting *)

Section Clearing.
Import Solo.

Lemma emptyOf_default x r :
  _value x = defaultOf (flavor x) r → emptyOf x = true.
Proof.
  unfold emptyOf. intros ->. by destruct (flavor x).
Qed.

(** X6.  After a successful [clearValue()] the Unit holds its default value
    and is empty, so that a second [clearValue()] is refused and changes
    nothing. *)
Theorem clearValue_twice (s s' : Solo.t) :
  installed (u s) = true →
  clearValue host s = Done true s' →
  _value (u s') = defaultOf (flavor (u s)) (next_ref (w s))
  ∧ emptyOf (u s') = true
  ∧ clearValue host s' = Done false s'.
Proof.
  intros Hi Hrun. rewrite (clearValue_solo s Hi) in Hrun.
  destruct (_ || _ || _); [done|]. injection Hrun as <-.
  assert (He : emptyOf (u (valueCleared s)) = true).
  { by apply (emptyOf_default _ (next_ref (w s))). }
  split; [done|]. split; [exact He|].
  rewrite (clearValue_solo (valueCleared s)).
  - by rewrite He, orb_true_r.
  - apply defaultOf_defined.
Qed.

Lemma clearValue_twice_witness :
  _value (u (valueCleared numUnit5)) = VNum (Fin 0)
  ∧ emptyOf (u (valueCleared numUnit5)) = true
  ∧ clearValue host (valueCleared numUnit5) = Done false (valueCleared numUnit5).
Proof.
  apply (clearValue_twice numUnit5 (valueCleared numUnit5));
    vm_compute; reflexivity.
Defined.

Lemma deepCopy_next v : ∀ n, n ≤ (deepCopy v n).2.
Proof.
  induction v as [| | b | q | x | r items IH | r props IH | r props IH | r j | r]
    using Value_nested_ind; intros n; try (simpl; lia).
  - rewrite deepCopy_VArray. simpl.
    enough (n ≤ (deepCopy_items items n).2) by lia.
    revert n. induction items as [|x items IHl]; intros n; [simpl; lia|].
    apply Forall_cons in IH as [IHx IH].
    rewrite deepCopy_items_cons. simpl.
    specialize (IHx n). specialize (IHl IH (deepCopy x n).2). lia.
  - rewrite deepCopy_VDict. simpl.
    enough (n ≤ (deepCopy_props props n).2) by lia.
    revert n. induction props as [|[k x] props IHl]; intros n; [simpl; lia|].
    apply Forall_cons in IH as [IHx IH]. simpl in IHx.
    rewrite deepCopy_props_cons. simpl.
    specialize (IHx n). specialize (IHl IH (deepCopy x n).2). lia.
  - change (deepCopy (VInstance r props) n) with (deepCopy (VDict r props) n).
    rewrite deepCopy_VDict. simpl.
    enough (n ≤ (deepCopy_props props n).2) by lia.
    revert n. induction props as [|[k x] props IHl]; intros n; [simpl; lia|].
    apply Forall_cons in IH as [IHx IH]. simpl in IHx.
    rewrite deepCopy_props_cons. simpl.
    specialize (IHx n). specialize (IHl IH (deepCopy x n).2). lia.
Qed.

Lemma copyOut_next x w0 : next_ref w0 ≤ next_ref (copyOut x w0).2.
Proof.
  unfold copyOut. destruct (_ && _); [|done].
  pose proof (deepCopy_next (_value x) (next_ref w0)).
  by destruct (deepCopy _ _).
Qed.

Lemma copied_next x o w0 : next_ref w0 ≤ next_ref (copied x o w0).2.
Proof.
  unfold copied. destruct (is_true _); [|done].
  pose proof (deepCopy_next o (next_ref w0)).
  by destruct (deepCopy _ _).
Qed.

Lemma persisted_next x w0 : next_ref (persisted x w0) = next_ref w0.
Proof. unfold persisted. by destruct (is_true _). Qed.

Lemma installing_next v o skip x0 w0 :
  next_ref w0 ≤ next_ref (w (installing v o skip {| u := x0; w := w0 |})).
Proof.
  unfold installing. simpl. rewrite persisted_next.
  destruct (_isMuted x0); [done|]. apply copyOut_next.
Qed.

Lemma strict_eq_refl v : v ≠ VNum NaN → strict_eq v v = true.
Proof.
  destruct v as [| | b | [| | |q] | x | r l | r l | r l | r j | r]; simpl;
    intros H; try done; try apply Nat.eqb_refl.
  - by destruct b.
  - by apply bool_decide_eq_true_2.
  - by apply bool_decide_eq_true_2.
Qed.

(** X7.  After a successful [resetValue()] the Unit holds its initial value
    (the default value if none was given).  Unless that value is [NaN], or
    a list or dictionary Unit was given no initial value, a second
    [resetValue()] is refused and leaves the Unit as it is. *)
Theorem resetValue_twice (s s' : Solo.t) :
  installed (u s) = true →
  resetValue host s = Done true s' →
  _value (u s') = initialOf (u s) (next_ref (initialAllocated (u s) (w s)))
  ∧ (_initialValue (u s) ≠ VNum NaN →
     is_undefined (_initialValue (u s)) = false
     ∨ flavor (u s) ≠ ListUnit ∧ flavor (u s) ≠ DictUnit →
     ∃ s'', resetValue host s' = Done false s'' ∧ u s'' = u s').
Proof.
  intros Hi Hrun. rewrite (resetValue_solo s Hi) in Hrun.
  destruct (_isFrozen (u s)) eqn:Hf; [done|].
  destruct (strict_eq _ _); [done|]. injection Hrun as <-.
  split; [done|]. intros Hnan Hcase.
  assert (Hi' : installed (u (valueReset s)) = true)
    by apply (initialOf_defined (u s)).
  rewrite (resetValue_solo (valueReset s) Hi').
  change (_isFrozen (u (valueReset s))) with (_isFrozen (u s)). rewrite Hf.
  assert (Heq : strict_eq (_value (u (valueReset s)))
                  (initialOf (u (valueReset s)) (next_ref (w (valueReset s)))) = true).
  { change (_value (u (valueReset s)))
      with (initialOf (u s) (next_ref (initialAllocated (u s) (w s)))).
    change (initialOf (u (valueReset s)) ?r) with (initialOf (u s) r).
    unfold initialOf.
    destruct (is_undefined (_initialValue (u s))) eqn:Eu.
    - destruct Hcase as [|[Hl Hd]]; [done|].
      destruct (flavor (u s)); try done.
    - by apply strict_eq_refl. }
  rewrite Heq. by eexists.
Qed.

Lemma resetValue_twice_witness :
  let s7 := finalState (dispatch host (Direct (num 7)) None numUnit5) numUnit5 in
  _value (u (valueReset s7)) = num 5
  ∧ ∃ s'', resetValue host (valueReset s7) = Done false s'' ∧ u s'' = u (valueReset s7).
Proof.
  intros s7.
  destruct (resetValue_twice s7 (valueReset s7)) as [H1 H2];
    [vm_compute; reflexivity | vm_compute; reflexivity |].
  split; [vm_compute; reflexivity|].
  apply H2; [vm_compute; discriminate | left; vm_compute; reflexivity].
Defined.

(** X8.  A list or dictionary Unit that was given no initial value is
    never equal to its initial value, a new empty list or dictionary:
    unless it is frozen, [resetValue()] succeeds every time, also when the
    Unit is empty already and right after another [resetValue()]. *)
Theorem resetValue_without_initialValue_never_refused (s : Solo.t) :
  installed (u s) = true →
  _isFrozen (u s) = false →
  flavor (u s) = ListUnit ∨ flavor (u s) = DictUnit →
  _initialValue (u s) = VUndefined →
  older_than (next_ref (w s)) (_value (u s)) →
  ∃ s', resetValue host s = Done true s'
    ∧ _value (u s') = defaultOf (flavor (u s)) (S (next_ref (w s)))
    ∧ emptyOf (u s') = true
    ∧ _emitCount (u s')
      = (if _isMuted (u s) then _emitCount (u s) else S (_emitCount (u s)))
    ∧ ∃ s'', resetValue host s' = Done true s''.
Proof.
  intros Hi Hf Hfl Hinit Hold.
  assert (Hstep : ∀ t, installed (u t) = true → _isFrozen (u t) = false →
            flavor (u t) = flavor (u s) → _initialValue (u t) = VUndefined →
            older_than (next_ref (w t)) (_value (u t)) →
            resetValue host t = Done true (valueReset t)
            ∧ _value (u (valueReset t)) = defaultOf (flavor (u s)) (S (next_ref (w t)))
            ∧ older_than (next_ref (w (valueReset t))) (_value (u (valueReset t)))).
  { intros t Hit Hft Hflt Hinitt Holdt.
    rewrite (resetValue_solo t Hit), Hft.
    assert (Hne : strict_eq (_value (u t)) (initialOf (u t) (next_ref (w t))) = false).
    { unfold initialOf. rewrite Hinitt, Hflt. simpl.
      destruct Hfl as [-> | ->]; simpl; destruct (_value (u t)) eqn:Ev; try done;
        apply Nat.eqb_neq; intros ->; specialize (Holdt (next_ref (w t)));
        simpl in Holdt; specialize (Holdt eq_refl); lia. }
    rewrite Hne. split; [done|].
    assert (Hv : _value (u (valueReset t))
                 = defaultOf (flavor (u s)) (S (next_ref (w t)))).
    { change (_value (u (valueReset t)))
        with (initialOf (u t) (next_ref (initialAllocated (u t) (w t)))).
      unfold initialOf, initialAllocated. rewrite Hinitt, Hflt. simpl.
      by destruct Hfl as [-> | ->]. }
    split; [exact Hv|].
    rewrite Hv. intros r Hr.
    assert (Hw : S (S (next_ref (w t))) ≤ next_ref (w (valueReset t))).
    { unfold valueReset. simpl.
      etransitivity; [|apply installing_next].
      unfold initialAllocated. rewrite Hinitt, Hflt. simpl.
      by destruct Hfl as [-> | ->]. }
    destruct Hfl as [Hl | Hl]; rewrite Hl in Hr; simpl in Hr;
      injection Hr as <-; lia. }
  destruct (Hstep s Hi Hf eq_refl Hinit Hold) as (Hrun & Hv & Hold').
  exists (valueReset s). split; [exact Hrun|]. split; [exact Hv|].
  split; [by apply (emptyOf_default _ (S (next_ref (w s))))|].
  split; [simpl; by destruct (_isMuted (u s))|].
  exists (valueReset (valueReset s)).
  apply (Hstep (valueReset s)); try done.
  apply (initialOf_defined (u s)).
Qed.

Lemma listUnitEmpty_older :
  older_than (next_ref (w listUnitEmpty)) (_value (u listUnitEmpty)).
Proof. intros r. vm_compute. intros [= <-]. lia. Qed.

Lemma resetValue_without_initialValue_never_refused_witness :
  emptyOf (u listUnitEmpty) = true
  ∧ ∃ s', resetValue host listUnitEmpty = Done true s'
      ∧ _emitCount (u s') = 3.
Proof.
  split; [vm_compute; reflexivity|].
  destruct (resetValue_without_initialValue_never_refused listUnitEmpty)
    as (s' & H1 & H2 & H3 & H4 & H5);
    [vm_compute; reflexivity | vm_compute; reflexivity | left; vm_compute; reflexivity
    | vm_compute; reflexivity | exact listUnitEmpty_older |].
  exists s'. split; [exact H1|]. exact H4.
Defined.

End Clearing.

(** ** [clear] and [reset] *)

Section ClearAndReset.
Import Solo.

Lemma unfreeze_solo s :
  ∃ sa, unfreeze host s = Done tt sa
    ∧ _isFrozen (u sa) = false ∧ w sa = w s ∧ same_content (u s) (u sa).
Proof.
  rewrite (unfreeze_run host). change (host_getU host s) with (u s).
  destruct (_isFrozen (u s)) eqn:Hf; eexists; (split; [reflexivity|]);
    by repeat apply conj.
Qed.

Lemma same_content_wf x y : same_content x y → wf x = true → wf y = true.
Proof.
  intros (H1 & H2 & H3 & H4 & H5 & H6 & H7 & H8 & H9 & H10 & H11).
  unfold wf, installed. by rewrite H1, H6, H7, H9.
Qed.

Lemma same_content_bounded x y : same_content x y → bounded x → bounded y.
Proof.
  intros Hs (Hwf & Hc & Hw). pose proof (same_content_wf x y Hs Hwf).
  destruct Hs as (H1 & H2 & H3 & H4 & H5 & H6 & H7 & H8 & H9 & H10 & H11).
  unfold bounded, capacity_positive, within_capacity in *. by rewrite H3, H6.
Qed.

Lemma same_content_emptyOf x y : same_content x y → emptyOf y = emptyOf x.
Proof.
  intros (H1 & H2 & H3 & H4 & H5 & H6 & H7 & H8 & H9 & H10 & H11).
  unfold emptyOf. by rewrite H1, H9.
Qed.

(** X9.  [clear()] ends with a Unit that is not frozen and has an empty
    cache; the Unit is empty as well, unless it never emitted.  It does so
    whether the Unit was frozen or not. *)
Theorem clear_empties_the_unit (s : Solo.t) :
  wf (u s) = true →
  ∃ s', clear host None s = Done tt s'
    ∧ _isFrozen (u s') = false
    ∧ _cachedValues (u s') = []
    ∧ _cacheIndex (u s') = 0
    ∧ (_emitCount (u s) ≠ 0 → emptyOf (u s') = true).
Proof.
  intros Hwf. unfold clear.
  destruct (unfreeze_solo s) as (sa & Hrun & Hf & Hw & Hsame).
  rewrite (bind_Done _ _ _ _ _ Hrun).
  pose proof (same_content_wf _ _ Hsame Hwf) as Hwfa.
  pose proof Hwfa as Hp. apply wf_parts in Hp as (Hia & Halla & Hidxa).
  pose proof (same_content_emptyOf _ _ Hsame) as Hea.
  destruct Hsame as (H1 & H2 & H3 & H4 & H5 & H6 & H7 & H8 & H9 & H10 & H11).
  assert (Hb : ∃ sb, clearValue host sa = Done (negb (bool_decide (_emitCount (u s) = 0)
                                                      || emptyOf (u s))) sb
                ∧ _isFrozen (u sb) = false
                ∧ _cacheIndex (u sb) ≤ List.length (_cachedValues (u sb)) - 1
                ∧ (_emitCount (u s) ≠ 0 → emptyOf (u sb) = true)).
  { rewrite (clearValue_solo sa Hia), Hf, H10, Hea. simpl.
    destruct (bool_decide (_emitCount (u s) = 0) || emptyOf (u s)) eqn:Hc.
    - exists sa. split; [done|]. split; [done|]. split; [done|].
      intros Hn. rewrite bool_decide_eq_false_2 in Hc by done. simpl in Hc. congruence.
    - exists (valueCleared sa). split; [done|]. split; [done|]. split.
      + simpl. apply cacheAfter_index. done.
      + intros _. by apply (emptyOf_default _ (next_ref (w sa))). }
  destruct Hb as (sb & Hrunb & Hfb & Hidxb & Heb).
  rewrite (bind_Done _ _ _ _ _ Hrunb).
  unfold bind at 1. rewrite (clearCache_solo None sb).
  unfold clearCacheRefused. rewrite Hfb. simpl.
  rewrite !andb_false_r, !orb_false_r.
  destruct (bool_decide (List.length (_cachedValues (u sb)) = 0)) eqn:Hc.
  - apply bool_decide_eq_true in Hc.
    rewrite (fire_run host). eexists. split; [reflexivity|]. simpl.
    split; [done|]. split; [by apply nil_length_inv|]. split; [lia|done].
  - rewrite (fire_run host). eexists. split; [reflexivity|]. simpl.
    split; [done|]. unfold splice. simpl. rewrite !Nat.sub_0_r.
    rewrite drop_all. simpl. split; [done|]. split; [done|].
    intros Hn. specialize (Heb Hn). unfold emptyOf in *. exact Heb.
Qed.

Lemma clear_empties_the_unit_witness :
  ∃ s', clear host None numUnit7_frozen = Done tt s'
    ∧ _isFrozen (u s') = false
    ∧ _cachedValues (u s') = []
    ∧ _cacheIndex (u s') = 0
    ∧ (_emitCount (u numUnit7_frozen) ≠ 0 → emptyOf (u s') = true).
Proof.
  apply (clear_empties_the_unit numUnit7_frozen). vm_compute. reflexivity.
Defined.

Lemma cacheAfter_last v x :
  _cacheIndex x ≤ List.length (_cachedValues x) - 1 →
  (cacheAfter v None x).2 = List.length (cacheAfter v None x).1 - 1.
Proof.
  intros Hi. unfold cacheAfter. simpl.
  destruct (bool_decide (List.length (_cachedValues x) = 0)
            || bool_decide (_cacheIndex x = List.length (_cachedValues x) - 1)) eqn:E;
    simpl; [done|].
  apply orb_false_elim in E as [E1 E2]. apply bool_decide_eq_false in E1, E2.
  rewrite length_app, length_take. simpl. lia.
Qed.

Lemma drop_to_last (l : list Value) v :
  l !! (List.length l - 1) = Some v → drop (List.length l - 1) l = [v].
Proof.
  intros H. destruct (decide (List.length l = 0)) as [E|E].
  { apply nil_length_inv in E. by subst. }
  rewrite <- (take_drop (List.length l - 1) l) in H at 2.
  rewrite lookup_app_r in H by (rewrite length_take; lia).
  rewrite length_take in H.
  replace (List.length l - 1 - (List.length l - 1) `min` List.length l) with 0 in H by lia.
  assert (Hlen : List.length (drop (List.length l - 1) l) = 1)
    by (rewrite length_drop; lia).
  destruct (drop (List.length l - 1) l) as [|a [|b r]]; simpl in *; try lia.
  congruence.
Qed.

(** X10.  [reset()] ends with a Unit that is not frozen and whose cache
    holds at most one value, at index 0.  If the value was not the initial
    one, the Unit then holds the initial value (the default value if none
    was given) and the cache holds exactly that value. *)
Theorem reset_leaves_the_initial_value (s : Solo.t) :
  bounded (u s) →
  ∃ s', reset host None s = Done tt s'
    ∧ _isFrozen (u s') = false
    ∧ List.length (_cachedValues (u s')) ≤ 1
    ∧ _cacheIndex (u s') = 0
    ∧ (strict_eq (_value (u s)) (initialOf (u s) (next_ref (w s))) = true →
       _value (u s') = _value (u s))
    ∧ (strict_eq (_value (u s)) (initialOf (u s) (next_ref (w s))) = false →
       _value (u s') = initialOf (u s) (next_ref (initialAllocated (u s) (w s)))
       ∧ _cachedValues (u s') = [_value (u s')]).
Proof.
  intros Hb. unfold reset.
  destruct (unfreeze_solo s) as (sa & Hrun & Hf & Hw & Hsame).
  rewrite (bind_Done _ _ _ _ _ Hrun).
  pose proof (same_content_bounded _ _ Hsame Hb) as Hba.
  pose proof Hba as (Hwfa & Hca & _).
  pose proof Hwfa as Hp. apply wf_parts in Hp as (Hia & Halla & Hidxa).
  destruct Hsame as (H1 & H2 & H3 & H4 & H5 & H6 & H7 & H8 & H9 & H10 & H11).
  assert (Hinit : ∀ r, initialOf (u sa) r = initialOf (u s) r).
  { intros r. unfold initialOf. by rewrite H8, H1. }
  assert (Halloc : initialAllocated (u sa) (w sa) = initialAllocated (u s) (w s)).
  { unfold initialAllocated. by rewrite H8, H1, Hw. }
  set (same := strict_eq (_value (u s)) (initialOf (u s) (next_ref (w s)))).
  assert (Hbb : ∃ sb, resetValue host sa = Done (negb same) sb
                ∧ _isFrozen (u sb) = false
                ∧ (same = true →
                   _value (u sb) = _value (u s)
                   ∧ _cachedValues (u sb) = _cachedValues (u s)
                   ∧ _cacheIndex (u sb) = _cacheIndex (u s))
                ∧ (same = false →
                   _value (u sb)
                   = initialOf (u s) (next_ref (initialAllocated (u s) (w s)))
                   ∧ _cachedValues (u sb) !! (List.length (_cachedValues (u sb)) - 1)
                     = Some (_value (u sb))
                   ∧ _cacheIndex (u sb) = List.length (_cachedValues (u sb)) - 1
                   ∧ 0 < List.length (_cachedValues (u sb)))).
  { rewrite (resetValue_solo sa Hia), Hf, H9, Hinit, Hw. fold same.
    destruct same eqn:Hs.
    - eexists. split; [reflexivity|]. simpl. split; [done|]. split; [done|done].
    - exists (valueReset sa). split; [reflexivity|]. split; [done|].
      split; [done|]. intros _.
      assert (Hv : _value (u (valueReset sa))
                   = initialOf (u s) (next_ref (initialAllocated (u s) (w s)))).
      { change (_value (u (valueReset sa)))
          with (initialOf (u sa) (next_ref (initialAllocated (u sa) (w sa)))).
        by rewrite Hinit, Halloc. }
      split; [exact Hv|].
      change (_cachedValues (u (valueReset sa)))
        with (cacheAfter (_value (u (valueReset sa))) None (u sa)).1.
      change (_cacheIndex (u (valueReset sa)))
        with (cacheAfter (_value (u (valueReset sa))) None (u sa)).2.
      pose proof (cacheAfter_last (_value (u (valueReset sa))) (u sa) Hidxa) as Hl.
      pose proof (cacheAfter_at (_value (u (valueReset sa))) None (u sa) Hidxa Hca) as Ha.
      rewrite Hl in Ha. split; [exact Ha|]. split; [exact Hl|].
      apply lookup_lt_Some in Ha. lia. }
  destruct Hbb as (sb & Hrunb & Hfb & Hsame_t & Hsame_f).
  rewrite (bind_Done _ _ _ _ _ Hrunb).
  unfold bind at 1. rewrite (clearCache_solo _ sb).
  unfold clearCacheRefused, cacheClearedState, cacheCleared. rewrite Hfb. simpl.
  rewrite !andb_false_r, !orb_false_r, !andb_true_r.
  destruct (bool_decide (List.length (_cachedValues (u sb)) = 0)
            || bool_decide (List.length (_cachedValues (u sb)) = 1)) eqn:Hc.
  - rewrite (fire_run host). eexists. split; [reflexivity|]. simpl.
    apply orb_prop in Hc as [Hc|Hc]; apply bool_decide_eq_true in Hc.
    + split; [done|]. split; [lia|].
      destruct same eqn:Hs.
      * destruct (Hsame_t eq_refl) as (Hv & Hcv & Hci).
        split; [rewrite Hci; rewrite Hcv in Hc; rewrite <- H7, <- H6 in *; lia|].
        split; [done|done].
      * destruct (Hsame_f eq_refl) as (Hv & Ha & Hci & Hlen). lia.
    + split; [done|]. split; [lia|].
      destruct same eqn:Hs.
      * destruct (Hsame_t eq_refl) as (Hv & Hcv & Hci).
        split; [rewrite Hci; rewrite Hcv in Hc; rewrite <- H7, <- H6 in *; lia|].
        split; [done|done].
      * destruct (Hsame_f eq_refl) as (Hv & Ha & Hci & Hlen).
        split; [lia|]. split; [done|]. intros _. split; [exact Hv|].
        rewrite Hc in Ha. simpl in Ha.
        destruct (_cachedValues (u sb)) as [|a [|b r]]; simpl in *; try lia.
        congruence.
  - apply orb_false_elim in Hc as [Hc0 Hc1].
    apply bool_decide_eq_false in Hc0, Hc1.
    rewrite (fire_run host). eexists. split; [reflexivity|]. simpl.
    split; [done|]. unfold splice. simpl. rewrite !Nat.sub_0_r.
    rewrite length_drop.
    split; [lia|]. split; [lia|].
    destruct same eqn:Hs.
    + destruct (Hsame_t eq_refl) as (Hv & Hcv & Hci). split; [done|done].
    + destruct (Hsame_f eq_refl) as (Hv & Ha & Hci & Hlen).
      split; [done|]. intros _. split; [exact Hv|].
      by apply drop_to_last.
Qed.

Lemma reset_leaves_the_initial_value_witness :
  ∃ s', reset host None numUnit7_frozen = Done tt s'
    ∧ _isFrozen (u s') = false
    ∧ _value (u s') = num 5
    ∧ _cachedValues (u s') = [num 5].
Proof.
  assert (Hb : bounded (u numUnit7_frozen))
    by (split; [|split]; vm_compute; reflexivity).
  destruct (reset_leaves_the_initial_value numUnit7_frozen Hb)
    as (s' & H1 & H2 & H3 & H4 & H5 & H6).
  exists s'. split; [exact H1|]. split; [exact H2|].
  destruct H6 as [H6 H7]; [vm_compute; reflexivity|].
  assert (Hv : _value (u s') = num 5) by (rewrite H6; vm_compute; reflexivity).
  split; [exact Hv|]. by rewrite H7, Hv.
Defined.

End ClearAndReset.

(** ** The store *)

Section Store.
Import Solo.

Lemma getItem_setItem_ne st k x st' k' w0 :
  (st', k') ≠ (st, k) → getItem st' k' (setItem st k x w0) = getItem st' k' w0.
Proof.
  intros Hne. unfold getItem, storageContent, setItem. simpl.
  destruct (decide (st' = st)) as [->|Hst].
  - rewrite lookup_insert_eq. simpl.
    rewrite lookup_insert_ne; [done|]. intros ->. by apply Hne.
  - by rewrite lookup_insert_ne.
Qed.

Lemma getItem_removeItem st k w0 : getItem st k (removeItem st k w0) = None.
Proof.
  unfold getItem, storageContent, removeItem. simpl.
  rewrite lookup_insert_eq. simpl. apply lookup_delete_eq.
Qed.

Lemma getItem_removeItem_ne st k st' k' w0 :
  (st', k') ≠ (st, k) → getItem st' k' (removeItem st k w0) = getItem st' k' w0.
Proof.
  intros Hne. unfold getItem, storageContent, removeItem. simpl.
  destruct (decide (st' = st)) as [->|Hst].
  - rewrite lookup_insert_eq. simpl.
    rewrite lookup_delete_ne; [done|]. intros ->. by apply Hne.
  - by rewrite lookup_insert_ne.
Qed.

Lemma startsWith_app p x : startsWith p (p +:+ x) = true.
Proof.
  induction p as [|a p IH]; [by destruct x|].
  simpl. by rewrite bool_decide_eq_true_2, IH.
Qed.

Lemma startsWith_keyOf id : startsWith KeyPrefix (keyOf id) = true.
Proof. apply startsWith_app. Qed.

(** The world after [updateValueAndCache], seen from the store. *)
Lemma installing_store v o skip x0 w0 st k :
  let s' := installing v o skip {| u := x0; w := w0 |} in
  (is_true (Cfg.persistent (config x0)) = true →
   savedDocument (u s') (w s') = Some (JsonText (wrapped v)))
  ∧ (is_true (Cfg.persistent (config x0)) = false → same_stores w0 (w s'))
  ∧ (startsWith KeyPrefix k = false → getItem st k (w s') = getItem st k w0).
Proof.
  simpl. unfold persisted, savedDocument. simpl.
  set (w1 := if _isMuted x0 then w0 else _).
  assert (Hw1 : same_stores w0 w1).
  { unfold w1. destruct (_isMuted x0); [apply same_stores_refl|apply copyOut_stores]. }
  split; [|split].
  - intros ->. apply getItem_setItem.
  - by intros ->.
  - intros Hk. destruct Hw1 as (Hs & Hc & _).
    assert (Hg : getItem st k w1 = getItem st k w0).
    { unfold getItem, storageContent. by rewrite Hs. }
    destruct (is_true _); [|exact Hg].
    rewrite getItem_setItem_ne; [exact Hg|].
    intros [= _ Hkk].
    assert (Ht : startsWith KeyPrefix k = true)
      by (rewrite Hkk; apply (startsWith_keyOf (Cfg.id (config x0)))).
    exact (eq_true_false_abs _ Ht Hk).
Qed.

(** X11.  A persistent Unit writes its value to its store on every
    operation that succeeds (a dispatch, a jump, [clearValue],
    [resetValue]), muted or not: afterwards the store holds the document of
    the current value under the key of the Unit.  A Unit that is not
    persistent leaves every store as it is. *)
Theorem every_accepted_operation_is_saved (s s' : Solo.t) (op : HistoryOp) (b : bool) :
  wf (u s) = true →
  runHistoryOp op s = Done b s' →
  (is_true (Cfg.persistent (config (u s))) = true → b = true →
   savedDocument (u s') (w s') = Some (JsonText (wrapped (_value (u s')))))
  ∧ (is_true (Cfg.persistent (config (u s))) = false →
     storages (w s') = storages (w s)).
Proof.
  intros Hwf Hrun. destruct b.
  - destruct (historyOp_accepted op s s' Hwf Hrun)
      as (Hf & v & o & skip & l & i & w0 & e & -> & Hst & Hd).
    destruct (installing_store v o skip (with_cache l i (u s)) w0 0 ""%string)
      as (H1 & H2 & _).
    split.
    + intros Hp _. exact (H1 Hp).
    + intros Hp. destruct (H2 Hp) as (Hs & _). destruct Hst as (Hs0 & _).
      simpl in *. congruence.
  - destruct (historyOp_refused op s s' Hwf Hrun) as (_ & Hs & _).
    split; [done|]. by intros _.
Qed.

Lemma every_accepted_operation_is_saved_witness :
  savedDocument (u numUnitK7) (w numUnitK7)
  = Some (JsonText (JObj [("value"%string, JNum (Qc_of_Z 7))])).
Proof.
  destruct (every_accepted_operation_is_saved
              (finalState (construct NumUnit persistentCfg5 "a" emptyWorld)
                          (blankState NumUnit persistentCfg5))
              numUnitK7 (OpDispatch (Direct (num 7)) None) true) as [H _];
    [vm_compute; reflexivity | vm_compute; reflexivity |].
  rewrite H; vm_compute; reflexivity.
Defined.

Lemma clearPersistedValue_solo s :
  clearPersistedValue host s =
    if is_true (Cfg.persistent (config (u s))) then
      Done true {| u := fired EventUnitClearPersistedValue (u s);
                   w := removeItem (storageOf (Cfg.storage (config (u s))) (w s))
                          (keyOf (Cfg.id (config (u s)))) (w s) |}
    else Done false s.
Proof.
  unfold clearPersistedValue.
  rewrite (bind_Done _ _ _ _ _ (this_run host _)).
  change (host_getU host s) with (u s).
  destruct (is_true _); [|done].
  unfold bind at 1. unfold remove, modify.
  by rewrite (bind_Done _ _ _ _ _ (fire_run host _ _)).
Qed.

(** X12.  [clearPersistedValue()] of a persistent Unit removes its document
    from the store and changes nothing else of the Unit; a Unit with the
    same options that is constructed afterwards starts from the initial
    value of its options, as if nothing had ever been saved.  On a Unit
    that is not persistent it returns [false] and does nothing. *)
Theorem clearPersistedValue_forgets (s : Solo.t) :
  (is_true (Cfg.persistent (config (u s))) = false →
   clearPersistedValue host s = Done false s)
  ∧ (is_true (Cfg.persistent (config (u s))) = true →
     ∃ s', clearPersistedValue host s = Done true s'
       ∧ savedDocument (u s') (w s') = None
       ∧ same_content (u s) (u s')
       ∧ _isFrozen (u s') = _isFrozen (u s)
       ∧ ∀ f locationId w1,
           baseConstructed (config (u s)) locationId (w s') = inr w1 →
           seed f (config (u s)) w1
           = (if serializabilityChecked w1 (Cfg.initialValue (config (u s)))
              then Some (copied (blank f (config (u s)))
                           (Cfg.initialValue (config (u s))) w1)
              else None)).
Proof.
  rewrite clearPersistedValue_solo. split; intros Hp; rewrite Hp; [done|].
  eexists. split; [reflexivity|].
  assert (Hnone : savedDocument (u s)
            (removeItem (storageOf (Cfg.storage (config (u s))) (w s))
               (keyOf (Cfg.id (config (u s)))) (w s)) = None).
  { unfold savedDocument. apply getItem_removeItem. }
  split; [exact Hnone|]. split; [by repeat apply conj|]. split; [done|].
  intros f loc w1 Hb. simpl in Hb.
  destruct (baseConstructed_frame _ _ _ _ Hb) as (Hst & Hcs & Hnr).
  unfold seed. rewrite Hp. unfold retrieved.
  assert (Hg : getItem (storageOf (Cfg.storage (config (u s))) w1)
                 (keyOf (Cfg.id (config (u s)))) w1 = None).
  { rewrite <- Hnone. unfold savedDocument, getItem, storageContent, storageOf.
    by rewrite Hst, Hcs. }
  by rewrite Hg.
Qed.

Lemma clearPersistedValue_forgets_witness :
  ∃ s', clearPersistedValue host numUnitK7 = Done true s'
    ∧ savedDocument (u s') (w s') = None
    ∧ _value (u s') = num 7.
Proof.
  destruct (proj2 (clearPersistedValue_forgets numUnitK7))
    as (s' & H1 & H2 & H3 & _); [vm_compute; reflexivity|].
  exists s'. split; [exact H1|]. split; [exact H2|].
  destruct H3 as (_ & _ & _ & _ & _ & _ & _ & _ & H9 & _). rewrite H9.
  vm_compute. reflexivity.
Defined.

(** X13.  [retrieve] after [save] under the same key and storage returns an
    object whose [value] is the saved value, up to the identity of objects,
    for every value that JSON represents exactly; for [undefined] it returns
    an object without a [value]. *)
Theorem retrieve_after_save (s : Solo.t) (key : option string) (st : option nat)
    (v : Value) :
  roundtrips v = true →
  ∃ r s', (save host key v st;; retrieve host key st) s = Done r s'
    ∧ truthy r = true
    ∧ erase (getProp "value" r) = erase v
    ∧ u s' = u s.
Proof.
  intros Hv. unfold bind at 1. unfold save, modify.
  set (w1 := setItem _ _ _ _).
  change (host_setW host w1 s) with {| u := u s; w := w1 |}.
  unfold retrieve. unfold bind at 1. unfold gets at 1.
  change (host_getW host {| u := u s; w := w1 |}) with w1.
  assert (Hg : getItem (storageOf st w1) (keyOf key) w1 = Some (JsonText (wrapped v))).
  { unfold w1. apply getItem_setItem. }
  rewrite Hg.
  change (host_getW host {| u := u s; w := w1 |}) with w1.
  destruct (parse (wrapped v) (next_ref w1)) as [r n] eqn:Ep.
  exists r. eexists. split; [reflexivity|].
  destruct (getProp_wrapped v (next_ref w1)) as [Ht Hgp].
  rewrite Ep in Ht, Hgp. simpl in Ht, Hgp.
  split; [exact Ht|]. split; [|done]. rewrite Hgp.
  unfold roundtrips in Hv. apply orb_prop in Hv as [Hv|Hv].
  - destruct (parse_stringify v Hv) as (j & Hs & Hp). rewrite Hs. apply Hp.
  - by destruct v.
Qed.

Lemma retrieve_after_save_witness :
  ∃ r s', (save host (Some "k"%string) sampleList None;;
           retrieve host (Some "k"%string) None) numUnit5 = Done r s'
    ∧ truthy r = true
    ∧ erase (getProp "value" r) = erase sampleList
    ∧ u s' = u numUnit5.
Proof.
  apply (retrieve_after_save numUnit5 (Some "k"%string) None sampleList).
  vm_compute. reflexivity.
Defined.

Lemma same_stores_getItem w1 w2 st k :
  same_stores w1 w2 → getItem st k w2 = getItem st k w1.
Proof. intros (Hs & _). unfold getItem, storageContent. by rewrite Hs. Qed.

Lemma seed_stores f cfg w1 v w2 :
  seed f cfg w1 = Some (v, w2) → same_stores w1 w2.
Proof.
  unfold seed, retrieved. intros H.
  assert (Hc : ∀ wa, (if serializabilityChecked wa (Cfg.initialValue cfg)
                      then Some (copied (blank f cfg) (Cfg.initialValue cfg) wa)
                      else None) = Some (v, w2) → same_stores wa w2).
  { clear H. intros wa Hwa. destruct (serializabilityChecked wa _); [|done].
    injection Hwa as Hwa. pose proof (f_equal snd Hwa) as E. simpl in E.
    rewrite <- E. apply copied_stores. }
  destruct (is_true (Cfg.persistent cfg)); [|by apply Hc].
  destruct (getItem _ _ w1) as [[doc|txt]|]; simpl in H.
  - destruct (truthy _).
    + injection H as _ <-. by unfold same_stores.
    + eapply same_stores_trans; [|by apply Hc]. by unfold same_stores.
  - by apply Hc.
  - by apply Hc.
Qed.

(** X14.  Whatever a Unit does, an entry of a store whose key does not
    start with [_AJS_UNIT_] is left as it is: by the construction of a
    Unit, by every operation on it, and by [clearPersistedValue()]. *)
Theorem foreign_entries_are_left_alone (st : nat) (k : string) :
  startsWith KeyPrefix k = false →
  (∀ f cfg locationId w0 s,
     construct f cfg locationId w0 = Done tt s →
     getItem st k (w s) = getItem st k w0)
  ∧ (∀ s op b s',
       wf (u s) = true → runHistoryOp op s = Done b s' →
       getItem st k (w s') = getItem st k (w s))
  ∧ (∀ s b s',
       clearPersistedValue host s = Done b s' →
       getItem st k (w s') = getItem st k (w s)).
Proof.
  intros Hk. split; [|split].
  - intros f cfg loc w0 s. rewrite construct_run.
    destruct (baseConstructed cfg loc w0) as [e|w1] eqn:Hb; [done|].
    destruct (baseConstructed_frame _ _ _ _ Hb) as (Hst & _).
    destruct (seed f cfg w1) as [[v w2]|] eqn:Hseed; [|done]. intros [= <-].
    assert (H12 : getItem st k w2 = getItem st k w1).
    { apply same_stores_getItem. by apply (seed_stores f cfg w1 v w2). }
    assert (H01 : getItem st k w1 = getItem st k w0).
    { unfold getItem, storageContent. by rewrite Hst. }
    unfold seeded. destruct (_ && _).
    + destruct (installing_store v None false (with_initialValue v (blank f cfg)) w2 st k)
        as (_ & _ & H). rewrite (H Hk). congruence.
    + destruct (installing_store (defaultOf f (next_ref w2)) None false (blank f cfg)
                  (allocated f w2) st k) as (_ & _ & H). rewrite (H Hk).
      rewrite (same_stores_getItem _ _ _ _ (allocated_stores f w2)). congruence.
  - intros s op b s' Hwf Hrun. destruct b.
    + destruct (historyOp_accepted op s s' Hwf Hrun)
        as (Hf & v & o & skip & l & i & w0 & e & -> & Hst & Hd).
      destruct (installing_store v o skip (with_cache l i (u s)) w0 st k)
        as (_ & _ & H). simpl in *. rewrite (H Hk).
      by apply same_stores_getItem.
    + destruct (historyOp_refused op s s' Hwf Hrun) as (_ & Hs).
      by apply same_stores_getItem.
  - intros s b s'. rewrite clearPersistedValue_solo.
    destruct (is_true _); intros [= <- <-]; [|done]. simpl.
    apply getItem_removeItem_ne. intros [= _ Hkk].
    assert (Ht : startsWith KeyPrefix k = true)
      by (rewrite Hkk; apply (startsWith_keyOf (Cfg.id (config (u s))))).
    exact (eq_true_false_abs _ Ht Hk).
Qed.

Lemma foreign_entries_are_left_alone_witness :
  ∃ s', runHistoryOp (OpDispatch (Direct (num 7)) None) numUnitK = Done true s'
    ∧ getItem 0 "theme" (w s') = getItem 0 "theme" (w numUnitK).
Proof.
  eexists. split; [vm_compute; reflexivity|].
  apply (proj1 (proj2 (foreign_entries_are_left_alone 0 "theme" eq_refl))
           numUnitK (OpDispatch (Direct (num 7)) None) true);
    vm_compute; reflexivity.
Defined.

(** X15.  [clearPersistentStorage(storage)] removes from the storage every
    entry whose key starts with [_AJS_UNIT_], and nothing else: the other
    entries of the storage and the other storages are as they were. *)
Theorem clearPersistentStorage_removes_the_units_entries (st : option nat)
    (w0 : World) (st' : nat) (k : string) :
  getItem st' k (clearPersistentStorage st w0)
  = (if bool_decide (st' = storageOf st w0) && startsWith KeyPrefix k
     then None else getItem st' k w0).
Proof.
  unfold clearPersistentStorage.
  set (storage := storageOf st w0).
  assert (Hgen : ∀ keys : list string,
    getItem st' k
      (foldr (λ key w', if startsWith KeyPrefix key then removeItem storage key w' else w')
             w0 keys)
    = (if bool_decide (st' = storage) && startsWith KeyPrefix k && bool_decide (k ∈ keys)
       then None else getItem st' k w0)).
  { induction keys as [|key keys IH].
    - simpl. by rewrite andb_false_r.
    - cbn [foldr fold_right]. destruct (startsWith KeyPrefix key) eqn:Hkey.
      + destruct (decide ((st', k) = (storage, key))) as [[= -> ->]|Hne].
        * rewrite getItem_removeItem, bool_decide_eq_true_2 by done.
          rewrite Hkey. cbn [andb]. rewrite bool_decide_eq_true_2; [done|]. by left.
        * rewrite (getItem_removeItem_ne _ _ _ _ _ Hne), IH.
          destruct (bool_decide (st' = storage)) eqn:Hst; cbn [andb]; [|done].
          apply bool_decide_eq_true in Hst. subst st'.
          destruct (startsWith KeyPrefix k); cbn [andb]; [|done].
          assert (k ≠ key) by (intros ->; by apply Hne).
          destruct (decide (k ∈ keys)).
          -- rewrite !bool_decide_eq_true_2; [done| by right | done].
          -- rewrite !bool_decide_eq_false_2; [done| |done].
             intros [?|?]%elem_of_cons; done.
      + rewrite IH.
        destruct (bool_decide (st' = storage)); cbn [andb]; [|done].
        destruct (startsWith KeyPrefix k) eqn:Hkk; cbn [andb]; [|done].
        assert (k ≠ key) by (intros ->; congruence).
        destruct (decide (k ∈ keys)).
        -- rewrite !bool_decide_eq_true_2; [done| by right | done].
        -- rewrite !bool_decide_eq_false_2; [done| |done].
           intros [?|?]%elem_of_cons; done. }
  rewrite Hgen.
  destruct (bool_decide (st' = storage)) eqn:Hst; cbn [andb]; [|done].
  apply bool_decide_eq_true in Hst. subst st'.
  destruct (startsWith KeyPrefix k); cbn [andb]; [|done].
  destruct (decide (k ∈ (map_to_list (storageContent storage w0)).*1)) as [Hin|Hin].
  - by rewrite bool_decide_eq_true_2.
  - rewrite bool_decide_eq_false_2 by done.
    unfold getItem. destruct (storageContent storage w0 !! k) as [x|] eqn:Hx; [|done].
    exfalso. apply Hin. apply list_elem_of_fmap.
    exists (k, x). split; [done|]. by apply elem_of_map_to_list.
Qed.

End Store.

(** ** More on systems *)

Section MoreSystems.

Lemma subscription_manually_paused fuel r ev s :
  relationshipsManuallyPaused s = true →
  subscription (S fuel) r ev s = Done tt s.
Proof.
  intros Hm.
  assert (Hw : relationshipsWorking s = false).
  { unfold relationshipsWorking. by rewrite Hm, andb_false_r. }
  destruct r; try (apply subscription_paused; done).
  simpl. unfold relationship, bind, gets, when, relationshipsWorking; simpl.
  rewrite Hm. simpl. rewrite Hm. by rewrite andb_false_r.
Qed.

Lemma dispatch_while_manually_paused n r s v options :
  relationshipsManuallyPaused s = true →
  installed (getMember r s) = true →
  serializabilityChecked (sys_world s) v = true →
  admits (getMember r s) v (options ≫= force) = true →
  ∃ s', dispatch (member (S n) r) (Direct v) options s = Done true s'
    ∧ _value (getMember r s') = (copied (getMember r s) v (sys_world s)).1
    ∧ _emitCount (getMember r s')
      = (if _isMuted (getMember r s) then _emitCount (getMember r s)
         else S (_emitCount (getMember r s)))
    ∧ (∀ r', r' ≠ r → getMember r' s' = getMember r' s)
    ∧ same_system s s'
    ∧ unitsEmitCountsBeforePausing s' = unitsEmitCountsBeforePausing s.
Proof.
  intros Hm Hi Hser Hadm.
  set (h := member (S n) r).
  set (c := copied (host_getU h s) v (host_getW h s)).
  set (s1 := host_setW h c.2 s).
  set (sq := if _isMuted (getMember r s) then s1
             else pushed_state h c.1 options false s1).
  assert (Hobs : observed_by h c.1 options false s1 sq).
  { unfold observed_by, sq.
    match goal with
    | |- if ?c then _ else _ => change c with (_isMuted (getMember r s))
    end.
    destruct (_isMuted (getMember r s)); [done|]. split; [|done].
    apply (subscription_manually_paused n r).
    change (relationshipsManuallyPaused (pushed_state h c.1 options false s1))
      with (relationshipsManuallyPaused s). exact Hm. }
  eexists. split.
  { apply (dispatch_observed h v options s sq Hi Hser Hadm Hobs). }
  unfold h. rewrite getMember_settled.
  split; [reflexivity|]. split.
  { simpl. change (host_getU (member (S n) r) s) with (getMember r s).
    by destruct (_isMuted (getMember r s)). }
  split.
  { intros r' Hr'. rewrite (getMember_settled_other _ _ _ _ _ Hr').
    unfold sq. destruct (_isMuted (getMember r s)); destruct r, r'; done. }
  unfold sq. destruct (_isMuted (getMember r s)); by repeat apply conj.
Qed.

(** X16.  While the relationships of a system are paused by
    [pauseRelationships()], an accepted dispatch to a member changes that
    member only: the other members are as they were and the system emits
    nothing. *)
Theorem manually_paused_system_is_quiet (n : nat) (r : Role) (s : AsyncSystem)
    (v : Value) (options : option DispatchOptions) :
  relationshipsManuallyPaused s = true →
  installed (getMember r s) = true →
  serializabilityChecked (sys_world s) v = true →
  admits (getMember r s) v (options ≫= force) = true →
  ∃ s', dispatch (member (S n) r) (Direct v) options s = Done true s'
    ∧ _value (getMember r s') = (copied (getMember r s) v (sys_world s)).1
    ∧ (∀ r', r' ≠ r → getMember r' s' = getMember r' s)
    ∧ sys_emitCount s' = sys_emitCount s
    ∧ sys_emittedValue s' = sys_emittedValue s
    ∧ relationshipsManuallyPaused s' = true.
Proof.
  intros Hm Hi Hser Hadm.
  destruct (dispatch_while_manually_paused n r s v options Hm Hi Hser Hadm)
    as (s' & Hrun & Hv & _ & Hoth & (_ & _ & Hmp & Hec & Hev) & _).
  exists s'. split; [exact Hrun|]. split; [exact Hv|]. split; [exact Hoth|].
  split; [exact Hec|]. split; [exact Hev|]. congruence.
Qed.

Lemma manually_paused_system_is_quiet_witness :
  ∃ s', dispatch (member 1 Data) (Direct (VString "data")) None pausedSystem
        = Done true s'
    ∧ _value (getMember Data s') = VString "data"
    ∧ _value (getMember Error s') = VString "boom"
    ∧ sys_emitCount s' = 1.
Proof.
  destruct (manually_paused_system_is_quiet 0 Data pausedSystem (VString "data") None)
    as (s' & H1 & H2 & H3 & H4 & _); [vm_compute; reflexivity ..|].
  exists s'. split; [exact H1|]. split; [exact H2|].
  split; [by rewrite (H3 Error)|exact H4].
Defined.

(** X17.  [resumeRelationships()] makes the system emit once if a member
    has emitted since [pauseRelationships()], and not at all otherwise:
    after pause, an accepted dispatch to a member that is not muted, and
    resume, the system has emitted exactly once, the combined value of the
    members as they are; after pause and resume alone it has not emitted. *)
Theorem resume_brings_the_system_up_to_date (n : nat) (r : Role) (s : AsyncSystem)
    (v : Value) (options : option DispatchOptions) :
  relationshipsWorking s = true →
  installed (getMember r s) = true →
  serializabilityChecked (sys_world s) v = true →
  admits (getMember r s) v (options ≫= force) = true →
  (∃ s', (pauseRelationships;;
          let* b := dispatch (member (S n) r) (Direct v) options in
          resumeRelationships;; ret b) s = Done true s'
     ∧ relationshipsWorking s' = true
     ∧ (∀ r', r' ≠ r → getMember r' s' = getMember r' s)
     ∧ sys_emitCount s'
       = (if _isMuted (getMember r s) then sys_emitCount s else S (sys_emitCount s))
     ∧ (_isMuted (getMember r s) = false →
        ∃ ref, sys_emittedValue s'
               = VDict ref [("query"%string, emittedValue (queryUnit s'));
                            ("data"%string, emittedValue (dataUnit s'));
                            ("error"%string, emittedValue (errorUnit s'));
                            ("pending"%string, emittedValue (pendingUnit s'))]))
  ∧ (∃ s', (pauseRelationships;; resumeRelationships) s = Done tt s'
       ∧ relationshipsWorking s' = true
       ∧ sys_emitCount s' = sys_emitCount s
       ∧ ∀ r', getMember r' s' = getMember r' s).
Proof.
  intros Hw Hi Hser Hadm.
  assert (Hap : relationshipsAutoPaused s = false ∧ relationshipsManuallyPaused s = false).
  { unfold relationshipsWorking in Hw. apply andb_prop in Hw as [H1 H2].
    by apply negb_true_iff in H1, H2. }
  destruct Hap as [Hap Hmp].
  assert (Hpause : pauseRelationships s
                   = Done tt (with_manuallyPaused true (unitsEmitCounts s) s)).
  { unfold pauseRelationships, bind, gets. simpl. by rewrite Hmp. }
  set (s1 := with_manuallyPaused true (unitsEmitCounts s) s) in *.
  split.
  - rewrite (bind_Done _ _ _ _ _ Hpause).
    destruct (dispatch_while_manually_paused n r s1 v options eq_refl Hi Hser Hadm)
      as (s2 & Hrun & Hv & Hec & Hoth & (Hcf & Hap2 & Hmp2 & Hsc & Hsv) & Hbefore).
    rewrite (bind_Done _ _ _ _ _ Hrun).
    unfold resumeRelationships.
    unfold bind at 1. unfold bind at 1. unfold gets at 1.
    change (relationshipsManuallyPaused (id s2)) with (relationshipsManuallyPaused s2).
    rewrite Hmp2. simpl.
    unfold bind at 1. unfold modify at 1.
    unfold bind at 1. unfold gets at 1.
    set (s3 := with_manuallyPaused false (unitsEmitCountsBeforePausing s2) s2).
    change (unitsEmitCountsBeforePausing (id s3)) with (unitsEmitCountsBeforePausing s2).
    change (unitsEmitCounts (id s3)) with (unitsEmitCounts s2).
    rewrite Hbefore. change (unitsEmitCountsBeforePausing s1) with (unitsEmitCounts s).
    change (getMember r s1) with (getMember r s) in *.
    assert (Hcounts : unitsEmitCounts s = unitsEmitCounts s2
                      ↔ _isMuted (getMember r s) = true).
    { assert (Ho : ∀ r', r' ≠ r →
                _emitCount (getMember r' s2) = _emitCount (getMember r' s)).
      { intros r' H. by rewrite (Hoth r' H). }
      change (unitsEmitCounts s)
        with [_emitCount (getMember Query s); _emitCount (getMember Data s);
              _emitCount (getMember Error s); _emitCount (getMember Pending s)].
      change (unitsEmitCounts s2)
        with [_emitCount (getMember Query s2); _emitCount (getMember Data s2);
              _emitCount (getMember Error s2); _emitCount (getMember Pending s2)].
      destruct (_isMuted (getMember r s)); destruct r;
        rewrite Hec;
        rewrite ?(Ho Query), ?(Ho Data), ?(Ho Error), ?(Ho Pending) by done;
        (split; [|done]); try done; intros [=]; lia. }
    destruct (_isMuted (getMember r s)) eqn:Hmu.
    + rewrite bool_decide_eq_true_2 by (by apply Hcounts). simpl.
      eexists. split; [reflexivity|].
      split; [unfold relationshipsWorking; simpl; rewrite Hap2; simpl; by rewrite Hap|].
      split; [exact Hoth|]. split; [exact Hsc|]. done.
    + rewrite bool_decide_eq_false_2.
      2:{ intros H. apply Hcounts in H. done. }
      cbn [negb]. unfold when. rewrite AsyncSystem_emit_run.
      eexists. split; [reflexivity|]. simpl.
      split; [unfold relationshipsWorking; simpl; rewrite Hap2; simpl; by rewrite Hap|].
      split; [exact Hoth|]. split; [by rewrite Hsc|].
      intros _. by eexists.
  - rewrite (bind_Done _ _ _ _ _ Hpause).
    unfold resumeRelationships, bind, gets, modify, when. simpl.
    rewrite bool_decide_eq_true_2 by done. simpl.
    eexists. split; [reflexivity|]. simpl.
    split; [unfold relationshipsWorking; simpl; by rewrite Hap|]. done.
Qed.

Lemma resume_brings_the_system_up_to_date_witness :
  ∃ s', (pauseRelationships;;
         let* b := dispatch (member 1 Data) (Direct (VString "data")) None in
         resumeRelationships;; ret b) (sampleSystem defaultAsyncCfg) = Done true s'
     ∧ relationshipsWorking s' = true
     ∧ sys_emitCount s' = 2.
Proof.
  destruct (proj1 (resume_brings_the_system_up_to_date 0 Data
                     (sampleSystem defaultAsyncCfg) (VString "data") None
                     eq_refl eq_refl eq_refl eq_refl))
    as (s' & H1 & H2 & _ & H4 & _).
  exists s'. split; [exact H1|]. split; [exact H2|exact H4].
Defined.

(** [executeErrorUnitRelationship]: the pending Unit is told [false], the
    data Unit is cleared only if the options say so, and the system emits
    once. *)
Lemma executeErrorUnitRelationship_run n s0 :
  relationshipsManuallyPaused s0 = false →
  members_installed s0 = true →
  is_false (AsyncCfg.autoUpdatePendingValue (sys_config s0)) = false →
  _isFrozen (pendingUnit s0) = false →
  isValidValue (flavor (pendingUnit s0)) (VBool false) = true →
  custom_ok (pendingUnit s0) (VBool false) = true →
  let clears := negb (is_true (AsyncCfg.clearDataOnQuery (sys_config s0)))
                && is_true (AsyncCfg.clearDataOnError (sys_config s0)) in
  ∃ sq, executeErrorUnitRelationship (subscription (S n)) s0 = Done tt sq
    ∧ errorUnit sq = errorUnit s0
    ∧ sys_emitCount sq = S (sys_emitCount s0)
    ∧ _value (pendingUnit sq) = VBool false
    ∧ (clears = false → dataUnit sq = dataUnit s0)
    ∧ (clears = true → _isFrozen (dataUnit s0) = false →
       _emitCount (dataUnit s0) ≠ 0 → emptyOf (dataUnit s0) = false →
       ∃ ref, _value (dataUnit sq) = defaultOf (flavor (dataUnit s0)) ref)
    ∧ relationshipsAutoPaused sq = false
    ∧ relationshipsManuallyPaused sq = false
    ∧ (∃ ref, sys_emittedValue sq
              = VDict ref [("query"%string, emittedValue (queryUnit sq));
                           ("data"%string, emittedValue (dataUnit sq));
                           ("error"%string, emittedValue (errorUnit sq));
                           ("pending"%string, emittedValue (pendingUnit sq))]).
Proof.
  intros Hm Hi Hauto Hpf Hpv Hpc clears.
  unfold executeErrorUnitRelationship.
  unfold bind at 1. unfold modify at 1.
  set (sA := with_autoPaused true s0).
  destruct (pending_update_paused n sA eq_refl Hm Hi Hpf Hpv Hpc)
    as (b & sB & HrunB & HpB & HdB & HeB & HiB & HcfB & HapB & HmpB & HecB & HevB).
  assert (HstepB : autoUpdatePendingValue (subscription (S n)) false sA = Done tt sB).
  { unfold autoUpdatePendingValue. unfold bind at 1. unfold gets at 1.
    change (sys_config (id sA)) with (sys_config s0). rewrite Hauto. simpl.
    fold (member (S n) Pending). by rewrite (bind_Done _ _ _ _ _ HrunB). }
  rewrite (bind_Done _ _ _ _ _ HstepB).
  unfold bind at 1. unfold gets at 1.
  change (sys_config (id sB)) with (sys_config sB). rewrite HcfB.
  change (sys_config sA) with (sys_config s0). fold clears.
  (* the data Unit *)
  assert (HstepC : ∃ sC,
    when clears (clearValueOf (subscription (S n)) Data) sB = Done tt sC
    ∧ (∀ r', r' ≠ Data → getMember r' sC = getMember r' sB)
    ∧ members_installed sC = true ∧ same_system sB sC
    ∧ (clears = false → dataUnit sC = dataUnit sB)
    ∧ (clears = true → _isFrozen (dataUnit sB) = false →
       _emitCount (dataUnit sB) ≠ 0 → emptyOf (dataUnit sB) = false →
       ∃ ref, _value (dataUnit sC) = defaultOf (flavor (dataUnit sB)) ref)).
  { destruct clears.
    - destruct (clear_member_paused n Data sB ltac:(done) HapB HiB)
        as (b' & sC & HrunC & HothC & HiC & HsameC & HvalC).
      exists sC. split.
      { unfold when, clearValueOf. fold (member (S n) Data).
        by rewrite (bind_Done _ _ _ _ _ HrunC). }
      split; [done|]. split; [done|]. split; [done|]. split; [done|].
      intros _ H1 H2 H3. eexists. by apply HvalC.
    - exists sB. split; [done|]. split; [done|]. split; [done|].
      split; [apply same_system_refl|]. split; [done|done]. }
  destruct HstepC as (sC & HrunC & HothC & HiC & (HcfC & HapC & HmpC & HecC & HevC)
                         & HkeepC & HclearC).
  rewrite (bind_Done _ _ _ _ _ HrunC).
  (* the query Unit *)
  assert (HstepD : ∃ sD,
    when (is_true (AsyncCfg.clearQueryOnError (sys_config s0)))
         (clearValueOf (subscription (S n)) Query) sC = Done tt sD
    ∧ (∀ r', r' ≠ Query → getMember r' sD = getMember r' sC)
    ∧ members_installed sD = true ∧ same_system sC sD).
  { destruct (is_true (AsyncCfg.clearQueryOnError (sys_config s0))).
    - rewrite HapB in HapC.
      destruct (clear_member_paused n Query sC ltac:(done) HapC HiC)
        as (b'' & sD & HrunD & HothD & HiD & HsameD & _).
      exists sD. split; [|done].
      unfold when, clearValueOf. fold (member (S n) Query).
      by rewrite (bind_Done _ _ _ _ _ HrunD).
    - exists sC. split; [done|]. split; [done|]. split; [done|].
      apply same_system_refl. }
  destruct HstepD as (sD & HrunD & HothD & HiD & HcfD & HapD & HmpD & HecD & HevD).
  rewrite (bind_Done _ _ _ _ _ HrunD).
  unfold bind at 1. unfold modify at 1.
  rewrite AsyncSystem_emit_run.
  eexists. split; [reflexivity|]. simpl.
  pose proof (HothD Data ltac:(done)) as HdD.
  pose proof (HothD Error ltac:(done)) as HeD.
  pose proof (HothD Pending ltac:(done)) as HpD.
  pose proof (HothC Error ltac:(done)) as HeC.
  pose proof (HothC Pending ltac:(done)) as HpC.
  simpl in HdD, HeD, HpD, HeC, HpC.
  split; [by rewrite HeD, HeC, HeB|].
  split; [by rewrite HecD, HecC, HecB|].
  split; [by rewrite HpD, HpC|].
  split; [intros Hc; by rewrite HdD, (HkeepC Hc), HdB|].
  split.
  { intros Hc H1 H2 H3. rewrite HdD.
    change (dataUnit s0) with (dataUnit sA) in H1, H2, H3 |- *.
    rewrite <- HdB in H1, H2, H3 |- *. by apply HclearC. }
  split; [done|].
  split; [by rewrite HmpD, HmpC, HmpB|].
  by eexists.
Qed.

(** X18.  An accepted dispatch to the error Unit of a system whose
    relationships are working, if the error Unit is not muted, makes the
    system emit exactly once and leaves the pending Unit at [false]; the
    data Unit is kept as it is unless [clearDataOnError] is on and
    [clearDataOnQuery] is not.  (A muted error Unit pushes nothing, so
    that no relationship runs.) *)
Theorem error_dispatch_emits_once (n : nat) (s : AsyncSystem) (v : Value)
    (options : option DispatchOptions) :
  is_false (AsyncCfg.autoUpdatePendingValue (sys_config s)) = false →
  relationshipsWorking s = true →
  members_installed s = true →
  _isMuted (errorUnit s) = false →
  serializabilityChecked (sys_world s) v = true →
  admits (errorUnit s) v (options ≫= force) = true →
  _isFrozen (pendingUnit s) = false →
  isValidValue (flavor (pendingUnit s)) (VBool false) = true →
  custom_ok (pendingUnit s) (VBool false) = true →
  let clears := negb (is_true (AsyncCfg.clearDataOnQuery (sys_config s)))
                && is_true (AsyncCfg.clearDataOnError (sys_config s)) in
  ∃ s', dispatch (member (S (S n)) Error) (Direct v) options s = Done true s'
    ∧ sys_emitCount s' = S (sys_emitCount s)
    ∧ _value (errorUnit s') = (copied (errorUnit s) v (sys_world s)).1
    ∧ _value (pendingUnit s') = VBool false
    ∧ (clears = false → dataUnit s' = dataUnit s)
    ∧ (clears = true → _isFrozen (dataUnit s) = false →
       _emitCount (dataUnit s) ≠ 0 → emptyOf (dataUnit s) = false →
       ∃ ref, _value (dataUnit s') = defaultOf (flavor (dataUnit s)) ref)
    ∧ relationshipsWorking s' = true.
Proof.
  intros Hauto Hw Hi Hmu Hser Hadm Hpf Hpv Hpc clears.
  pose proof (proj1 (members_installed_parts s) Hi) as Hall.
  set (h := member (S (S n)) Error).
  set (c := copied (host_getU h s) v (host_getW h s)).
  set (s1 := host_setW h c.2 s).
  set (push := pushed_state h c.1 options false s1).
  assert (Hmp : relationshipsManuallyPaused s = false).
  { unfold relationshipsWorking in Hw. apply andb_prop in Hw as [_ Hw].
    by apply negb_true_iff in Hw. }
  assert (Hdef : defined_for (flavor (errorUnit s)) c.1 = true).
  { unfold c. rewrite copied_defined. apply valid_defined.
    unfold admits in Hadm. by destruct (_isFrozen _), (isValidValue _ _). }
  assert (Hip : members_installed push = true).
  { apply members_installed_parts.
    intros []; [apply (Hall Query)|apply (Hall Data)|exact Hdef|apply (Hall Pending)]. }
  destruct (executeErrorUnitRelationship_run n push Hmp Hip Hauto Hpf Hpv Hpc)
    as (sq & Hrun & He & Hec & Hpend & Hkeep & Hclear & Hap & Hmq & Hcomb).
  assert (Hobs : observed_by h c.1 options false s1 sq).
  { unfold observed_by.
    match goal with
    | |- if ?c then _ else _ => change c with (_isMuted (errorUnit s))
    end.
    rewrite Hmu. split; [|exact He].
    change (host_subscriber h ?ev (pushed_state h c.1 options false s1))
      with (relationship (subscription (S n)) Error ev push).
    unfold relationship. unfold bind at 1. unfold gets at 1.
    change (relationshipsWorking (id push)) with (relationshipsWorking s).
    by rewrite Hw. }
  eexists. split.
  { apply (dispatch_observed h v options s sq (Hall Error) Hser Hadm Hobs). }
  split; [exact Hec|]. split; [reflexivity|]. split; [exact Hpend|].
  split; [exact Hkeep|]. split; [exact Hclear|].
  unfold relationshipsWorking. simpl. by rewrite Hap, Hmq.
Qed.

Lemma error_dispatch_emits_once_witness :
  ∃ s', dispatch (member 2 Error) (Direct (VString "failed")) None
          (sampleSystem defaultAsyncCfg) = Done true s'
    ∧ sys_emitCount s' = 2
    ∧ _value (pendingUnit s') = VBool false
    ∧ dataUnit s' = dataUnit (sampleSystem defaultAsyncCfg).
Proof.
  destruct (error_dispatch_emits_once 0 (sampleSystem defaultAsyncCfg)
              (VString "failed") None)
    as (s' & H1 & H2 & H3 & H4 & H5 & _); [vm_compute; reflexivity ..|].
  exists s'. split; [exact H1|]. split; [exact H2|]. split; [exact H4|].
  apply H5. vm_compute. reflexivity.
Defined.

End MoreSystems.


(** ** Observers that change the Unit they observe *)

Section Reentrant.
Context {St : Type} (h : Host St) `{!Lawful h}.
Local Abbreviation getU := (host_getU h).
Local Abbreviation setU := (host_setU h).
Local Abbreviation getW := (host_getW h).
Local Abbreviation setW := (host_setW h).

Lemma updateValueAndCache_reentrant v o skip s sq :
  _isMuted (getU s) = false →
  defined_for (flavor (getU s)) v = true →
  host_subscriber h
    (copyOut (with_emitOnUnmute false (stored v o skip (getU s))) (getW s)).1
    (pushed_state h v o skip s) = Done tt sq →
  installed (getU sq) = true →
  updateValueAndCache h v o skip s
  = Done tt (setW (persisted (getU sq) (getW sq)) sq).
Proof.
  intros Hm Hd Hrun Hi. rewrite (updateValueAndCache_run h). simpl.
  rewrite Hm.
  set (u1 := with_emitOnUnmute false (stored v o skip (getU s))) in *.
  unfold bind at 1.
  rewrite (emit_run h); [|by rewrite getU_setU].
  simpl. rewrite !getU_setU, !getW_setU, setW_setU, setU_setU.
  change (setU _ (setW _ s)) with (pushed_state h v o skip s).
  rewrite Hrun. by rewrite (updateValueInPersistentStorage_run h).
Qed.

Lemma dispatch_reentrant v o s sq :
  installed (getU s) = true →
  _isMuted (getU s) = false →
  serializabilityChecked (getW s) v = true →
  admits (getU s) v (o ≫= force) = true →
  let c := copied (getU s) v (getW s) in
  let s1 := setW c.2 s in
  host_subscriber h
    (copyOut (with_emitOnUnmute false (stored c.1 o false (getU s1))) (getW s1)).1
    (pushed_state h c.1 o false s1) = Done tt sq →
  installed (getU sq) = true →
  dispatch h (Direct v) o s
  = Done true (settled h (fired (EventUnitDispatch v o) (getU sq)) sq).
Proof.
  intros Hi Hm Hs Ha c s1 Hrun Hisq. unfold dispatch.
  rewrite (dispatchActual_run h _ _ _ Hi). simpl.
  rewrite setW_getW, Hs. rewrite (accepted_run h _ _ _ Hi Ha).
  rewrite (bind_Done _ _ _ _ _ (deepCopyMaybe_run h _ _)).
  fold c. fold s1.
  assert (Hd : defined_for (flavor (getU s1)) c.1 = true).
  { unfold s1. rewrite getU_setW. unfold c. rewrite copied_defined. apply valid_defined.
    unfold admits in Ha. by destruct (_isFrozen _), (isValidValue _ _). }
  assert (Hm1 : _isMuted (getU s1) = false) by (unfold s1; by rewrite getU_setW).
  rewrite (bind_Done _ _ _ _ _
             (updateValueAndCache_reentrant c.1 o false s1 sq Hm1 Hd Hrun Hisq)).
  rewrite (bind_Done _ _ _ _ _ (fire_run h _ _)). unfold ret.
  rewrite getU_setW. reflexivity.
Qed.

End Reentrant.

(** ** The query Unit of a system *)

Section QueryRelationship.

Lemma copyOut_bool x b w0 : _value x = VBool b → (copyOut x w0).1 = VBool b.
Proof. intros Hv. unfold copyOut. rewrite Hv. by destruct (_ && _). Qed.

Lemma same_content_refl x : same_content x x.
Proof. by repeat apply conj. Qed.

Lemma toggled_query ev s :
  same_content (queryUnit s) (queryUnit (toggled ev s))
  ∧ (is_true (AsyncCfg.freezeQueryWhilePending (sys_config s)) = true →
     _isFrozen (queryUnit (toggled ev s)) = truthy ev)
  ∧ (is_true (AsyncCfg.freezeQueryWhilePending (sys_config s)) = false →
     queryUnit (toggled ev s) = queryUnit s).
Proof.
  unfold toggled.
  destruct (is_true _); [destruct (truthy ev); destruct (_isFrozen (queryUnit s)) eqn:E|];
    (split; [by repeat apply conj|]); split; try done.
Qed.

(** The pending Unit is told [b] while the relationships are paused. *)
Lemma pending_told n b s :
  relationshipsAutoPaused s = true → relationshipsManuallyPaused s = false →
  members_installed s = true →
  ∃ b' s', dispatch (member (S n) Pending) (Direct (VBool b))
             (Some bypassDebounceOnly) s = Done b' s'
    ∧ dataUnit s' = dataUnit s ∧ errorUnit s' = errorUnit s
    ∧ members_installed s' = true
    ∧ same_system s s'
    ∧ same_content (queryUnit s) (queryUnit s')
    ∧ _isFrozen (pendingUnit s') = _isFrozen (pendingUnit s)
    ∧ (admits (pendingUnit s) (VBool b) None = true →
       _value (pendingUnit s') = VBool b
       ∧ (_isMuted (pendingUnit s) = false →
          is_true (AsyncCfg.freezeQueryWhilePending (sys_config s)) = true →
          _isFrozen (queryUnit s') = b))
    ∧ (admits (pendingUnit s) (VBool b) None = false →
       _value (pendingUnit s') = _value (pendingUnit s)
       ∧ queryUnit s' = queryUnit s)
    ∧ (is_true (AsyncCfg.freezeQueryWhilePending (sys_config s)) = false →
       queryUnit s' = queryUnit s).
Proof.
  intros Ha Hm Hi.
  unfold members_installed in Hi.
  apply andb_prop in Hi as [Hi Hip]. apply andb_prop in Hi as [Hi Hie].
  apply andb_prop in Hi as [Hiq Hid].
  set (h := member (S n) Pending).
  assert (Hser : serializabilityChecked (host_getW h s) (VBool b) = true).
  { unfold serializabilityChecked. simpl. by rewrite orb_true_r. }
  change (Some bypassDebounceOnly ≫= force) with (@None bool).
  destruct (admits (pendingUnit s) (VBool b) None) eqn:Hadm.
  - set (s1 := host_setW h (copied (host_getU h s) (VBool b) (host_getW h s)).2 s).
    set (c := (copied (host_getU h s) (VBool b) (host_getW h s)).1).
    assert (Hc : c = VBool b) by apply copied_bool.
    destruct (_isMuted (pendingUnit s)) eqn:Emu.
    + eexists _, _. split.
      { apply (dispatch_observed h (VBool b) (Some bypassDebounceOnly) s s1 Hip Hser Hadm).
        unfold observed_by. simpl. by rewrite Emu. }
      simpl. rewrite Emu. simpl. rewrite copied_bool.
      unfold members_installed. simpl.
      rewrite Hiq, Hid, Hie.
      split; [done|]. split; [done|]. split; [done|]. split; [done|].
      split; [apply same_content_refl|]. split; [done|].
      split; [done|]. split; [done|done].
    + set (ev := (copyOut (with_emitOnUnmute false
                             (stored c (Some bypassDebounceOnly) false (host_getU h s1)))
                          (host_getW h s1)).1).
      assert (Hev : ev = VBool b).
      { unfold ev. apply copyOut_bool. simpl. exact Hc. }
      set (push := pushed_state h c (Some bypassDebounceOnly) false s1).
      eexists _, _. split.
      { apply (dispatch_observed h (VBool b) (Some bypassDebounceOnly) s (toggled ev push) Hip Hser Hadm).
        unfold observed_by.
        match goal with
        | |- if ?c then _ else _ => change c with (_isMuted (pendingUnit s))
        end.
        rewrite Emu. split.
        - by apply (subscription_pending_paused n).
        - exact (proj1 (proj2 (proj2 (toggled_frame _ _)))). }
      destruct (toggled_frame ev push)
        as (Hd & He & Hp & Hw & Hcf & Hap & Hmp & Hec & Hemv & Hq).
      destruct (toggled_query ev push) as (Hqc & Hqf & Hqn).
      set (sq := toggled ev push) in *.
      change (queryUnit push) with (queryUnit s) in *.
      change (sys_config push) with (sys_config s) in *.
      simpl. rewrite Emu. simpl. rewrite copied_bool.
      unfold members_installed. simpl.
      rewrite Hd, He, Hq. simpl. rewrite Hiq, Hid, Hie.
      split; [done|]. split; [done|]. split; [done|].
      split; [by repeat apply conj|].
      split; [exact Hqc|]. split; [done|].
      split; [|split; [done|exact Hqn]].
      intros _. split; [done|]. intros _ Hfq. rewrite (Hqf Hfq), Hev. by destruct b.
  - eexists _, _. split.
    { apply (dispatch_refused h (VBool b) (Some bypassDebounceOnly) s Hip Hser Hadm). }
    simpl. unfold members_installed. simpl.
    rewrite Hiq, Hid, Hie.
    split; [done|]. split; [done|]. split; [done|]. split; [done|].
    split; [apply same_content_refl|]. split; [done|].
    split; [done|]. split; [done|done].
Qed.

(** [executeQueryUnitRelationship]: the pending Unit is told [true], which
    freezes the query Unit if [freezeQueryWhilePending] is on; the data and
    the error Unit are cleared only if the options say so; the system emits
    once. *)
Lemma executeQueryUnitRelationship_run n s0 :
  relationshipsManuallyPaused s0 = false →
  members_installed s0 = true →
  is_false (AsyncCfg.autoUpdatePendingValue (sys_config s0)) = false →
  ∃ sq, executeQueryUnitRelationship (subscription (S n)) s0 = Done tt sq
    ∧ sys_emitCount sq = S (sys_emitCount s0)
    ∧ same_content (queryUnit s0) (queryUnit sq)
    ∧ (admits (pendingUnit s0) (VBool true) None = true →
       _value (pendingUnit sq) = VBool true
       ∧ (_isMuted (pendingUnit s0) = false →
          is_true (AsyncCfg.freezeQueryWhilePending (sys_config s0)) = true →
          _isFrozen (queryUnit sq) = true))
    ∧ (is_true (AsyncCfg.freezeQueryWhilePending (sys_config s0)) = false →
       queryUnit sq = queryUnit s0)
    ∧ (is_true (AsyncCfg.clearDataOnQuery (sys_config s0)) = false →
       dataUnit sq = dataUnit s0)
    ∧ (is_true (AsyncCfg.clearErrorOnQuery (sys_config s0)) = false →
       errorUnit sq = errorUnit s0)
    ∧ relationshipsAutoPaused sq = false
    ∧ relationshipsManuallyPaused sq = false
    ∧ (∃ ref, sys_emittedValue sq
              = VDict ref [("query"%string, emittedValue (queryUnit sq));
                           ("data"%string, emittedValue (dataUnit sq));
                           ("error"%string, emittedValue (errorUnit sq));
                           ("pending"%string, emittedValue (pendingUnit sq))]).
Proof.
  intros Hm Hi Hauto.
  unfold executeQueryUnitRelationship.
  unfold bind at 1. unfold modify at 1.
  set (sA := with_autoPaused true s0).
  destruct (pending_told n true sA eq_refl Hm Hi)
    as (b & sB & HrunB & HdB & HeB & HiB & (HcfB & HapB & HmpB & HecB & HevB)
          & HqB & HfB & HokB & HnoB & HnfB).
  assert (HstepB : autoUpdatePendingValue (subscription (S n)) true sA = Done tt sB).
  { unfold autoUpdatePendingValue. unfold bind at 1. unfold gets at 1.
    change (sys_config (id sA)) with (sys_config s0). rewrite Hauto. simpl.
    fold (member (S n) Pending). by rewrite (bind_Done _ _ _ _ _ HrunB). }
  rewrite (bind_Done _ _ _ _ _ HstepB).
  unfold bind at 1. unfold gets at 1.
  change (sys_config (id sB)) with (sys_config sB). rewrite HcfB.
  change (sys_config sA) with (sys_config s0).
  assert (Hclear : ∀ r sX, r ≠ Pending → relationshipsAutoPaused sX = true →
    members_installed sX = true → ∀ on : bool,
    ∃ sY, when on (clearValueOf (subscription (S n)) r) sX = Done tt sY
      ∧ (∀ r', r' ≠ r → getMember r' sY = getMember r' sX)
      ∧ members_installed sY = true ∧ same_system sX sY
      ∧ (on = false → sY = sX)).
  { intros r sX Hr HaX HiX [|].
    - destruct (clear_member_paused n r sX Hr HaX HiX)
        as (b' & sY & HrunY & HothY & HiY & HsameY & _).
      exists sY. split; [|done].
      unfold when, clearValueOf. fold (member (S n) r).
      by rewrite (bind_Done _ _ _ _ _ HrunY).
    - exists sX. split; [done|]. split; [done|]. split; [done|].
      split; [apply same_system_refl|done]. }
  destruct (Hclear Data sB ltac:(done) HapB HiB
              (is_true (AsyncCfg.clearDataOnQuery (sys_config s0))))
    as (sC & HrunC & HothC & HiC & (HcfC & HapC & HmpC & HecC & HevC) & HoffC).
  rewrite (bind_Done _ _ _ _ _ HrunC).
  rewrite HapB in HapC.
  destruct (Hclear Error sC ltac:(done) HapC HiC
              (is_true (AsyncCfg.clearErrorOnQuery (sys_config s0))))
    as (sD & HrunD & HothD & HiD & (HcfD & HapD & HmpD & HecD & HevD) & HoffD).
  rewrite (bind_Done _ _ _ _ _ HrunD).
  unfold bind at 1. unfold modify at 1.
  rewrite AsyncSystem_emit_run.
  eexists. split; [reflexivity|]. simpl.
  pose proof (HothD Query ltac:(done)) as HqD.
  pose proof (HothD Data ltac:(done)) as HdD.
  pose proof (HothD Pending ltac:(done)) as HpD.
  pose proof (HothC Query ltac:(done)) as HqC.
  pose proof (HothC Error ltac:(done)) as HeC.
  pose proof (HothC Pending ltac:(done)) as HpC.
  simpl in HqD, HdD, HpD, HqC, HeC, HpC.
  split; [by rewrite HecD, HecC, HecB|].
  split; [by rewrite HqD, HqC|].
  split.
  { intros Hadm. destruct (HokB Hadm) as [Hv Hfz].
    split; [by rewrite HpD, HpC|]. intros Hmu Hfq. rewrite HqD, HqC. by apply Hfz. }
  split; [intros Hfq; rewrite HqD, HqC; by apply HnfB|].
  split; [intros Hoff; by rewrite HdD, (HoffC Hoff), HdB|].
  split; [intros Hoff; by rewrite (HoffD Hoff), HeC, HeB|].
  split; [done|].
  split; [by rewrite HmpD, HmpC, HmpB|].
  by eexists.
Qed.

(** X19.  An accepted dispatch to the query Unit of a system whose
    relationships are working, if the query Unit is not muted, makes the
    system emit exactly once and sets the pending Unit to [true] (if that
    Unit admits [true]); the data and the error Unit are kept unless
    [clearDataOnQuery], respectively [clearErrorOnQuery], is on.  With
    [freezeQueryWhilePending] (and a pending Unit that is not muted) the
    query Unit is then frozen, and admits no value until it is unfrozen.
    (A muted query Unit pushes nothing, so that no relationship runs.) *)
Theorem query_dispatch_sets_pending (n : nat) (s : AsyncSystem) (v : Value)
    (options : option DispatchOptions) :
  is_false (AsyncCfg.autoUpdatePendingValue (sys_config s)) = false →
  relationshipsWorking s = true →
  members_installed s = true →
  _isMuted (queryUnit s) = false →
  serializabilityChecked (sys_world s) v = true →
  admits (queryUnit s) v (options ≫= force) = true →
  ∃ s', dispatch (member (S (S n)) Query) (Direct v) options s = Done true s'
    ∧ sys_emitCount s' = S (sys_emitCount s)
    ∧ _value (queryUnit s') = (copied (queryUnit s) v (sys_world s)).1
    ∧ relationshipsWorking s' = true
    ∧ (is_true (AsyncCfg.clearDataOnQuery (sys_config s)) = false →
       dataUnit s' = dataUnit s)
    ∧ (is_true (AsyncCfg.clearErrorOnQuery (sys_config s)) = false →
       errorUnit s' = errorUnit s)
    ∧ (admits (pendingUnit s) (VBool true) None = true →
       _value (pendingUnit s') = VBool true
       ∧ (_isMuted (pendingUnit s) = false →
          is_true (AsyncCfg.freezeQueryWhilePending (sys_config s)) = true →
          _isFrozen (queryUnit s') = true
          ∧ ∀ v' force, admits (queryUnit s') v' force = false)).
Proof.
  intros Hauto Hw Hi Hmu Hser Hadm.
  pose proof (proj1 (members_installed_parts s) Hi) as Hall.
  set (h := member (S (S n)) Query).
  set (c := copied (host_getU h s) v (host_getW h s)).
  set (s1 := host_setW h c.2 s).
  set (push := pushed_state h c.1 options false s1).
  assert (Hmp : relationshipsManuallyPaused s = false).
  { unfold relationshipsWorking in Hw. apply andb_prop in Hw as [_ Hw].
    by apply negb_true_iff in Hw. }
  assert (Hdef : defined_for (flavor (queryUnit s)) c.1 = true).
  { unfold c. rewrite copied_defined. apply valid_defined.
    unfold admits in Hadm. by destruct (_isFrozen _), (isValidValue _ _). }
  assert (Hip : members_installed push = true).
  { apply members_installed_parts.
    intros []; [exact Hdef|apply (Hall Data)|apply (Hall Error)|apply (Hall Pending)]. }
  destruct (executeQueryUnitRelationship_run n push Hmp Hip Hauto)
    as (sq & Hrun & Hec & Hqc & Hpend & Hnf & Hkd & Hke & Hap & Hmq & Hcomb).
  pose proof Hqc as (Q1 & Q2 & Q3 & Q4 & Q5 & Q6 & Q7 & Q8 & Q9 & Q10 & Q11).
  assert (Hisq : installed (host_getU h sq) = true).
  { change (host_getU h sq) with (queryUnit sq). unfold installed.
    rewrite Q1, Q9. exact Hdef. }
  assert (Hsub : host_subscriber h
            (copyOut (with_emitOnUnmute false
                        (stored c.1 options false (host_getU h s1))) (host_getW h s1)).1
            (pushed_state h c.1 options false s1) = Done tt sq).
  { change (host_subscriber h ?ev (pushed_state h c.1 options false s1))
      with (relationship (subscription (S n)) Query ev push).
    unfold relationship. unfold bind at 1. unfold gets at 1.
    change (relationshipsWorking (id push)) with (relationshipsWorking s).
    by rewrite Hw. }
  eexists. split.
  { apply (dispatch_reentrant h v options s sq (Hall Query) Hmu Hser Hadm Hsub Hisq). }
  change (queryUnit (settled h ?x sq)) with x.
  change (dataUnit (settled h ?x sq)) with (dataUnit sq).
  change (errorUnit (settled h ?x sq)) with (errorUnit sq).
  change (pendingUnit (settled h ?x sq)) with (pendingUnit sq).
  split; [exact Hec|]. split; [simpl; by rewrite Q9|].
  split; [unfold relationshipsWorking; simpl; by rewrite Hap, Hmq|].
  split; [exact Hkd|]. split; [exact Hke|].
  intros Hpa. destruct (Hpend Hpa) as [Hv Hfz]. split; [exact Hv|].
  intros Hpm Hfq. specialize (Hfz Hpm Hfq).
  split; [simpl; exact Hfz|].
  intros v' f. unfold admits. simpl. by rewrite Hfz.
Qed.

Lemma query_dispatch_sets_pending_witness :
  ∃ s', dispatch (member 2 Query) (Direct (VString "q")) None
          (sampleSystem freezingCfg) = Done true s'
    ∧ sys_emitCount s' = 2
    ∧ dataUnit s' = dataUnit (sampleSystem freezingCfg)
    ∧ _value (pendingUnit s') = VBool true
    ∧ _isFrozen (queryUnit s') = true.
Proof.
  destruct (query_dispatch_sets_pending 0 (sampleSystem freezingCfg)
              (VString "q") None)
    as (s' & H1 & H2 & H3 & H4 & H5 & H6 & H7); [vm_compute; reflexivity ..|].
  exists s'. split; [exact H1|]. split; [exact H2|].
  split; [apply H5; vm_compute; reflexivity|].
  destruct H7 as [H7 H8]; [vm_compute; reflexivity|].
  split; [exact H7|].
  destruct H8 as [H8 _]; [vm_compute; reflexivity ..|]. exact H8.
Defined.

End QueryRelationship.

(** ** [createUnit] *)

Section Creators.
Import Solo.

Lemma copied_valid x o w0 f :
  isValidValue f (copied x o w0).1 = isValidValue f o.
Proof.
  unfold copied. destruct (is_true _); [|done].
  destruct o; try done.
  - rewrite deepCopy_VArray. by destruct f.
  - rewrite deepCopy_VDict. by destruct f.
  - change (deepCopy (VInstance ref props) (next_ref w0))
      with (deepCopy (VDict ref props) (next_ref w0)).
    rewrite deepCopy_VDict. by destruct f.
Qed.

Lemma defaultOf_valid f r : isValidValue f (defaultOf f r) = true.
Proof. by destruct f. Qed.

Lemma createUnit_class_fits v :
  v ≠ VNum NaN → isValidValue (createUnit_class v) v = true.
Proof. intros Hn. by destruct v as [| | | [| | |] | | | | | |]. Qed.

(** X20.  [createUnit] chooses a class that accepts the initial value, so
    the new Unit holds it (a copy of it if the Unit is immutable) as its
    value and as its initial value; the one exception is [NaN], which gives
    a NumUnit holding [0].  For [undefined] it gives a GenericUnit holding
    [undefined]. *)
Theorem createUnit_holds_its_initial_value (v : Value) (cfg : Cfg.t)
    (locationId : string) (w0 w1 : World) :
  baseConstructed (with_initialValueOption v cfg) locationId w0 = inr w1 →
  is_true (Cfg.persistent cfg) = false →
  serializabilityChecked w1 v = true →
  ∃ s, createUnit v cfg locationId w0 = Done tt s
    ∧ flavor (u s) = createUnit_class v
    ∧ isValidValue (flavor (u s)) (_value (u s)) = true
    ∧ _emitCount (u s) = 1
    ∧ (v ≠ VUndefined → v ≠ VNum NaN →
       _value (u s)
       = (copied (blank (createUnit_class v) (with_initialValueOption v cfg)) v w1).1
       ∧ _initialValue (u s) = _value (u s)
       ∧ (is_true (Cfg.immutable cfg) = false → _value (u s) = v))
    ∧ (v = VNum NaN →
       flavor (u s) = NumUnit ∧ _value (u s) = VNum (Fin 0)
       ∧ _initialValue (u s) = VUndefined)
    ∧ (v = VUndefined → flavor (u s) = GenericUnit ∧ _value (u s) = VUndefined).
Proof.
  intros Hb Hp Hser.
  set (f := createUnit_class v). set (c := with_initialValueOption v cfg) in *.
  set (cp := copied (blank f c) v w1).
  assert (Hseed : seed f c w1 = Some (cp.1, cp.2)).
  { unfold seed. change (Cfg.persistent c) with (Cfg.persistent cfg). rewrite Hp.
    change (Cfg.initialValue c) with v. rewrite Hser.
    fold cp. by rewrite <- surjective_pairing. }
  exists (seeded f c cp.1 cp.2).
  split.
  { change (createUnit v cfg locationId w0) with (construct f c locationId w0).
    by rewrite construct_run, Hb, Hseed. }
  pose proof (seeded_fields f c cp.1 cp.2) as H. cbv zeta in H.
  destruct H as (Hv & _ & _ & He & _ & _ & _ & Hf).
  split; [exact Hf|]. rewrite Hf.
  assert (Hund : is_undefined cp.1 = is_undefined v).
  { unfold cp, copied. destruct (is_true (Cfg.immutable _)); [|done]. destruct v; try done.
    - by rewrite deepCopy_VArray.
    - by rewrite deepCopy_VDict.
    - change (deepCopy (VInstance ref props) (next_ref w1))
        with (deepCopy (VDict ref props) (next_ref w1)).
      by rewrite deepCopy_VDict. }
  rewrite Hund in Hv. unfold cp in Hv at 1. rewrite copied_valid in Hv. fold cp in Hv.
  split.
  { destruct (negb (is_undefined v) && isValidValue f v) eqn:E.
    - destruct Hv as [-> _]. apply andb_prop in E as [_ E].
      unfold cp. by rewrite copied_valid.
    - destruct Hv as [-> _]. apply defaultOf_valid. }
  split; [exact He|].
  split.
  { intros Hu Hn. pose proof (createUnit_class_fits v Hn) as Hfit. fold f in Hfit.
    rewrite Hfit in Hv.
    assert (is_undefined v = false) as E by (by destruct v).
    rewrite E in Hv. simpl in Hv. destruct Hv as [Hv1 Hv2].
    split; [exact Hv1|]. split; [by rewrite Hv1, Hv2|].
    intros Him. rewrite Hv1. unfold cp, copied.
    change (Cfg.immutable (config (blank f c))) with (Cfg.immutable cfg).
    by rewrite Him. }
  split.
  { intros ->. simpl in Hv. by destruct Hv as [-> ->]. }
  intros ->. simpl in Hv. by destruct Hv as [-> _].
Qed.

Lemma createUnit_holds_its_initial_value_witness :
  ∃ s, createUnit (VString "a") (configOf VUndefined) "loc" emptyWorld = Done tt s
    ∧ flavor (u s) = StringUnit
    ∧ _value (u s) = VString "a"
    ∧ _initialValue (u s) = VString "a".
Proof.
  destruct (createUnit_holds_its_initial_value (VString "a") (configOf VUndefined)
              "loc" emptyWorld emptyWorld eq_refl eq_refl eq_refl)
    as (s & H1 & H2 & _ & _ & H3 & _).
  exists s. split; [exact H1|]. split; [exact H2|].
  destruct H3 as (H3 & H4 & H5); [done..|].
  split; [by apply H5|]. rewrite H4. by apply H5.
Defined.

End Creators.


(** ** Copies and serializable values *)

Section Copies.

Lemma isSerializable_VArray r items :
  isSerializable (VArray r items) = isSerializable_items items.
Proof. reflexivity. Qed.

Lemma isSerializable_VDict r props :
  isSerializable (VDict r props)
  = if constructorIsObject props then isSerializable_props props
    else Some (VDict r props).
Proof. reflexivity. Qed.

Lemma isSerializable_items_cons x l :
  isSerializable_items (x :: l)
  = match isSerializable x with
    | Some bad => Some bad
    | None => isSerializable_items l
    end.
Proof. reflexivity. Qed.

Lemma isSerializable_props_cons k x l :
  isSerializable_props ((k, x) :: l)
  = match isSerializable x with
    | Some bad => Some bad
    | None => isSerializable_props l
    end.
Proof. reflexivity. Qed.

Lemma seq_snoc_range n m : n ≤ m → seq n (m - n) ++ [m] = seq n (S m - n).
Proof.
  intros H. replace (S m - n) with ((m - n) + 1) by lia.
  rewrite seq_app. simpl. do 3 f_equal. lia.
Qed.

Lemma seq_join n m k : n ≤ m → m ≤ k → seq n (m - n) ++ seq m (k - m) = seq n (k - n).
Proof.
  intros H1 H2. replace (k - n) with ((m - n) + (k - m)) by lia.
  rewrite seq_app. do 2 f_equal. lia.
Qed.

Lemma deepCopy_items_next l : ∀ n, n ≤ (deepCopy_items l n).2.
Proof.
  induction l as [|x l IH]; intros n; [simpl; lia|].
  rewrite deepCopy_items_cons. simpl.
  pose proof (deepCopy_next x n). specialize (IH (deepCopy x n).2). lia.
Qed.

Lemma deepCopy_props_next l : ∀ n, n ≤ (deepCopy_props l n).2.
Proof.
  induction l as [|[k x] l IH]; intros n; [simpl; lia|].
  rewrite deepCopy_props_cons. simpl.
  pose proof (deepCopy_next x n). specialize (IH (deepCopy x n).2). lia.
Qed.

(** Proofs about the copy of an object without a property [__proto__]
    follow its properties one by one. *)
Lemma proto_free_props_inv r k x l :
  proto_free (VDict r ((k, x) :: l)) = true →
  k ≠ "__proto__"%string ∧ proto_free x = true ∧ proto_free (VDict r l) = true.
Proof.
  rewrite proto_free_VDict_cons. intros H.
  apply andb_prop in H as [H Hl]. apply andb_prop in H as [Hk Hx].
  apply negb_true_iff, bool_decide_eq_false in Hk. done.
Qed.

Lemma proto_free_items_inv r x l :
  proto_free (VArray r (x :: l)) = true →
  proto_free x = true ∧ proto_free (VArray r l) = true.
Proof. rewrite proto_free_VArray_cons. intros H. by apply andb_prop in H. Qed.

(** The arrays and objects of a copy carry the references from [n] on, in
    the order they are made. *)
Lemma deepCopy_containers v :
  proto_free v = true →
  ∀ n, containers (deepCopy v n).1 = seq n ((deepCopy v n).2 - n).
Proof.
  assert (Hprops : ∀ r props,
    Forall (λ kv : string * Value, proto_free kv.2 = true → ∀ n,
      containers (deepCopy kv.2 n).1 = seq n ((deepCopy kv.2 n).2 - n)) props →
    proto_free (VDict r props) = true →
    ∀ n, concat (map (λ kv, containers kv.2) (deepCopy_props props n).1)
         = seq n ((deepCopy_props props n).2 - n)).
  { intros r. induction props as [|[k x] props IHl]; intros IH Hp n.
    - simpl. by rewrite Nat.sub_diag.
    - apply Forall_cons in IH as [IHx IH]. simpl in IHx.
      apply proto_free_props_inv in Hp as (Hk & Hpx & Hpl).
      rewrite (deepCopy_props_cons_plain k x props n Hk). simpl.
      rewrite (IHx Hpx), (IHl IH Hpl).
      apply seq_join; [apply deepCopy_next | apply deepCopy_props_next]. }
  induction v as [| | b | q | x | r items IH | r props IH | r props IH | r j | r]
    using Value_nested_ind; intros Hp n; try (simpl; by rewrite Nat.sub_diag).
  - rewrite deepCopy_VArray. simpl.
    assert (H : concat (map containers (deepCopy_items items n).1)
                = seq n ((deepCopy_items items n).2 - n)).
    { revert n. induction items as [|x items IHl]; intros n.
      - simpl. by rewrite Nat.sub_diag.
      - apply Forall_cons in IH as [IHx IH].
        apply proto_free_items_inv in Hp as [Hpx Hpl].
        rewrite deepCopy_items_cons. simpl. rewrite (IHx Hpx), (IHl IH Hpl).
        apply seq_join; [apply deepCopy_next | apply deepCopy_items_next]. }
    rewrite H. apply seq_snoc_range, deepCopy_items_next.
  - rewrite deepCopy_VDict. simpl. rewrite (Hprops r props IH Hp).
    apply seq_snoc_range, deepCopy_props_next.
  - change (deepCopy (VInstance r props) n) with (deepCopy (VDict r props) n).
    rewrite deepCopy_VDict. simpl. rewrite (Hprops r props IH Hp).
    apply seq_snoc_range, deepCopy_props_next.
Qed.

Lemma deepCopy_range v n r :
  proto_free v = true →
  r ∈ containers (deepCopy v n).1 → n ≤ r < (deepCopy v n).2.
Proof.
  intros Hp. rewrite (deepCopy_containers v Hp). intros Hr.
  apply elem_of_seq in Hr. pose proof (deepCopy_next v n). lia.
Qed.

(** Functions and the objects that are not rebuilt are in the copy where
    they were in the value. *)
Lemma deepCopy_kept v :
  proto_free v = true → ∀ n, kept (deepCopy v n).1 = kept v.
Proof.
  assert (Hprops : ∀ r props,
    Forall (λ kv : string * Value, proto_free kv.2 = true → ∀ n,
      kept (deepCopy kv.2 n).1 = kept kv.2) props →
    proto_free (VDict r props) = true →
    ∀ n, concat (map (λ kv, kept kv.2) (deepCopy_props props n).1)
         = concat (map (λ kv, kept kv.2) props)).
  { intros r. induction props as [|[k x] props IHl]; intros IH Hp n; [done|].
    apply Forall_cons in IH as [IHx IH]. simpl in IHx.
    apply proto_free_props_inv in Hp as (Hk & Hpx & Hpl).
    rewrite (deepCopy_props_cons_plain k x props n Hk). simpl.
    by rewrite (IHx Hpx), (IHl IH Hpl). }
  induction v as [| | b | q | x | r items IH | r props IH | r props IH | r j | r]
    using Value_nested_ind; intros Hp n; try done.
  - rewrite deepCopy_VArray. simpl.
    revert n. induction items as [|x items IHl]; intros n; [done|].
    apply Forall_cons in IH as [IHx IH].
    apply proto_free_items_inv in Hp as [Hpx Hpl].
    rewrite deepCopy_items_cons. simpl. by rewrite (IHx Hpx), (IHl IH Hpl).
  - rewrite deepCopy_VDict. simpl. apply (Hprops r props IH Hp).
  - change (deepCopy (VInstance r props) n) with (deepCopy (VDict r props) n).
    rewrite deepCopy_VDict. simpl. apply (Hprops r props IH Hp).
Qed.

(** No object of a copy has a property [__proto__]. *)
Lemma deepCopy_proto_free v : ∀ n, proto_free (deepCopy v n).1 = true.
Proof.
  assert (Hprops : ∀ props,
    Forall (λ kv : string * Value, ∀ n, proto_free (deepCopy kv.2 n).1 = true) props →
    ∀ r n, proto_free (VDict r (deepCopy_props props n).1) = true).
  { induction props as [|[k x] props IHl]; intros IH r n; [done|].
    apply Forall_cons in IH as [IHx IH]. simpl in IHx.
    rewrite deepCopy_props_cons. simpl fst.
    case_bool_decide as Hk; [by apply IHl|].
    rewrite proto_free_VDict_cons, (IHx n), (IHl IH).
    by rewrite bool_decide_false. }
  induction v as [| | b | q | x | r items IH | r props IH | r props IH | r j | r]
    using Value_nested_ind; intros n; try done.
  - rewrite deepCopy_VArray. simpl fst.
    generalize (deepCopy_items items n).2. intros r'.
    revert n. induction items as [|x items IHl]; intros n; [done|].
    apply Forall_cons in IH as [IHx IH].
    rewrite deepCopy_items_cons. simpl fst.
    by rewrite proto_free_VArray_cons, (IHx n), (IHl IH).
  - rewrite deepCopy_VDict. simpl fst. by apply Hprops.
  - change (deepCopy (VInstance r props) n) with (deepCopy (VDict r props) n).
    rewrite deepCopy_VDict. simpl fst. by apply Hprops.
Qed.

Lemma constructorIsObject_cons k x l :
  constructorIsObject ((k, x) :: l)
  = negb (bool_decide (k = "constructor"%string)) && constructorIsObject l.
Proof. unfold constructorIsObject. simpl. by rewrite negb_orb. Qed.

Lemma deepCopy_props_constructor props :
  constructorIsObject props = true →
  ∀ n, constructorIsObject (deepCopy_props props n).1 = true.
Proof.
  induction props as [|[k x] props IH]; intros Hc n; [done|].
  rewrite constructorIsObject_cons in Hc. apply andb_prop in Hc as [Hk Hc].
  rewrite deepCopy_props_cons. simpl fst.
  destruct (bool_decide (k = "__proto__"%string)); [by apply IH|].
  by rewrite constructorIsObject_cons, Hk, IH.
Qed.

(** A serializable value without a property [__proto__] is copied exactly,
    up to the identity of its arrays and objects, and the copy is
    serializable. *)
Lemma deepCopy_serializable v :
  isSerializable v = None → proto_free v = true →
  ∀ n, erase (deepCopy v n).1 = erase v
       ∧ isSerializable (deepCopy v n).1 = None.
Proof.
  induction v as [| | b | q | x | r items IH | r props IH | r props IH | r j | r]
    using Value_nested_ind; intros Hs Hp n; try done.
  - rewrite deepCopy_VArray. simpl fst. rewrite isSerializable_VArray in *.
    cut (map erase (deepCopy_items items n).1 = map erase items
         ∧ isSerializable_items (deepCopy_items items n).1 = None).
    { intros [H1 H2]. split; [simpl; by f_equal|exact H2]. }
    revert n. induction items as [|x items IHl]; intros n; [done|].
    apply Forall_cons in IH as [IHx IH].
    apply proto_free_items_inv in Hp as [Hpx Hpl].
    rewrite isSerializable_items_cons in Hs.
    destruct (isSerializable x) eqn:Ex; [done|].
    rewrite deepCopy_items_cons. simpl fst.
    destruct (IHx eq_refl Hpx n) as [H1 H2].
    destruct (IHl IH Hs Hpl (deepCopy x n).2) as [H3 H4].
    split; [simpl; by f_equal|].
    by rewrite isSerializable_items_cons, H2.
  - rewrite deepCopy_VDict. simpl fst. rewrite isSerializable_VDict in *.
    destruct (constructorIsObject props) eqn:Ec; [|done].
    rewrite (deepCopy_props_constructor props Ec).
    cut (map (λ kv, (kv.1, erase kv.2)) (deepCopy_props props n).1
         = map (λ kv, (kv.1, erase kv.2)) props
         ∧ isSerializable_props (deepCopy_props props n).1 = None).
    { intros [H1 H2]. split; [simpl; by f_equal|exact H2]. }
    clear Ec. revert n. induction props as [|[k x] props IHl]; intros n; [done|].
    apply Forall_cons in IH as [IHx IH]. simpl in IHx.
    apply proto_free_props_inv in Hp as (Hk & Hpx & Hpl).
    rewrite isSerializable_props_cons in Hs.
    destruct (isSerializable x) eqn:Ex; [done|].
    rewrite (deepCopy_props_cons_plain k x props n Hk). simpl fst.
    destruct (IHx eq_refl Hpx n) as [H1 H2].
    destruct (IHl IH Hs Hpl (deepCopy x n).2) as [H3 H4].
    split; [simpl; by f_equal; [f_equal|]|].
    by rewrite isSerializable_props_cons, H2.
Qed.

(** A serializable value holds no function and no object other than arrays
    and plain objects. *)
Lemma serializable_kept v : isSerializable v = None → kept v = [].
Proof.
  induction v as [| | b | q | x | r items IH | r props IH | r props IH | r j | r]
    using Value_nested_ind; intros Hs; try done.
  - rewrite isSerializable_VArray in Hs. simpl.
    induction items as [|x items IHl]; [done|].
    apply Forall_cons in IH as [IHx IH].
    rewrite isSerializable_items_cons in Hs.
    destruct (isSerializable x) eqn:Ex; [done|].
    simpl. by rewrite (IHx eq_refl), (IHl IH Hs).
  - rewrite isSerializable_VDict in Hs.
    destruct (constructorIsObject props); [|done]. simpl.
    induction props as [|[k x] props IHl]; [done|].
    apply Forall_cons in IH as [IHx IH]. simpl in IHx.
    rewrite isSerializable_props_cons in Hs.
    destruct (isSerializable x) eqn:Ex; [done|].
    simpl. by rewrite (IHx eq_refl), (IHl IH Hs).
Qed.

(** X21.  For a value without a property named [__proto__]: [deepCopy]
    rebuilds every array and every object with the [object Object] tag it
    reaches (each of them in the copy is a new object made by this call,
    and no two of them are the same), and returns the functions and the
    other objects (a [Date], a [Map], ...) as they are, so that the copy
    shares exactly these with the value.  A serializable value has none of
    these, and its copy is deeply equal to it. *)
Theorem deepCopy_rebuilds_arrays_and_plain_objects (v : Value) (n : nat) :
  proto_free v = true →
  let c := deepCopy v n in
  (∀ r, r ∈ containers c.1 → n ≤ r < c.2)
  ∧ NoDup (containers c.1)
  ∧ kept c.1 = kept v
  ∧ (isSerializable v = None → kept c.1 = [] ∧ erase c.1 = erase v).
Proof.
  intros Hp. cbv zeta.
  split; [intros r; by apply deepCopy_range|].
  split; [rewrite (deepCopy_containers v Hp); apply NoDup_seq|].
  split; [by apply deepCopy_kept|].
  intros Hs. rewrite (deepCopy_kept v Hp), (serializable_kept v Hs).
  split; [done|]. by apply deepCopy_serializable.
Qed.

Lemma deepCopy_rebuilds_arrays_and_plain_objects_witness :
  kept (deepCopy (VArray 0 [VDict 1 [("a"%string, VExotic 2 None)]; VFunction 3]) 4).1
  = [2; 3]
  ∧ containers
      (deepCopy (VArray 0 [VDict 1 [("a"%string, VExotic 2 None)]; VFunction 3]) 4).1
    = [4; 5].
Proof.
  destruct (deepCopy_rebuilds_arrays_and_plain_objects
              (VArray 0 [VDict 1 [("a"%string, VExotic 2 None)]; VFunction 3]) 4
              eq_refl) as (_ & _ & H & _).
  split; [exact H|reflexivity].
Defined.

(** What [isSerializable] finds among the elements of an array or the
    properties of an object. *)
Lemma isSerializable_items_finds items :
  Forall (λ v, match isSerializable v with
               | Some bad => bad ∈ reachable v ∧ non_plain bad = true
               | None => ∀ x, x ∈ reachable v → non_plain x = false
               end) items →
  match isSerializable_items items with
  | Some bad => bad ∈ concat (map reachable items) ∧ non_plain bad = true
  | None => ∀ x, x ∈ concat (map reachable items) → non_plain x = false
  end.
Proof.
  induction items as [|x items IHl]; intros IH.
  - simpl. intros y Hy. by apply elem_of_nil in Hy.
  - apply Forall_cons in IH as [IHx IH]. specialize (IHl IH).
    rewrite isSerializable_items_cons. simpl.
    destruct (isSerializable x) as [bad|].
    + destruct IHx as [Hin Hbad]. split; [|exact Hbad]. apply elem_of_app. by left.
    + destruct (isSerializable_items items) as [bad|].
      * destruct IHl as [Hin Hbad]. split; [|exact Hbad]. apply elem_of_app. by right.
      * intros y Hy. apply elem_of_app in Hy as [Hy|Hy]; [by apply IHx|by apply IHl].
Qed.

Lemma isSerializable_props_finds props :
  Forall (λ kv : string * Value,
            match isSerializable kv.2 with
            | Some bad => bad ∈ reachable kv.2 ∧ non_plain bad = true
            | None => ∀ x, x ∈ reachable kv.2 → non_plain x = false
            end) props →
  match isSerializable_props props with
  | Some bad => bad ∈ concat (map (λ kv, reachable kv.2) props)
                ∧ non_plain bad = true
  | None => ∀ x, x ∈ concat (map (λ kv, reachable kv.2) props) →
                 non_plain x = false
  end.
Proof.
  induction props as [|[k x] props IHl]; intros IH.
  - simpl. intros y Hy. by apply elem_of_nil in Hy.
  - apply Forall_cons in IH as [IHx IH]. simpl in IHx. specialize (IHl IH).
    rewrite isSerializable_props_cons. simpl.
    destruct (isSerializable x) as [bad|].
    + destruct IHx as [Hin Hbad]. split; [|exact Hbad]. apply elem_of_app. by left.
    + destruct (isSerializable_props props) as [bad|].
      * destruct IHl as [Hin Hbad]. split; [|exact Hbad]. apply elem_of_app. by right.
      * intros y Hy. apply elem_of_app in Hy as [Hy|Hy]; [by apply IHx|by apply IHl].
Qed.

(** X22.  [isSerializable] judges the value and what is reached from it
    through arrays and plain objects: what it reports is one of these and
    is a function, or an object that is not an array and whose constructor
    is not [Object] (a class instance, a [Date], a plain object with a
    property [constructor] of its own); when it reports nothing there is
    none. *)
Theorem isSerializable_finds_non_plain_values (v : Value) :
  match isSerializable v with
  | Some bad => bad ∈ reachable v ∧ non_plain bad = true
  | None => ∀ x, x ∈ reachable v → non_plain x = false
  end.
Proof.
  induction v as [| | b | q | s | r items IH | r props IH | r props IH | r j | r]
    using Value_nested_ind;
    try (simpl; intros x Hx; apply list_elem_of_singleton in Hx; by subst);
    try (simpl; split; [apply list_elem_of_here|done]).
  - rewrite isSerializable_VArray.
    pose proof (isSerializable_items_finds items IH) as H.
    change (reachable (VArray r items))
      with (VArray r items :: concat (map reachable items)).
    destruct (isSerializable_items items) as [bad|].
    + destruct H as [Hin Hbad]. split; [|exact Hbad]. by apply list_elem_of_further.
    + intros y Hy. apply elem_of_cons in Hy as [->|Hy]; [done|by apply H].
  - rewrite isSerializable_VDict.
    pose proof (isSerializable_props_finds props IH) as H.
    change (reachable (VDict r props))
      with (VDict r props :: concat (map (λ kv, reachable kv.2) props)).
    destruct (constructorIsObject props) eqn:Ec.
    + destruct (isSerializable_props props) as [bad|].
      * destruct H as [Hin Hbad]. split; [|exact Hbad]. by apply list_elem_of_further.
      * intros y Hy. apply elem_of_cons in Hy as [->|Hy]; [|by apply H].
        simpl. by rewrite Ec.
    + split; [apply list_elem_of_here|]. simpl. by rewrite Ec.
Qed.

End Copies.

(** ** Immutable Units *)

Section Immutable.
Import Solo.

(** X24.  An immutable Unit of a non-primitive flavour keeps a copy of its
    own.  After an accepted dispatch of a value [v] without a property
    named [__proto__], the stored value, the value pushed to the observers
    and the value [value()] returns are three copies: no array and no
    object with the [object Object] tag of one of them is one of [v] or of
    another, while the functions and the other objects of [v] (a [Date], a
    [Map], ...) are shared by all of them.  If [v] is serializable there
    are none of these, and each copy is deeply equal to [v]. *)
Theorem immutable_unit_keeps_its_own_copy (s : Solo.t) (v : Value)
    (options : option DispatchOptions) :
  installed (u s) = true →
  _isMuted (u s) = false →
  is_true (Cfg.immutable (config (u s))) = true →
  isNonPrimitiveUnit (flavor (u s)) = true →
  serializabilityChecked (w s) v = true →
  admits (u s) v (options ≫= force) = true →
  proto_free v = true →
  (∀ r, r ∈ containers v → r < next_ref (w s)) →
  ∃ s' c s'',
    dispatch host (Direct v) options s = Done true s'
    ∧ value host s' = Done c s''
    ∧ u s'' = u s'
    ∧ (∀ r, r ∈ containers (_value (u s')) → r ∉ containers v)
    ∧ (∀ r, r ∈ containers (emittedValue (u s')) →
         (r ∉ containers v) ∧ (r ∉ containers (_value (u s'))))
    ∧ (∀ r, r ∈ containers c →
         (r ∉ containers v) ∧ (r ∉ containers (_value (u s')))
         ∧ (r ∉ containers (emittedValue (u s'))))
    ∧ kept (_value (u s')) = kept v
    ∧ kept (emittedValue (u s')) = kept v
    ∧ kept c = kept v
    ∧ (isSerializable v = None →
       kept v = []
       ∧ erase (_value (u s')) = erase v
       ∧ erase (emittedValue (u s')) = erase v
       ∧ erase c = erase v).
Proof.
  intros Hi Hmu Him Hnp Hser Hadm Hpf Hold.
  set (n0 := next_ref (w s)).
  set (c1 := deepCopy v n0).
  set (c2 := deepCopy c1.1 c1.2).
  set (c3 := deepCopy c1.1 c2.2).
  assert (Hd : dispatch host (Direct v) options s = Done true (dispatched v options s)).
  { unfold dispatch. rewrite (dispatchActual_solo _ _ s Hi). simpl.
    rewrite Hser, Hadm. by destruct s. }
  set (s' := dispatched v options s).
  assert (Hcp : copied (u s) v (w s) = (c1.1, with_next_ref c1.2 (w s))).
  { unfold copied. rewrite Him. fold n0. fold c1. by destruct c1. }
  assert (Hval : _value (u s') = c1.1).
  { unfold s', dispatched. rewrite Hcp. simpl. reflexivity. }
  assert (Hfl : flavor (u s') = flavor (u s) ∧ config (u s') = config (u s)).
  { unfold s', dispatched. by rewrite Hcp. }
  assert (Hem : emittedValue (u s') = c2.1 ∧ next_ref (w s') = c2.2).
  { unfold s', dispatched. rewrite Hcp. cbn [fst snd].
    unfold installing. cbn [u w]. rewrite Hmu.
    cbn [fired emittedValue with_eventsSubject with_emitted u w].
    rewrite persisted_next.
    unfold copyOut.
    cbn [flavor config with_emitOnUnmute stored with_value with_cache _value].
    rewrite Hnp, Him. cbn [andb next_ref with_next_ref].
    fold c2. by destruct c2. }
  destruct Hem as [Hem Hn'].
  assert (Hi' : installed (u s') = true).
  { unfold installed. rewrite Hval, (proj1 Hfl).
    pose proof (copied_defined (u s) v (w s) (flavor (u s))) as E.
    rewrite Hcp in E. cbn [fst] in E. rewrite E.
    apply valid_defined. unfold admits in Hadm.
    by destruct (_isFrozen _), (isValidValue _ _). }
  assert (Hv : value host s' = Done c3.1 {| u := u s'; w := with_next_ref c3.2 (w s') |}).
  { rewrite (value_run host s' Hi'). unfold copyOut. cbn [host_getU host_getW host_setW host].
    rewrite (proj1 Hfl), (proj2 Hfl), Hnp, Him, Hval, Hn'. cbn [andb].
    fold c3. by destruct c3. }
  exists s', c3.1, {| u := u s'; w := with_next_ref c3.2 (w s') |}.
  split; [exact Hd|]. split; [exact Hv|]. split; [done|].
  rewrite Hval, Hem.
  pose proof (deepCopy_next v n0) as L1. fold c1 in L1.
  pose proof (deepCopy_next c1.1 c1.2) as L2. fold c2 in L2.
  pose proof (deepCopy_proto_free v n0) as Hpf1. fold c1 in Hpf1.
  split.
  { intros r Hr Hv'. apply (deepCopy_range v n0 r Hpf) in Hr.
    apply Hold in Hv'. fold n0 in Hv'. lia. }
  split.
  { intros r Hr. apply (deepCopy_range _ _ r Hpf1) in Hr. fold c2 in Hr. split.
    - intros Hv'. apply Hold in Hv'. fold n0 in Hv'. lia.
    - intros Hv'. apply (deepCopy_range v n0 r Hpf) in Hv'. fold c1 in Hv'. lia. }
  split.
  { intros r Hr. apply (deepCopy_range _ _ r Hpf1) in Hr. fold c3 in Hr.
    split; [|split].
    - intros Hv'. apply Hold in Hv'. fold n0 in Hv'. lia.
    - intros Hv'. apply (deepCopy_range v n0 r Hpf) in Hv'. fold c1 in Hv'. lia.
    - intros Hv'. apply (deepCopy_range _ _ r Hpf1) in Hv'. fold c2 in Hv'. lia. }
  pose proof (deepCopy_kept v Hpf n0) as K1. fold c1 in K1.
  split; [exact K1|].
  split; [unfold c2; by rewrite (deepCopy_kept _ Hpf1)|].
  split; [unfold c3; by rewrite (deepCopy_kept _ Hpf1)|].
  intros Hs.
  destruct (deepCopy_serializable v Hs Hpf n0) as [E1 S1]. fold c1 in E1, S1.
  split; [by apply serializable_kept|].
  split; [exact E1|].
  split; [unfold c2|unfold c3];
    by rewrite (proj1 (deepCopy_serializable _ S1 Hpf1 _)).
Qed.

Lemma immutable_unit_keeps_its_own_copy_witness :
  ∃ s' c s'',
    dispatch host (Direct sampleList) None immutableList = Done true s'
    ∧ value host s' = Done c s''
    ∧ erase c = erase sampleList
    ∧ (∀ r, r ∈ containers c → r ∉ containers (_value (u s'))).
Proof.
  destruct (immutable_unit_keeps_its_own_copy immutableList sampleList None)
    as (s' & c & s'' & H1 & H2 & _ & _ & _ & H3 & _ & _ & _ & H4);
    [vm_compute; reflexivity ..| |].
  - intros r Hr. apply list_elem_of_singleton in Hr. subst r. vm_compute. lia.
  - exists s', c, s''. split; [exact H1|]. split; [exact H2|].
    split; [by apply H4|]. intros r Hr. by apply H3.
Defined.

End Immutable.

(** ** [hashCode] *)

Section HashCode.
Local Open Scope Z_scope.

Lemma toInt32_mod x : toInt32 x mod 2 ^ 32 = x mod 2 ^ 32.
Proof.
  unfold toInt32.
  rewrite Zminus_mod_idemp_l. f_equal. lia.
Qed.

Lemma hash_step_mod h h' c :
  h mod 2 ^ 32 = h' mod 2 ^ 32 →
  toInt32 (shiftLeft32 h 5 - h + c) mod 2 ^ 32 = (31 * h' + c) mod 2 ^ 32.
Proof.
  intros H. rewrite toInt32_mod. unfold shiftLeft32.
  rewrite <- Zplus_mod_idemp_l, <- Zminus_mod_idemp_l, toInt32_mod.
  rewrite Z.shiftl_mul_pow2 by lia.
  rewrite <- Zmult_mod_idemp_l, toInt32_mod, Zmult_mod_idemp_l.
  rewrite Zminus_mod_idemp_l, Zplus_mod_idemp_l.
  replace (h * 2 ^ 5 - h + c) with (31 * h + c) by lia.
  rewrite <- Zplus_mod_idemp_l, <- Zmult_mod_idemp_r, H,
    Zmult_mod_idemp_r, Zplus_mod_idemp_l. done.
Qed.

Lemma hash_loop_mod codes : ∀ h h',
  h mod 2 ^ 32 = h' mod 2 ^ 32 →
  fold_left (λ hash code, toInt32 (shiftLeft32 hash 5 - hash + code)) codes h
    mod 2 ^ 32
  = fold_left (λ h code, 31 * h + code) codes h' mod 2 ^ 32.
Proof.
  induction codes as [|c codes IH]; intros h h' H; [done|].
  simpl. apply IH. by apply hash_step_mod.
Qed.

Lemma hashCode_number_polynomial str :
  hashCode_number str = polynomial31 (charCodes str) mod 2 ^ 32.
Proof. unfold hashCode_number, toUint32, polynomial31. by apply hash_loop_mod. Qed.

Lemma digitValue32_digit32 d :
  0 ≤ d < 32 → digitValue32 (upperCase (digit32 d)) = d.
Proof.
  intros H. rewrite <- (Z2Nat.id d) by lia.
  assert (Hn : (Z.to_nat d < 32)%nat) by lia.
  generalize dependent (Z.to_nat d). intros n Hn.
  do 32 (destruct n as [|n]; [vm_compute; reflexivity|]). lia.
Qed.

Lemma parseInt32_toString32 fuel : ∀ n acc,
  0 ≤ n < 32 ^ Z.of_nat fuel →
  parseInt32 (toUpperCase (toString32 fuel n acc)) 0
  = parseInt32 (toUpperCase acc) n.
Proof.
  induction fuel as [|fuel IH]; intros n acc Hn.
  - simpl in *. by replace n with 0 by lia.
  - cbn [toString32].
    assert (Hd : 0 ≤ n mod 32 < 32) by (apply Z.mod_pos_bound; lia).
    assert (Hq : n = n / 32 * 32 + n mod 32).
    { rewrite (Z.mul_comm (n / 32)). apply Z.div_mod. lia. }
    destruct (n / 32 =? 0) eqn:E.
    + apply Z.eqb_eq in E. cbn [toUpperCase parseInt32].
      rewrite digitValue32_digit32 by done. f_equal. lia.
    + rewrite IH.
      * cbn [toUpperCase parseInt32].
        rewrite digitValue32_digit32 by done. f_equal. lia.
      * split; [apply Z.div_pos; lia|].
        apply Z.div_lt_upper_bound; [lia|].
        rewrite Nat2Z.inj_succ, Z.pow_succ_r in Hn by lia. lia.
Qed.

Lemma hashCode_printed str :
  hashCode str = toUpperCase (toString32 7 (hashCode_number str) "").
Proof.
  unfold hashCode. case_bool_decide as Hl; [|done].
  destruct str; [reflexivity|discriminate].
Qed.

Lemma hashCode_read str : parseInt32 (hashCode str) 0 = hashCode_number str.
Proof.
  rewrite hashCode_printed, parseInt32_toString32; [done|].
  unfold hashCode_number, toUint32.
  pose proof (Z.mod_pos_bound
    (fold_left (λ hash code, toInt32 (shiftLeft32 hash 5 - hash + code))
       (charCodes str) 0) (2 ^ 32) ltac:(lia)).
  change (32 ^ Z.of_nat 7) with 34359738368. lia.
Qed.

(** X23.  [hashCode] is the polynomial hash of base 31 over the character
    codes, taken modulo [2^32] and printed in base 32: reading the result
    back as a number of base 32 gives that value, and two strings get the
    same code exactly when their polynomials agree modulo [2^32]. *)
Theorem hashCode_is_the_polynomial_hash (str : string) :
  parseInt32 (hashCode str) 0 = polynomial31 (charCodes str) mod 2 ^ 32
  ∧ ∀ str', hashCode str' = hashCode str
            ↔ polynomial31 (charCodes str') mod 2 ^ 32
              = polynomial31 (charCodes str) mod 2 ^ 32.
Proof.
  split; [by rewrite hashCode_read, hashCode_number_polynomial|].
  intros str'. rewrite <- !hashCode_number_polynomial. split.
  - intros H. by rewrite <- !hashCode_read, H.
  - intros H. by rewrite !hashCode_printed, H.
Qed.

End HashCode.

(** ** Ids *)

Section Ids.
Import Solo.

Lemma stores_registry w1 w2 : same_stores w1 w2 → same_registry w1 w2.
Proof. by intros (_ & _ & H1 & H2 & H3). Qed.

Lemma same_registry_trans w1 w2 w3 :
  same_registry w1 w2 → same_registry w2 w3 → same_registry w1 w3.
Proof. intros (A1 & A2 & A3) (B1 & B2 & B3). repeat split; congruence. Qed.

Lemma persisted_registry x w0 : same_registry w0 (persisted x w0).
Proof. unfold persisted. by destruct (is_true _). Qed.

Lemma installing_registry v o skip x0 w0 :
  same_registry w0 (w (installing v o skip {| u := x0; w := w0 |})).
Proof.
  unfold installing. cbn [u w].
  eapply same_registry_trans; [|apply persisted_registry].
  destruct (_isMuted x0); [done|]. apply stores_registry, copyOut_stores.
Qed.

Lemma seeded_registry f cfg v w2 : same_registry w2 (w (seeded f cfg v w2)).
Proof.
  unfold seeded. destruct (_ && _); [apply installing_registry|].
  eapply same_registry_trans; [|apply installing_registry].
  apply stores_registry, allocated_stores.
Qed.

(** X25.  With [checkUniqueId] on, the construction of a Unit with an id
    records the place of the construction: as long as the registry is not
    reset, every construction with the same id at another place throws the
    duplicate-id error, and none at the same place does. *)
Theorem id_belongs_to_one_place (f : Flavor) (cfg : Cfg.t) (locationId : string)
    (w0 : World) (s : Solo.t) (id : string) :
  Cfg.id cfg = Some id →
  is_true (Env.checkUniqueId (ENVIRONMENT w0)) = true →
  construct f cfg locationId w0 = Done tt s →
  UniqueIdsAndLocationIdMap (w s) !! id = Some locationId
  ∧ ∀ f' cfg' locationId',
      Cfg.id cfg' = Some id →
      (locationId' ≠ locationId →
       construct f' cfg' locationId' (w s)
       = Thrown DuplicateId {| u := blank f' cfg'; w := w s |})
      ∧ (locationId' = locationId →
         ∀ s2, construct f' cfg' locationId' (w s) ≠ Thrown DuplicateId s2).
Proof.
  intros Hid Hck Hrun. rewrite construct_run in Hrun.
  destruct (baseConstructed cfg locationId w0) as [e|w1] eqn:Hb; [done|].
  destruct (seed f cfg w1) as [[v w2]|] eqn:Hs; [|done].
  injection Hrun as <-.
  assert (Hreg : same_registry w1 (w (seeded f cfg v w2))).
  { eapply same_registry_trans; [|apply seeded_registry].
    apply stores_registry, (seed_stores f cfg w1 v w2 Hs). }
  destruct Hreg as (R1 & R2 & R3).
  assert (Hw1 : UniqueIdsAndLocationIdMap w1 !! id = Some locationId
                ∧ _ENVIRONMENT w1 = _ENVIRONMENT w0 ∧ _isDevMode w1 = _isDevMode w0).
  { unfold baseConstructed in Hb. rewrite Hid, Hck in Hb.
    destruct (negb (isValidId id)); [done|].
    destruct (UniqueIdsAndLocationIdMap w0 !! id) as [known|].
    - destruct (negb _); [done|]. injection Hb as <-. simpl.
      by rewrite lookup_insert_eq.
    - injection Hb as <-. simpl. by rewrite lookup_insert_eq. }
  destruct Hw1 as (U1 & U2 & U3).
  assert (Hvalid : isValidId id = true).
  { unfold baseConstructed in Hb. rewrite Hid in Hb.
    by destruct (isValidId id). }
  set (s1 := seeded f cfg v w2) in *.
  assert (Hck' : is_true (Env.checkUniqueId (ENVIRONMENT (w s1))) = true).
  { unfold ENVIRONMENT in *. by rewrite R2, R3, U2, U3. }
  split; [by rewrite R1|].
  intros f' cfg' loc' Hid'. split.
  - intros Hne. rewrite construct_run. unfold baseConstructed.
    rewrite Hid', Hvalid, Hck', R1, U1. simpl.
    case_bool_decide as E; [by subst|done].
  - intros -> s2. rewrite construct_run. unfold baseConstructed.
    rewrite Hid', Hvalid, Hck', R1, U1. simpl.
    case_bool_decide as E; [|done]. simpl.
    by destruct (seed f' cfg' _) as [[v' w']|].
Qed.

Lemma id_belongs_to_one_place_witness :
  ∃ s, construct NumUnit idCfg "here" checkingWorld = Done tt s
    ∧ construct BoolUnit idCfg "there" (w s)
      = Thrown DuplicateId {| u := blank BoolUnit idCfg; w := w s |}.
Proof.
  eexists. split; [vm_compute; reflexivity|].
  eapply (id_belongs_to_one_place NumUnit idCfg "here" checkingWorld _ "k");
    [reflexivity|reflexivity|vm_compute; reflexivity|reflexivity|done].
Defined.

End Ids.
